(** * AEAD record layer of fuckshadows-libev ([src/aead.c])

    A shallow embedding of the cipher catalog, the session context, the UDP
    one-shot codec ([aead_encrypt_all] / [aead_decrypt_all]) and the TCP
    stream codec ([aead_encrypt] / [aead_decrypt]), followed by the
    properties of the record layer.

    Conventions of the embedding.
    - A [buffer_t] is the list of its [len] live bytes; [capacity] and the
      [brealloc] calls only size the allocation and do not appear.  The
      static scratch buffers [tmp] are local to a call, except that a call
      which returns more bytes than it wrote returns what the buffer held
      before: those calls take that content as an argument.
    - The arrays [salt], [subkey] and [nonce] of a context are the lists of
      their key_len, key_len and nonce_len live bytes.
    - [size_t] and [int] values are [Z]; the only narrowing conversion of the
      file, the [uint16_t plen] parameter of [aead_chunk_encrypt], has its
      wrap-around written out.
    - A call that does not return ([assert] failure, [FATAL]) is [Aborted].
    - The AEAD primitives (mbed TLS, libsodium), the BLAKE2b hashes and the
      salt filter ([sbf.h]) are outside of the file: they are the fields of
      the class [Externals], and what the record layer expects of them is
      the class [ExternalsOk]. *)

From Stdlib Require Import ZArith List Bool Lia.
From Stdlib Require Import Strings.String Strings.Byte.
Import ListNotations.

#[local] Open Scope Z_scope.
#[local] Open Scope list_scope.

Set Implicit Arguments.

(** ** Bytes and buffers *)

Definition bytes := list byte.

Definition blen (b : bytes) : Z := Z.of_nat (List.length b).

Definition byte_val (b : byte) : Z := Z.of_N (Byte.to_N b).

Definition byte_of (z : Z) : byte :=
  match Byte.of_N (Z.to_N (z mod 256)) with
  | Some b => b
  | None => x00
  end.

Definition take (n : Z) (b : bytes) : bytes := firstn (Z.to_nat n) b.
Definition drop (n : Z) (b : bytes) : bytes := skipn (Z.to_nat n) b.

Definition zeros (n : Z) : bytes := repeat x00 (Z.to_nat n).

(** [htons] followed by [memcpy] into a two-byte buffer, and
    [ntohs( *(uint16_t * )len_buf)]: the 16-bit big-endian length field. *)
Definition htons (v : Z) : bytes := [byte_of (v / 256); byte_of v].

Definition ntohs (b : bytes) : Z :=
  match b with
  | hi :: lo :: _ => 256 * byte_val hi + byte_val lo
  | _ => 0
  end.

(** libsodium's [sodium_increment]: add one to a little-endian counter of
    [nlen] bytes, the carry running from the first byte up. *)
Fixpoint increment_carry (c : Z) (n : bytes) : bytes :=
  match n with
  | [] => []
  | b :: r => let c' := c + byte_val b in
              byte_of c' :: increment_carry (c' / 256) r
  end.

Definition sodium_increment (n : bytes) (nlen : Z) : bytes :=
  increment_carry 1 (take nlen n) ++ drop nlen n.

(** The number a little-endian counter stands for. *)
Fixpoint le_value (n : bytes) : Z :=
  match n with
  | [] => 0
  | b :: r => byte_val b + 256 * le_value r
  end.

(** [count] calls of [sodium_increment] on a nonce of [nlen] bytes. *)
Definition increments (count : nat) (nlen : Z) (n : bytes) : bytes :=
  Nat.iter count (fun x => sodium_increment x nlen) n.

(** ** Outcomes *)

Inductive outcome (A : Type) : Type :=
| Done (a : A)
| Aborted
| OutOfFuel.
Arguments Aborted {A}.
Arguments OutOfFuel {A}.

Definition bind {A B : Type} (o : outcome A) (k : A -> outcome B) : outcome B :=
  match o with
  | Done a => k a
  | Aborted => Aborted
  | OutOfFuel => OutOfFuel
  end.

Notation "x <- c ;; k" := (bind c (fun x => k))
  (at level 61, c at next level, right associativity).
Notation "' p <- c ;; k" := (bind c (fun x => let 'p := x in k))
  (at level 61, p pattern, c at next level, right associativity).

(** [assert(b)] *)
Definition assert (b : bool) : outcome unit := if b then Done tt else Aborted.

Inductive crypto_status : Type := CRYPTO_OK | CRYPTO_NEED_MORE | CRYPTO_ERROR.

(** ** Cipher catalog *)

Definition NONE : Z := -1.
Definition AES128GCM : Z := 0.
Definition AES192GCM : Z := 1.
Definition AES256GCM : Z := 2.
Definition CHACHA20POLY1305 : Z := 3.
Definition CHACHA20POLY1305IETF : Z := 4.
Definition XCHACHA20POLY1305IETF : Z := 5.
Definition AEAD_CIPHER_NUM : Z := 6.

Definition CHUNK_SIZE_LEN : Z := 2.
Definition CHUNK_SIZE_MASK : Z := 0x3FFF.

Definition CIPHER_UNSUPPORTED : string := "unsupported".
Definition SUBKEY_APPID : string := "fuckshadows-g3nk".

Definition supported_aead_ciphers : list string :=
  [ "aes-128-gcm"; "aes-192-gcm"; "aes-256-gcm"; "chacha20-poly1305";
    "chacha20-ietf-poly1305"; "xchacha20-ietf-poly1305" ]%string.

Definition supported_aead_ciphers_mbedtls : list string :=
  [ "AES-128-GCM"; "AES-192-GCM"; "AES-256-GCM";
    CIPHER_UNSUPPORTED; CIPHER_UNSUPPORTED; CIPHER_UNSUPPORTED ]%string.

Definition supported_aead_ciphers_nonce_size : list Z := [12; 12; 12; 8; 12; 24].
Definition supported_aead_ciphers_key_size : list Z := [16; 24; 32; 32; 32; 32].
Definition supported_aead_ciphers_tag_size : list Z := [16; 16; 16; 16; 16; 16].

Definition table {A : Type} (t : list A) (d : A) (i : Z) : A := nth (Z.to_nat i) t d.

(** ** Data model *)

(** mbed TLS cipher description ([cipher_kt_t]); the ChaCha family gets a
    fake one. *)
Record cipher_kt_t : Type := { key_bitlen : Z; iv_size : Z }.

(** mbed TLS cipher context ([cipher_evp_t]) after [mbedtls_cipher_setup]:
    the cipher it was set up for and the key installed by
    [mbedtls_cipher_setkey], if any. *)
Record cipher_evp_t : Type := { evp_info : cipher_kt_t; evp_method : Z; evp_key : option bytes }.

Record cipher_t : Type := {
  method : Z;
  info : option cipher_kt_t;
  key : bytes;
  key_len : Z;
  nonce_len : Z;
  tag_len : Z
}.

Record cipher_ctx_t : Type := {
  init : bool;
  cipher : cipher_t;
  evp : option cipher_evp_t;
  salt : bytes;
  subkey : bytes;
  nonce : bytes;
  chunk : option bytes
}.

(** ** External collaborators *)

Class Externals : Type := {
  (** build flag: set in the server build, where the salt filter is consulted *)
  MODULE_REMOTE : bool;
  (** the library AEAD selected by the [switch] on the method id, in combined
      mode (ciphertext followed by tag) and with empty associated data:
      [aead_seal method key nonce message], [aead_open method key nonce ciphertext];
      [None] is a non-zero return value *)
  aead_seal : Z -> bytes -> bytes -> bytes -> option bytes;
  aead_open : Z -> bytes -> bytes -> bytes -> option bytes;
  (** [crypto_generichash outlen pass] (no key) *)
  crypto_generichash : Z -> string -> option bytes;
  (** [crypto_generichash_blake2b_salt_personal outlen key salt personal]
      (no input); only [crypto_generichash_blake2b_SALTBYTES] = 16 bytes of
      the salt are read *)
  crypto_generichash_blake2b_salt_personal : Z -> bytes -> bytes -> string -> option bytes;
  mbedtls_cipher_info_from_string : string -> option cipher_kt_t;
  (** the scalable Bloom filter of received salts *)
  sbf : Type;
  fs_sbf_check : sbf -> bytes -> Z;
  fs_sbf_add : sbf -> bytes -> sbf * Z
}.

Definition crypto_generichash_blake2b_SALTBYTES : Z := 16.

Section Codec.

Context {E : Externals}.

(** ** Key setup *)

Definition aead_derive_key (pass : string) (key_len : Z) : outcome (bytes * Z) :=
  match crypto_generichash key_len pass with
  | None => Aborted
  | Some k => Done (k, key_len)
  end.

Definition illegal_method (method : Z) : bool :=
  (method <? AES128GCM) || (method >=? AEAD_CIPHER_NUM).

Definition aead_get_cipher_type (method : Z) : option cipher_kt_t :=
  if illegal_method method then None
  else if method >=? CHACHA20POLY1305 then None
  else
    let mbedtlsname := table supported_aead_ciphers_mbedtls CIPHER_UNSUPPORTED method in
    if String.eqb mbedtlsname CIPHER_UNSUPPORTED then None
    else mbedtls_cipher_info_from_string mbedtlsname.

Definition aead_key_init (method : Z) (pass : string) : outcome (option cipher_t) :=
  if illegal_method method then Done None
  else
    let info0 :=
      if method >=? CHACHA20POLY1305
      then Some {| key_bitlen := table supported_aead_ciphers_key_size 0 method * 8;
                   iv_size := table supported_aead_ciphers_nonce_size 0 method |}
      else aead_get_cipher_type method in
    let key_len0 := 0 in
    _ <- (match info0 with
          | None => if key_len0 =? 0 then Aborted else Done tt
          | Some _ => Done tt
          end) ;;
    '(k, klen) <- aead_derive_key pass (table supported_aead_ciphers_key_size 0 method) ;;
    _ <- (if klen =? 0 then Aborted else Done tt) ;;
    Done (Some {| method := method;
                  info := info0;
                  key := k;
                  key_len := klen;
                  nonce_len := table supported_aead_ciphers_nonce_size 0 method;
                  tag_len := table supported_aead_ciphers_tag_size 0 method |}).

(** The [for] loop of [aead_init]: the index of the first table entry equal to
    the name, or the index one past the table. *)
Fixpoint aead_init_scan (name : string) (m : Z) (names : list string) : Z :=
  match names with
  | [] => m
  | n :: rest => if String.eqb name n then m else aead_init_scan name (m + 1) rest
  end.

(** The method id [aead_init] hands to [aead_key_init]; [None] is the NULL
    method name. *)
Definition aead_init_method (method : option string) : Z :=
  match method with
  | None => AES128GCM
  | Some name =>
      let m := aead_init_scan name AES128GCM supported_aead_ciphers in
      if m >=? AEAD_CIPHER_NUM then AES256GCM else m
  end.

Definition aead_init (pass : string) (method : option string) : outcome (option cipher_t) :=
  aead_key_init (aead_init_method method) pass.

(** ** AEAD primitive adapter *)

Definition is_gcm (m : Z) : bool :=
  (m =? AES128GCM) || (m =? AES192GCM) || (m =? AES256GCM).

(** [mbedtls_cipher_setkey]: the key length must be the one of the cipher the
    context was set up for. *)
Definition mbedtls_cipher_setkey (e : cipher_evp_t) (k : bytes) (bits : Z) : option cipher_evp_t :=
  if bits =? key_bitlen (evp_info e)
  then Some {| evp_info := evp_info e; evp_method := evp_method e;
               evp_key := Some (take (bits / 8) k) |}
  else None.

(** [mbedtls_cipher_auth_encrypt] / [mbedtls_cipher_auth_decrypt]: the tag
    follows the ciphertext in the same buffer, so the result is the combined
    form the libsodium calls produce; a NULL or key-less context is an error. *)
Definition mbedtls_cipher_auth_encrypt (e : option cipher_evp_t) (iv m : bytes) : option bytes :=
  match e with
  | Some e' => match evp_key e' with
               | Some k => aead_seal (evp_method e') k iv m
               | None => None
               end
  | None => None
  end.

Definition mbedtls_cipher_auth_decrypt (e : option cipher_evp_t) (iv c : bytes) : option bytes :=
  match e with
  | Some e' => match evp_key e' with
               | Some k => aead_open (evp_method e') k iv c
               | None => None
               end
  | None => None
  end.

(** libsodium reads [KEYBYTES] = 32 bytes of key and [NPUBBYTES] bytes of nonce. *)
Definition crypto_aead_chacha20poly1305_encrypt (m n k : bytes) : option bytes :=
  aead_seal CHACHA20POLY1305 (take 32 k) (take 8 n) m.
Definition crypto_aead_chacha20poly1305_ietf_encrypt (m n k : bytes) : option bytes :=
  aead_seal CHACHA20POLY1305IETF (take 32 k) (take 12 n) m.
Definition crypto_aead_xchacha20poly1305_ietf_encrypt (m n k : bytes) : option bytes :=
  aead_seal XCHACHA20POLY1305IETF (take 32 k) (take 24 n) m.
Definition crypto_aead_chacha20poly1305_decrypt (c n k : bytes) : option bytes :=
  aead_open CHACHA20POLY1305 (take 32 k) (take 8 n) c.
Definition crypto_aead_chacha20poly1305_ietf_decrypt (c n k : bytes) : option bytes :=
  aead_open CHACHA20POLY1305IETF (take 32 k) (take 12 n) c.
Definition crypto_aead_xchacha20poly1305_ietf_decrypt (c n k : bytes) : option bytes :=
  aead_open XCHACHA20POLY1305IETF (take 32 k) (take 24 n) c.

(** [aead_cipher_encrypt ctx m n k]: [Some c] is [err == 0] with [c] the
    [*clen] bytes written, [None] a non-zero [err]. *)
Definition aead_cipher_encrypt (cipher_ctx : cipher_ctx_t) (m n k : bytes) : option bytes :=
  let nlen := nonce_len (cipher cipher_ctx) in
  let mth := method (cipher cipher_ctx) in
  if is_gcm mth then mbedtls_cipher_auth_encrypt (evp cipher_ctx) (take nlen n) m
  else if mth =? CHACHA20POLY1305 then crypto_aead_chacha20poly1305_encrypt m n k
  else if mth =? CHACHA20POLY1305IETF then crypto_aead_chacha20poly1305_ietf_encrypt m n k
  else if mth =? XCHACHA20POLY1305IETF then crypto_aead_xchacha20poly1305_ietf_encrypt m n k
  else None.

(** [aead_cipher_decrypt ctx m n k]: [m] is ciphertext and tag, [Some p] is
    [err == 0] with [p] the [*plen] bytes written. *)
Definition aead_cipher_decrypt (cipher_ctx : cipher_ctx_t) (m n k : bytes) : option bytes :=
  let nlen := nonce_len (cipher cipher_ctx) in
  let mth := method (cipher cipher_ctx) in
  if is_gcm mth then mbedtls_cipher_auth_decrypt (evp cipher_ctx) (take nlen n) m
  else if mth =? CHACHA20POLY1305 then crypto_aead_chacha20poly1305_decrypt m n k
  else if mth =? CHACHA20POLY1305IETF then crypto_aead_chacha20poly1305_ietf_decrypt m n k
  else if mth =? XCHACHA20POLY1305IETF then crypto_aead_xchacha20poly1305_ietf_decrypt m n k
  else None.

(** ** Session context *)

Definition set_init (ctx : cipher_ctx_t) (b : bool) : cipher_ctx_t :=
  {| init := b; cipher := cipher ctx; evp := evp ctx; salt := salt ctx;
     subkey := subkey ctx; nonce := nonce ctx; chunk := chunk ctx |}.
Definition set_evp (ctx : cipher_ctx_t) (e : option cipher_evp_t) : cipher_ctx_t :=
  {| init := init ctx; cipher := cipher ctx; evp := e; salt := salt ctx;
     subkey := subkey ctx; nonce := nonce ctx; chunk := chunk ctx |}.
Definition set_salt (ctx : cipher_ctx_t) (s : bytes) : cipher_ctx_t :=
  {| init := init ctx; cipher := cipher ctx; evp := evp ctx; salt := s;
     subkey := subkey ctx; nonce := nonce ctx; chunk := chunk ctx |}.
Definition set_subkey (ctx : cipher_ctx_t) (k : bytes) : cipher_ctx_t :=
  {| init := init ctx; cipher := cipher ctx; evp := evp ctx; salt := salt ctx;
     subkey := k; nonce := nonce ctx; chunk := chunk ctx |}.
Definition set_nonce (ctx : cipher_ctx_t) (n : bytes) : cipher_ctx_t :=
  {| init := init ctx; cipher := cipher ctx; evp := evp ctx; salt := salt ctx;
     subkey := subkey ctx; nonce := n; chunk := chunk ctx |}.
Definition set_chunk (ctx : cipher_ctx_t) (c : option bytes) : cipher_ctx_t :=
  {| init := init ctx; cipher := cipher ctx; evp := evp ctx; salt := salt ctx;
     subkey := subkey ctx; nonce := nonce ctx; chunk := c |}.

(** [aead_cipher_ctx_set_subkey] *)
Definition aead_cipher_ctx_set_subkey (cipher_ctx : cipher_ctx_t) : outcome cipher_ctx_t :=
  let c := cipher cipher_ctx in
  match crypto_generichash_blake2b_salt_personal (key_len c)
          (take (key_len c) (key c))
          (take crypto_generichash_blake2b_SALTBYTES (salt cipher_ctx))
          SUBKEY_APPID with
  | None => Aborted
  | Some sk =>
      let ctx1 := set_nonce (set_subkey cipher_ctx sk) (zeros (nonce_len c)) in
      if method c >=? CHACHA20POLY1305 then Done ctx1
      else
        match evp ctx1 with
        | None => Aborted
        | Some e =>
            match mbedtls_cipher_setkey e (subkey ctx1) (key_len c * 8) with
            | None => Aborted
            | Some e' => Done (set_evp ctx1 (Some e'))
            end
        end
  end.

(** [aead_cipher_ctx_udp_set_key] *)
Definition aead_cipher_ctx_udp_set_key (cipher_ctx : cipher_ctx_t) : outcome cipher_ctx_t :=
  let c := cipher cipher_ctx in
  if method c >=? CHACHA20POLY1305 then Done cipher_ctx
  else
    match evp cipher_ctx with
    | None => Aborted
    | Some e =>
        match mbedtls_cipher_setkey e (key c) (key_len c * 8) with
        | None => Aborted
        | Some e' => Done (set_evp cipher_ctx (Some e'))
        end
    end.

(** [aead_cipher_ctx_init]: the mbed TLS context of the session, NULL for the
    ChaCha family. *)
Definition aead_cipher_ctx_init (method : Z) : outcome (option cipher_evp_t) :=
  if illegal_method method then Done None
  else if method >=? CHACHA20POLY1305 then Done None
  else
    match aead_get_cipher_type method with
    | None => Aborted
    | Some ci => Done (Some {| evp_info := ci; evp_method := method; evp_key := None |})
    end.

(** [aead_ctx_init cipher enc]; [rnd] is what [rand_bytes] writes into the
    salt when [enc] is set. *)
Definition aead_ctx_init (c : cipher_t) (enc : bool) (rnd : bytes) : outcome cipher_ctx_t :=
  e <- aead_cipher_ctx_init (method c) ;;
  Done {| init := false; cipher := c; evp := e;
          salt := if enc then take (key_len c) rnd else zeros (key_len c);
          subkey := zeros (key_len c);
          nonce := zeros (nonce_len c);
          chunk := None |}.

(** What a scratch buffer holds after [written] was stored at its start:
    [written], then what the region [tmp] held before. *)
Definition scratch (written tmp : bytes) (len : Z) : bytes :=
  take len (written ++ drop (blen written) tmp).

(** ** UDP one-shot codec *)

Definition aead_encrypt_all (plaintext : bytes) (c : cipher_t) (rnd : bytes)
  : outcome (crypto_status * bytes) :=
  cipher_ctx <- aead_ctx_init c true rnd ;;
  let salt_len := key_len c in
  let tag_len := tag_len c in
  let ciphertext_len := tag_len + blen plaintext in
  cipher_ctx <- aead_cipher_ctx_udp_set_key cipher_ctx ;;
  match aead_cipher_encrypt cipher_ctx plaintext (nonce cipher_ctx) (key (cipher cipher_ctx)) with
  | None => Done (CRYPTO_ERROR, plaintext)
  | Some ct =>
      _ <- assert (ciphertext_len =? blen ct) ;;
      Done (CRYPTO_OK, take salt_len (salt cipher_ctx) ++ ct)
  end.

(** [tmp] is the content of the static scratch buffer on entry; the result is
    the status, the caller's buffer and the salt filter. *)
Definition aead_decrypt_all (g : sbf) (ciphertext : bytes) (c : cipher_t) (tmp : bytes)
  : outcome (crypto_status * bytes * sbf) :=
  let salt_len := key_len c in
  let tag_len := tag_len c in
  if blen ciphertext <=? salt_len + tag_len then Done (CRYPTO_ERROR, ciphertext, g)
  else
    cipher_ctx <- aead_ctx_init c false [] ;;
    let plaintext_len := blen ciphertext - salt_len - tag_len in
    let cipher_ctx := set_salt cipher_ctx (take salt_len ciphertext) in
    if MODULE_REMOTE && (fs_sbf_check g (salt cipher_ctx) =? 1)
    then Done (CRYPTO_ERROR, ciphertext, g)
    else
      cipher_ctx <- aead_cipher_ctx_udp_set_key cipher_ctx ;;
      match aead_cipher_decrypt cipher_ctx (drop salt_len ciphertext)
              (nonce cipher_ctx) (key (cipher cipher_ctx)) with
      | None => Done (CRYPTO_ERROR, ciphertext, g)
      | Some p =>
          let g' := if MODULE_REMOTE then fst (fs_sbf_add g (salt cipher_ctx)) else g in
          Done (CRYPTO_OK, scratch p tmp plaintext_len, g')
      end.

(** ** TCP stream codec *)

(** [aead_chunk_encrypt ctx p n plen] with [plen] the [uint16_t] argument:
    status, the bytes written at [c], and the nonce, which is advanced in
    place. *)
Definition aead_chunk_encrypt (ctx : cipher_ctx_t) (p n : bytes) (plen : Z)
  : outcome (crypto_status * bytes * bytes) :=
  let nlen := nonce_len (cipher ctx) in
  let tlen := tag_len (cipher ctx) in
  _ <- assert (plen <=? CHUNK_SIZE_MASK) ;;
  let real_plen := Z.min plen CHUNK_SIZE_MASK in
  let len_buf := htons real_plen in
  match aead_cipher_encrypt ctx len_buf n (subkey ctx) with
  | None => Done (CRYPTO_ERROR, [], n)
  | Some c1 =>
      _ <- assert (blen c1 =? CHUNK_SIZE_LEN + tlen) ;;
      let n1 := sodium_increment n nlen in
      match aead_cipher_encrypt ctx (take real_plen p) n1 (subkey ctx) with
      | None => Done (CRYPTO_ERROR, c1, n1)
      | Some c2 =>
          _ <- assert (blen c2 =? real_plen + tlen) ;;
          let n2 := sodium_increment n1 nlen in
          Done (CRYPTO_OK, c1 ++ c2, n2)
      end
  end.

(** [aead_encrypt plaintext cipher_ctx]; [None] is the NULL context and [tmp]
    the content of the static scratch buffer on entry. *)
Definition aead_encrypt (plaintext : bytes) (cipher_ctx : option cipher_ctx_t) (tmp : bytes)
  : outcome (crypto_status * bytes * option cipher_ctx_t) :=
  match cipher_ctx with
  | None => Done (CRYPTO_ERROR, plaintext, None)
  | Some ctx =>
      if blen plaintext =? 0 then Done (CRYPTO_OK, plaintext, Some ctx)
      else
        let c := cipher ctx in
        let salt_len := key_len c in
        let tag_len := tag_len c in
        let salt_ofst := if negb (init ctx) then salt_len else 0 in
        let out_len := salt_ofst + 2 * tag_len + blen plaintext + CHUNK_SIZE_LEN in
        '(head, ctx1) <-
          (if negb (init ctx)
           then ctx' <- aead_cipher_ctx_set_subkey ctx ;;
                Done (take salt_len (salt ctx), set_init ctx' true)
           else Done ([], ctx)) ;;
        '(err, body, n) <-
          aead_chunk_encrypt ctx1 plaintext (nonce ctx1) (blen plaintext mod 65536) ;;
        let ctx2 := set_nonce ctx1 n in
        match err with
        | CRYPTO_OK => Done (CRYPTO_OK, scratch (head ++ body) tmp out_len, Some ctx2)
        | _ => Done (err, plaintext, Some ctx2)
        end
  end.

(** [aead_chunk_decrypt ctx c n]: status, the plaintext written at [p], the
    reassembly bytes left at [c] ([*clen] of them), and the nonce. *)
Definition aead_chunk_decrypt (ctx : cipher_ctx_t) (c n : bytes)
  : outcome (crypto_status * bytes * bytes * bytes) :=
  let nlen := nonce_len (cipher ctx) in
  let tlen := tag_len (cipher ctx) in
  let clen := blen c in
  if clen <=? 2 * tlen + CHUNK_SIZE_LEN then Done (CRYPTO_NEED_MORE, [], c, n)
  else
    match aead_cipher_decrypt ctx (take (CHUNK_SIZE_LEN + tlen) c) n (subkey ctx) with
    | None => Done (CRYPTO_ERROR, [], c, n)
    | Some len_buf =>
        _ <- assert (blen len_buf =? CHUNK_SIZE_LEN) ;;
        let mlen := ntohs len_buf in
        if mlen >? CHUNK_SIZE_MASK then Done (CRYPTO_ERROR, [], c, n)
        else if mlen =? 0 then Done (CRYPTO_ERROR, [], c, n)
        else
          let chunk_len := 2 * tlen + CHUNK_SIZE_LEN + mlen in
          if clen <? chunk_len then Done (CRYPTO_NEED_MORE, [], c, n)
          else
            let n1 := sodium_increment n nlen in
            match aead_cipher_decrypt ctx (take (mlen + tlen) (drop (CHUNK_SIZE_LEN + tlen) c))
                    n1 (subkey ctx) with
            | None => Done (CRYPTO_ERROR, [], c, n1)
            | Some p =>
                _ <- assert (blen p =? mlen) ;;
                let n2 := sodium_increment n1 nlen in
                Done (CRYPTO_OK, p, drop chunk_len c, n2)
            end
    end.

Definition chunk_data (ctx : cipher_ctx_t) : bytes :=
  match chunk ctx with
  | Some c => c
  | None => []
  end.

(** The [while (cipher_ctx->chunk->len > 0)] loop of [aead_decrypt];
    [plaintext] is what the chunks popped so far wrote into the scratch
    buffer, [plen] bytes of it. *)
Fixpoint aead_decrypt_loop (fuel : nat) (cipher_ctx : cipher_ctx_t) (plaintext : bytes)
  : outcome (crypto_status * bytes * cipher_ctx_t) :=
  match fuel with
  | O => OutOfFuel
  | S fuel' =>
      if blen (chunk_data cipher_ctx) >? 0 then
        '(err, p, c', n') <-
          aead_chunk_decrypt cipher_ctx (chunk_data cipher_ctx) (nonce cipher_ctx) ;;
        let ctx1 := set_nonce cipher_ctx n' in
        match err with
        | CRYPTO_ERROR => Done (CRYPTO_ERROR, plaintext, ctx1)
        | CRYPTO_NEED_MORE =>
            if blen plaintext =? 0 then Done (CRYPTO_NEED_MORE, plaintext, ctx1)
            else Done (CRYPTO_OK, plaintext, ctx1)
        | CRYPTO_OK =>
            aead_decrypt_loop fuel' (set_chunk ctx1 (Some c')) (plaintext ++ p)
        end
      else Done (CRYPTO_OK, plaintext, cipher_ctx)
  end.

(** The [if (!cipher_ctx->init)] block of [aead_decrypt], on the context with
    the segment already appended: [Some err] is an early [return err], [None]
    falls through to the chunk loop. *)
Definition aead_decrypt_salt (g : sbf) (ctx0 : cipher_ctx_t)
  : outcome (option crypto_status * cipher_ctx_t * sbf) :=
  let salt_len := key_len (cipher ctx0) in
  if negb (init ctx0) then
    if blen (chunk_data ctx0) <=? salt_len then Done (Some CRYPTO_NEED_MORE, ctx0, g)
    else
      ctx' <- aead_cipher_ctx_set_subkey (set_salt ctx0 (take salt_len (chunk_data ctx0))) ;;
      if MODULE_REMOTE && (fs_sbf_check g (salt ctx') =? 1)
      then Done (Some CRYPTO_ERROR, ctx', g)
      else
        let g' := if MODULE_REMOTE then fst (fs_sbf_add g (salt ctx')) else g in
        Done (None,
              set_init (set_chunk ctx' (Some (drop salt_len (chunk_data ctx')))) true,
              g')
  else Done (None, ctx0, g).

(** [aead_decrypt ciphertext cipher_ctx]: status, the caller's buffer (left as
    it was unless the status is [CRYPTO_OK]), the context and the salt
    filter. *)
Definition aead_decrypt (g : sbf) (ciphertext : bytes) (cipher_ctx : cipher_ctx_t)
  : outcome (crypto_status * bytes * cipher_ctx_t * sbf) :=
  let ctx0 := set_chunk cipher_ctx (Some (chunk_data cipher_ctx ++ ciphertext)) in
  '(early, ctx1, g1) <- aead_decrypt_salt g ctx0 ;;
  match early with
  | Some err => Done (err, ciphertext, ctx1, g1)
  | None =>
      '(err, plaintext, ctx2) <-
        aead_decrypt_loop (S (List.length (chunk_data ctx1))) ctx1 [] ;;
      match err with
      | CRYPTO_OK => Done (CRYPTO_OK, plaintext, ctx2, g1)
      | _ => Done (err, ciphertext, ctx2, g1)
      end
  end.

End Codec.

Unset Implicit Arguments.

(** ** Sessions

    A TCP session as its callers run it: the sender calls [aead_encrypt] once
    per plaintext and writes the buffers it gets back to the socket, the
    receiver calls [aead_decrypt] once per segment read from the socket and
    forwards the buffers returned with [CRYPTO_OK]; it closes the connection
    on [CRYPTO_ERROR]. *)

Section Sessions.

Context {E : Externals}.

(** Each call is a plaintext and the content of the sender's scratch buffer
    at that call.  [Some] is the bytes on the wire when every call returned
    [CRYPTO_OK]. *)
Fixpoint tcp_send (ctx : cipher_ctx_t) (calls : list (bytes * bytes))
  : outcome (option (bytes * cipher_ctx_t)) :=
  match calls with
  | [] => Done (Some ([], ctx))
  | (p, tmp) :: rest =>
      '(err, out, ctx1) <- aead_encrypt p (Some ctx) tmp ;;
      match err, ctx1 with
      | CRYPTO_OK, Some ctx1' =>
          r <- tcp_send ctx1' rest ;;
          match r with
          | Some (wire, ctx2) => Done (Some (out ++ wire, ctx2))
          | None => Done None
          end
      | _, _ => Done None
      end
  end.

(** The status and the buffer of every [aead_decrypt] call, up to and
    including the first [CRYPTO_ERROR]. *)
Fixpoint tcp_recv (g : sbf) (ctx : cipher_ctx_t) (segs : list bytes)
  : outcome (list (crypto_status * bytes) * cipher_ctx_t * sbf) :=
  match segs with
  | [] => Done ([], ctx, g)
  | s :: rest =>
      '(err, out, ctx1, g1) <- aead_decrypt g s ctx ;;
      match err with
      | CRYPTO_ERROR => Done ([(err, out)], ctx1, g1)
      | _ =>
          '(rs, ctx2, g2) <- tcp_recv g1 ctx1 rest ;;
          Done ((err, out) :: rs, ctx2, g2)
      end
  end.

Definition delivered (rs : list (crypto_status * bytes)) : bytes :=
  List.concat (map (fun r => match fst r with CRYPTO_OK => snd r | _ => [] end) rs).

(** What a sender put on the wire, by length, and what a receiver answered
    and delivered. *)
Definition sent_length (o : outcome (option (bytes * cipher_ctx_t))) : option Z :=
  match o with
  | Done (Some (w, _)) => Some (blen w)
  | _ => None
  end.

Definition summary (o : outcome (list (crypto_status * bytes) * cipher_ctx_t * sbf))
  : option (list crypto_status * bytes) :=
  match o with
  | Done (rs, _, _) => Some (map fst rs, delivered rs)
  | _ => None
  end.

Definition no_error (rs : list (crypto_status * bytes)) : Prop :=
  Forall (fun r => fst r = CRYPTO_OK \/ fst r = CRYPTO_NEED_MORE) rs.

(** A cipher as [aead_key_init] builds it. *)
Definition cipher_wf (c : cipher_t) : Prop :=
  0 <= method c < AEAD_CIPHER_NUM /\
  key_len c = table supported_aead_ciphers_key_size 0 (method c) /\
  nonce_len c = table supported_aead_ciphers_nonce_size 0 (method c) /\
  tag_len c = table supported_aead_ciphers_tag_size 0 (method c).

(** The mbed TLS context of a GCM session is set up for the session's cipher;
    the ChaCha family has none. *)
Definition evp_ready (c : cipher_t) (e : option cipher_evp_t) : Prop :=
  if method c >=? CHACHA20POLY1305 then e = None
  else exists e', e = Some e' /\ evp_method e' = method c /\
                  key_bitlen (evp_info e') = key_len c * 8.

(** The key and the nonce the primitive of the session gets for one call. *)
Definition session_key (c : cipher_t) (k : bytes) : bytes := take (key_len c) k.
Definition session_nonce (c : cipher_t) (n : bytes) : bytes := take (nonce_len c) n.

(** The mbed TLS context after [mbedtls_cipher_setkey] with [k]. *)
Definition evp_keyed (c : cipher_t) (k : bytes) (e : option cipher_evp_t) : Prop :=
  if method c >=? CHACHA20POLY1305 then e = None
  else exists e', e = Some e' /\ evp_method e' = method c /\
                  key_bitlen (evp_info e') = key_len c * 8 /\
                  evp_key e' = Some (session_key c k).

(** [frames c k n ps w n']: [w] is the chunks of the plaintexts [ps], none of
    them empty or above [CHUNK_SIZE_MASK], sealed under the key [k] with the
    nonces from [n] on, two per chunk, and [n'] is the next nonce. *)
Inductive frames (c : cipher_t) (k : bytes) : bytes -> list bytes -> bytes -> bytes -> Prop :=
| frames_nil (n : bytes) : frames c k n [] [] n
| frames_cons (n : bytes) (p : bytes) (ps : list bytes) (c1 c2 w n' : bytes) :
    0 < blen p <= CHUNK_SIZE_MASK ->
    aead_seal (method c) (session_key c k) (session_nonce c n) (htons (blen p)) = Some c1 ->
    aead_seal (method c) (session_key c k)
              (session_nonce c (sodium_increment n (nonce_len c))) p = Some c2 ->
    frames c k (sodium_increment (sodium_increment n (nonce_len c)) (nonce_len c)) ps w n' ->
    frames c k n (p :: ps) (c1 ++ c2 ++ w) n'.

(** [popped_to ctx acc ctx' acc']: from the context [ctx] with [acc] in the
    scratch buffer, the chunk loop pops zero or more chunks and stands at
    [ctx'] with [acc']. *)
Inductive popped_to : cipher_ctx_t -> bytes -> cipher_ctx_t -> bytes -> Prop :=
| popped_none (ctx : cipher_ctx_t) (acc : bytes) : popped_to ctx acc ctx acc
| popped_step (ctx : cipher_ctx_t) (acc p cb' n' : bytes) (ctx2 : cipher_ctx_t) (acc2 : bytes) :
    0 < blen (chunk_data ctx) ->
    aead_chunk_decrypt ctx (chunk_data ctx) (nonce ctx) = Done (CRYPTO_OK, p, cb', n') ->
    popped_to (set_chunk (set_nonce ctx n') (Some cb')) (acc ++ p) ctx2 acc2 ->
    popped_to ctx acc ctx2 acc2.

Definition nonempty (p : bytes) : bool := negb (blen p =? 0).

(** A context past its first frame (sender) or past the salt (receiver):
    [init] is set, the subkey is [sk] and the primitive context is keyed
    with it. *)
Definition established (c : cipher_t) (sk : bytes) (ctx : cipher_ctx_t) : Prop :=
  init ctx = true /\ cipher ctx = c /\ subkey ctx = sk /\ evp_keyed c sk (evp ctx).

(** A context before that point. *)
Definition awaiting (c : cipher_t) (ctx : cipher_ctx_t) : Prop :=
  init ctx = false /\ cipher ctx = c /\ evp_ready c (evp ctx).

(** The reassembly buffer holds no complete chunk of the plaintexts still to
    come. *)
Definition quiescent (c : cipher_t) (ps : list bytes) (ctx : cipher_ctx_t) : Prop :=
  match ps with
  | [] => True
  | p :: _ => blen (chunk_data ctx) < 2 * tag_len c + CHUNK_SIZE_LEN + blen p
  end.

(** The subkey of a session with salt [s]. *)
Definition session_subkey (c : cipher_t) (s : bytes) : option bytes :=
  crypto_generichash_blake2b_salt_personal (key_len c) (take (key_len c) (key c))
    (take crypto_generichash_blake2b_SALTBYTES s) SUBKEY_APPID.

(** The guard lets the salt through: the client build, or a salt the filter
    does not report as present. *)
Definition salt_admitted (g : sbf) (s : bytes) : Prop :=
  MODULE_REMOTE = false \/ fs_sbf_check g s <> 1.

End Sessions.

(** ** What the record layer expects of its collaborators

    Sealing succeeds and appends a 16-byte tag, opening inverts sealing under
    the same key and nonce, the two BLAKE2b calls succeed for the output
    lengths of the catalog, and mbed TLS knows the three GCM ciphers with the
    key lengths of the catalog. *)
Class ExternalsOk (E : Externals) : Prop := {
  seal_ok : forall m k n msg, 0 <= m < AEAD_CIPHER_NUM ->
    exists c, aead_seal m k n msg = Some c /\ blen c = blen msg + 16;
  open_seal : forall m k n msg c, 0 <= m < AEAD_CIPHER_NUM ->
    aead_seal m k n msg = Some c -> aead_open m k n c = Some msg;
  generichash_ok : forall outlen pass, 16 <= outlen <= 64 ->
    exists k, crypto_generichash outlen pass = Some k;
  salt_personal_ok : forall outlen k s, 16 <= outlen <= 64 ->
    exists sk, crypto_generichash_blake2b_salt_personal outlen k s SUBKEY_APPID = Some sk;
  cipher_info_ok : forall m, 0 <= m < CHACHA20POLY1305 ->
    exists ci,
      mbedtls_cipher_info_from_string (table supported_aead_ciphers_mbedtls CIPHER_UNSUPPORTED m)
        = Some ci /\
      key_bitlen ci = table supported_aead_ciphers_key_size 0 m * 8
}.

(** ** A small instance of the collaborators

    A shift cipher with a 16-byte checksum tag over method, key, nonce and
    message, checksum hashes, and a list for the salt filter, in the server
    build.  It has the properties of [ExternalsOk] and runs inside Rocq, so
    the codec can be evaluated on concrete streams. *)
Module Toy.

Fixpoint bytes_eqb (a b : bytes) : bool :=
  match a, b with
  | [], [] => true
  | x :: a', y :: b' => Byte.eqb x y && bytes_eqb a' b'
  | _, _ => false
  end.

Definition checksum (b : bytes) : Z :=
  fold_right (fun x acc => (byte_val x + 31 * acc + 7) mod 256) 1 b.

Definition tag (m : Z) (k n msg : bytes) : bytes :=
  map (fun i => byte_of (checksum (k ++ n ++ msg) + m + 17 * i))
      [0; 1; 2; 3; 4; 5; 6; 7; 8; 9; 10; 11; 12; 13; 14; 15].

Definition shift (k n : bytes) : Z := checksum (n ++ k).

Definition seal (m : Z) (k n msg : bytes) : option bytes :=
  Some (map (fun b => byte_of (byte_val b + shift k n)) msg ++ tag m k n msg).

Definition open (m : Z) (k n c : bytes) : option bytes :=
  if blen c <? 16 then None
  else
    let msg := map (fun b => byte_of (byte_val b - shift k n)) (take (blen c - 16) c) in
    if bytes_eqb (drop (blen c - 16) c) (tag m k n msg) then Some msg else None.

Definition generichash (outlen : Z) (pass : string) : option bytes :=
  Some (map (fun i => byte_of (checksum (list_byte_of_string pass) + Z.of_nat i))
            (seq 0 (Z.to_nat outlen))).

Definition salt_personal (outlen : Z) (k s : bytes) (personal : string) : option bytes :=
  Some (map (fun i => byte_of (checksum (k ++ s ++ list_byte_of_string personal) + 3 * Z.of_nat i))
            (seq 0 (Z.to_nat outlen))).

Definition cipher_info (name : string) : option cipher_kt_t :=
  if String.eqb name "AES-128-GCM" then Some {| key_bitlen := 128; iv_size := 12 |}
  else if String.eqb name "AES-192-GCM" then Some {| key_bitlen := 192; iv_size := 12 |}
  else if String.eqb name "AES-256-GCM" then Some {| key_bitlen := 256; iv_size := 12 |}
  else None.

Definition filter_check (g : list bytes) (s : bytes) : Z :=
  if existsb (bytes_eqb s) g then 1 else 0.

Definition filter_add (g : list bytes) (s : bytes) : list bytes * Z := (s :: g, 0).

#[export] Instance externals : Externals := {|
  MODULE_REMOTE := true;
  aead_seal := seal;
  aead_open := open;
  crypto_generichash := generichash;
  crypto_generichash_blake2b_salt_personal := salt_personal;
  mbedtls_cipher_info_from_string := cipher_info;
  sbf := list bytes;
  fs_sbf_check := filter_check;
  fs_sbf_add := filter_add
|}.

(** Sample sessions. *)

Definition pass : string := "hello".

Definition salt32 : bytes := map (fun i => byte_of (7 * Z.of_nat i + 3)) (seq 0 32).

Definition salt_of (c : cipher_t) : bytes := take (key_len c) salt32.

Definition no_cipher : cipher_t :=
  {| method := NONE; info := None; key := []; key_len := 0; nonce_len := 0; tag_len := 0 |}.

Definition cipher_of (m : Z) : cipher_t :=
  match aead_key_init m pass with
  | Done (Some c) => c
  | _ => no_cipher
  end.

Definition no_ctx : cipher_ctx_t :=
  {| init := false; cipher := no_cipher; evp := None; salt := []; subkey := [];
     nonce := []; chunk := None |}.

Definition sender_of (m : Z) : cipher_ctx_t :=
  match aead_ctx_init (cipher_of m) true (salt_of (cipher_of m)) with
  | Done ctx => ctx
  | _ => no_ctx
  end.

Definition receiver_of (m : Z) : cipher_ctx_t :=
  match aead_ctx_init (cipher_of m) false [] with
  | Done ctx => ctx
  | _ => no_ctx
  end.

Definition wire_of (m : Z) (calls : list (bytes * bytes)) : bytes :=
  match tcp_send (sender_of m) calls with
  | Done (Some (w, _)) => w
  | _ => []
  end.

Definition datagram_of (m : Z) (P : bytes) : bytes :=
  match aead_encrypt_all P (cipher_of m) (salt_of (cipher_of m)) with
  | Done (_, ct) => ct
  | _ => []
  end.

(** A receiver past the salt, and a chunk of one byte followed by a sealed
    length field of zero. *)
Definition rx : cipher_ctx_t :=
  {| init := true; cipher := cipher_of CHACHA20POLY1305IETF; evp := None;
     salt := salt32; subkey := salt32; nonce := zeros 12; chunk := Some [] |}.

Definition forged : bytes :=
  match tcp_send rx [(["A"%byte], [])] with
  | Done (Some (w, tx)) =>
      match aead_cipher_encrypt tx (htons 0) (nonce tx) (subkey tx) with
      | Some c => w ++ c ++ zeros 17
      | None => []
      end
  | _ => []
  end.

(** A plaintext of 65537 bytes, and a scratch buffer of zero bytes. *)
Definition oversize : bytes := repeat "A"%byte (Z.to_nat 65537).
Definition blank : bytes := zeros 70000.

(** What [rx], used as a sender, emits for the calls, and a plaintext of
    0x4000 bytes. *)
Definition chunks_of (calls : list (bytes * bytes)) : bytes :=
  match tcp_send rx calls with
  | Done (Some (w, _)) => w
  | _ => []
  end.


End Toy.

(** * Properties *)

(** ** Bytes *)

Lemma byte_val_range (b : byte) : 0 <= byte_val b < 256.
Proof.
  unfold byte_val. pose proof (Byte.to_N_bounded b). lia.
Qed.

Lemma byte_val_of (z : Z) : byte_val (byte_of z) = z mod 256.
Proof.
  unfold byte_val, byte_of.
  assert (Hr : 0 <= z mod 256 < 256) by (apply Z.mod_pos_bound; lia).
  destruct (Byte.of_N (Z.to_N (z mod 256))) as [b|] eqn:Hb.
  - apply Byte.to_of_N in Hb. rewrite Hb. lia.
  - apply Byte.of_N_None_iff in Hb. lia.
Qed.

Lemma byte_of_val (b : byte) : byte_of (byte_val b) = b.
Proof.
  pose proof (byte_val_range b) as Hr.
  unfold byte_of. rewrite Z.mod_small by lia.
  unfold byte_val. rewrite N2Z.id, Byte.of_to_N. reflexivity.
Qed.

Lemma byte_of_mod (z : Z) : byte_of (z mod 256) = byte_of z.
Proof.
  unfold byte_of. rewrite Z.mod_mod by lia. reflexivity.
Qed.

Lemma ntohs_htons (v : Z) : 0 <= v < 65536 -> ntohs (htons v) = v.
Proof.
  intros Hv. unfold ntohs, htons. rewrite !byte_val_of.
  rewrite (Z.mod_small (v / 256)).
  - pose proof (Z.div_mod v 256). lia.
  - split; [apply Z.div_pos; lia | apply Z.div_lt_upper_bound; lia].
Qed.

Lemma blen_nonneg (b : bytes) : 0 <= blen b.
Proof. unfold blen. lia. Qed.

Lemma blen_app (a b : bytes) : blen (a ++ b) = blen a + blen b.
Proof. unfold blen. rewrite length_app. lia. Qed.

Lemma blen_nil_iff (b : bytes) : blen b = 0 <-> b = [].
Proof.
  unfold blen. split.
  - destruct b; [reflexivity | simpl; lia].
  - intros ->. reflexivity.
Qed.

Lemma take_app_exact (a b : bytes) : take (blen a) (a ++ b) = a.
Proof.
  unfold take, blen. rewrite Nat2Z.id.
  rewrite firstn_app, Nat.sub_diag, firstn_all. simpl. apply app_nil_r.
Qed.

Lemma drop_app_exact (a b : bytes) : drop (blen a) (a ++ b) = b.
Proof.
  unfold drop, blen. rewrite Nat2Z.id.
  rewrite skipn_app, Nat.sub_diag, skipn_all. reflexivity.
Qed.

Lemma take_all (n : Z) (a : bytes) : blen a <= n -> take n a = a.
Proof.
  unfold take, blen. intros H. apply firstn_all2. lia.
Qed.

Lemma blen_drop (n : Z) (a : bytes) : 0 <= n <= blen a -> blen (drop n a) = blen a - n.
Proof.
  unfold drop, blen. intros H. rewrite length_skipn. lia.
Qed.

Lemma scratch_exact (w tmp : bytes) : scratch w tmp (blen w) = w.
Proof. unfold scratch. apply take_app_exact. Qed.

(** ** The small instance meets the expectations *)

Lemma bytes_eqb_refl (a : bytes) : Toy.bytes_eqb a a = true.
Proof.
  induction a as [|x a IH]; simpl; [reflexivity|].
  rewrite (Byte.byte_dec_lb (eq_refl x)), IH. reflexivity.
Qed.

Lemma toy_unshift_shift (s : Z) (msg : bytes) :
  map (fun b => byte_of (byte_val b - s)) (map (fun b => byte_of (byte_val b + s)) msg) = msg.
Proof.
  induction msg as [|x msg IH]; simpl; [reflexivity|].
  rewrite IH. f_equal.
  rewrite byte_val_of, <- byte_of_mod, Zminus_mod_idemp_l, byte_of_mod.
  replace (byte_val x + s - s) with (byte_val x) by lia.
  apply byte_of_val.
Qed.

Lemma toy_tag_length (m : Z) (k n msg : bytes) : blen (Toy.tag m k n msg) = 16.
Proof. reflexivity. Qed.

Lemma toy_seal_length (m : Z) (k n msg c : bytes) :
  Toy.seal m k n msg = Some c -> blen c = blen msg + 16.
Proof.
  unfold Toy.seal. intros [= <-].
  rewrite blen_app, toy_tag_length. unfold blen. rewrite length_map. reflexivity.
Qed.

Lemma toy_open_seal (m : Z) (k n msg c : bytes) :
  Toy.seal m k n msg = Some c -> Toy.open m k n c = Some msg.
Proof.
  intros Hs. pose proof (toy_seal_length _ _ _ _ _ Hs) as Hl.
  unfold Toy.seal in Hs. injection Hs as <-.
  set (body := map (fun b => byte_of (byte_val b + Toy.shift k n)) msg) in *.
  assert (Hb : blen body = blen msg) by (unfold body, blen; rewrite length_map; reflexivity).
  unfold Toy.open.
  pose proof (blen_nonneg msg).
  destruct (Z.ltb_spec (blen (body ++ Toy.tag m k n msg)) 16) as [Hlt|_]; [lia|].
  replace (blen (body ++ Toy.tag m k n msg) - 16) with (blen body) by lia.
  rewrite take_app_exact, drop_app_exact.
  unfold body. rewrite toy_unshift_shift, bytes_eqb_refl. reflexivity.
Qed.

Lemma toy_cipher_info (m : Z) : 0 <= m < CHACHA20POLY1305 ->
  exists ci,
    Toy.cipher_info (table supported_aead_ciphers_mbedtls CIPHER_UNSUPPORTED m) = Some ci /\
    key_bitlen ci = table supported_aead_ciphers_key_size 0 m * 8.
Proof.
  unfold CHACHA20POLY1305. intros Hm.
  assert (Hc : m = 0 \/ m = 1 \/ m = 2) by lia.
  destruct Hc as [-> | [-> | ->]]; eexists; split; reflexivity.
Qed.

Lemma toy_ok : ExternalsOk Toy.externals.
Proof.
  constructor; simpl.
  - intros m k n msg _. eexists. split; [reflexivity|].
    eapply toy_seal_length. reflexivity.
  - intros m k n msg c _. apply toy_open_seal.
  - intros outlen pass _. eexists. reflexivity.
  - intros outlen k s _. eexists. reflexivity.
  - apply toy_cipher_info.
Qed.

(** ** Cipher catalog and key setup *)

Section KeySetup.

Context {E : Externals}.

Lemma aead_init_scan_range (name : string) (names : list string) (m : Z) :
  m <= aead_init_scan name m names <= m + Z.of_nat (List.length names).
Proof.
  revert m. induction names as [|n rest IH]; intros m; cbn [aead_init_scan List.length].
  - lia.
  - destruct (String.eqb name n); [lia|].
    specialize (IH (m + 1)). lia.
Qed.

Lemma aead_init_scan_found (name : string) (names : list string) (m : Z) :
  In name names ->
  nth_error names (Z.to_nat (aead_init_scan name m names - m)) = Some name.
Proof.
  revert m. induction names as [|n rest IH]; intros m Hin; cbn [aead_init_scan In] in *.
  - contradiction.
  - destruct (String.eqb_spec name n) as [->|Hne].
    + rewrite Z.sub_diag. reflexivity.
    + destruct Hin as [Heq|Hin]; [congruence|].
      pose proof (aead_init_scan_range name rest (m + 1)) as Hr.
      replace (Z.to_nat (aead_init_scan name (m + 1) rest - m))
        with (S (Z.to_nat (aead_init_scan name (m + 1) rest - (m + 1)))) by lia.
      cbn [nth_error]. apply IH. exact Hin.
Qed.

Lemma aead_init_scan_missing (name : string) (names : list string) (m : Z) :
  ~ In name names ->
  aead_init_scan name m names = m + Z.of_nat (List.length names).
Proof.
  revert m. induction names as [|n rest IH]; intros m Hnin;
    cbn [aead_init_scan In List.length] in *.
  - lia.
  - destruct (String.eqb_spec name n) as [->|Hne].
    + exfalso. apply Hnin. left. reflexivity.
    + rewrite IH by tauto. lia.
Qed.

Lemma aead_init_scan_hit (name : string) (names : list string) (m : Z) :
  In name names ->
  aead_init_scan name m names < m + Z.of_nat (List.length names).
Proof.
  revert m. induction names as [|n rest IH]; intros m Hin;
    cbn [aead_init_scan In List.length] in *.
  - contradiction.
  - destruct (String.eqb_spec name n) as [->|Hne]; [lia|].
    destruct Hin as [Heq|Hin]; [congruence|].
    specialize (IH (m + 1) Hin). lia.
Qed.

Lemma supported_count : Z.of_nat (List.length supported_aead_ciphers) = 6.
Proof. reflexivity. Qed.

(** C10. With a NULL method name [aead_init] hands method id 0,
    "aes-128-gcm", to [aead_key_init], and the cipher it returns is the
    AES-128-GCM one, not AES-256-GCM.  A name of the table selects its own
    index.  The fall-back to AES-256-GCM is taken exactly by the non-NULL
    names that match none of the six table entries. *)
Theorem aead_init_null_method_is_aes128 :
  aead_init_method None = AES128GCM /\
  AES128GCM = 0 /\
  nth_error supported_aead_ciphers (Z.to_nat (aead_init_method None)) = Some "aes-128-gcm"%string /\
  aead_init_method None <> AES256GCM /\
  (forall pass, aead_init pass None = aead_key_init AES128GCM pass) /\
  (forall pass c, aead_init pass None = Done (Some c) ->
     method c = AES128GCM /\ key_len c = 16 /\ nonce_len c = 12 /\ tag_len c = 16) /\
  (forall name, In name supported_aead_ciphers ->
     nth_error supported_aead_ciphers (Z.to_nat (aead_init_method (Some name))) = Some name) /\
  (forall name, ~ In name supported_aead_ciphers <->
     aead_init_scan name AES128GCM supported_aead_ciphers >= AEAD_CIPHER_NUM) /\
  (forall name, ~ In name supported_aead_ciphers ->
     aead_init_method (Some name) = AES256GCM /\
     forall pass, aead_init pass (Some name) = aead_key_init AES256GCM pass).
Proof.
  repeat split.
  - discriminate.
  - revert H. unfold aead_init, aead_init_method, aead_key_init. simpl.
    unfold aead_derive_key.
    destruct (aead_get_cipher_type AES128GCM); simpl; [|discriminate].
    destruct (crypto_generichash _ _); simpl; [|discriminate].
    intros [= <-]. reflexivity.
  - revert H. unfold aead_init, aead_init_method, aead_key_init. simpl.
    unfold aead_derive_key.
    destruct (aead_get_cipher_type AES128GCM); simpl; [|discriminate].
    destruct (crypto_generichash _ _); simpl; [|discriminate].
    intros [= <-]. reflexivity.
  - revert H. unfold aead_init, aead_init_method, aead_key_init. simpl.
    unfold aead_derive_key.
    destruct (aead_get_cipher_type AES128GCM); simpl; [|discriminate].
    destruct (crypto_generichash _ _); simpl; [|discriminate].
    intros [= <-]. reflexivity.
  - revert H. unfold aead_init, aead_init_method, aead_key_init. simpl.
    unfold aead_derive_key.
    destruct (aead_get_cipher_type AES128GCM); simpl; [|discriminate].
    destruct (crypto_generichash _ _); simpl; [|discriminate].
    intros [= <-]. reflexivity.
  - intros name Hin. unfold aead_init_method.
    pose proof (aead_init_scan_hit name supported_aead_ciphers AES128GCM Hin) as Hlt.
    pose proof (aead_init_scan_found name supported_aead_ciphers AES128GCM Hin) as Hf.
    destruct (Z.geb_spec (aead_init_scan name AES128GCM supported_aead_ciphers) AEAD_CIPHER_NUM)
      as [Hge|_].
    + rewrite supported_count in Hlt. unfold AEAD_CIPHER_NUM, AES128GCM in *. lia.
    + unfold AES128GCM in Hf. rewrite Z.sub_0_r in Hf. exact Hf.
  - intros Hnin. rewrite (aead_init_scan_missing _ _ _ Hnin), supported_count.
    unfold AES128GCM, AEAD_CIPHER_NUM. lia.
  - intros Hge Hin.
    pose proof (aead_init_scan_hit name supported_aead_ciphers AES128GCM Hin) as Hlt.
    rewrite supported_count in Hlt. unfold AES128GCM, AEAD_CIPHER_NUM in *. lia.
  - unfold aead_init_method. rewrite (aead_init_scan_missing _ _ _ H). reflexivity.
  - intros pass. unfold aead_init, aead_init_method.
    rewrite (aead_init_scan_missing _ _ _ H). reflexivity.
Qed.

End KeySetup.

(** ** Session setup *)

Section Setup.

Context {E : Externals} {EOk : ExternalsOk E}.

Lemma method_cases (m : Z) : 0 <= m < AEAD_CIPHER_NUM ->
  m = AES128GCM \/ m = AES192GCM \/ m = AES256GCM \/
  m = CHACHA20POLY1305 \/ m = CHACHA20POLY1305IETF \/ m = XCHACHA20POLY1305IETF.
Proof.
  unfold AEAD_CIPHER_NUM, AES128GCM, AES192GCM, AES256GCM, CHACHA20POLY1305,
    CHACHA20POLY1305IETF, XCHACHA20POLY1305IETF. lia.
Qed.

Ltac by_method H :=
  destruct (method_cases _ H) as [?Hm|[?Hm|[?Hm|[?Hm|[?Hm|?Hm]]]]].

Lemma key_size_range (m : Z) : 0 <= m < AEAD_CIPHER_NUM ->
  16 <= table supported_aead_ciphers_key_size 0 m <= 32.
Proof.
  intros H. by_method H; subst m; cbv; split; discriminate.
Qed.

Lemma cipher_wf_lengths (c : cipher_t) : cipher_wf c ->
  16 <= key_len c <= 32 /\ 8 <= nonce_len c <= 24 /\ tag_len c = 16.
Proof.
  intros (Hm & Hk & Hn & Ht). rewrite Hk, Hn, Ht.
  by_method Hm; rewrite Hm0; cbv; intuition discriminate.
Qed.

Lemma aead_key_init_wf (m : Z) (pass : string) (c : cipher_t) :
  aead_key_init m pass = Done (Some c) -> cipher_wf c /\ method c = m.
Proof.
  unfold aead_key_init, aead_derive_key.
  destruct (illegal_method m) eqn:Hill; [discriminate|].
  assert (Hm : 0 <= m < AEAD_CIPHER_NUM).
  { unfold illegal_method, AES128GCM, AEAD_CIPHER_NUM in *.
    apply orb_false_iff in Hill. lia. }
  match goal with |- context [bind ?o _] => destruct o end; cbn [bind]; try discriminate.
  destruct (crypto_generichash _ pass); cbn [bind]; try discriminate.
  pose proof (key_size_range m Hm) as Hr.
  destruct (Z.eqb_spec (table supported_aead_ciphers_key_size 0 m) 0) as [H0|_]; [lia|].
  cbn [bind]. intros [= <-]. unfold cipher_wf. cbn. auto.
Qed.

Lemma aead_key_init_ok (m : Z) (pass : string) : 0 <= m < AEAD_CIPHER_NUM ->
  exists c, aead_key_init m pass = Done (Some c).
Proof.
  intros Hm. unfold aead_key_init, aead_derive_key.
  assert (Hill : illegal_method m = false).
  { unfold illegal_method, AES128GCM, AEAD_CIPHER_NUM in *.
    apply orb_false_iff. lia. }
  rewrite Hill.
  pose proof (key_size_range m Hm) as Hr.
  destruct (generichash_ok (table supported_aead_ciphers_key_size 0 m) pass) as [k Hk]; [lia|].
  assert (Hinfo : exists ci,
    (if m >=? CHACHA20POLY1305
     then Some {| key_bitlen := table supported_aead_ciphers_key_size 0 m * 8;
                  iv_size := table supported_aead_ciphers_nonce_size 0 m |}
     else aead_get_cipher_type m) = Some ci).
  { destruct (Z.geb_spec m CHACHA20POLY1305) as [Hge|Hlt]; [eexists; reflexivity|].
    unfold aead_get_cipher_type. rewrite Hill.
    destruct (Z.geb_spec m CHACHA20POLY1305) as [Hge|_]; [lia|].
    destruct (cipher_info_ok m) as (ci & Hci & _); [unfold AEAD_CIPHER_NUM in *; lia|].
    exists ci. rewrite <- Hci.
    assert (Hc : m = 0 \/ m = 1 \/ m = 2) by (unfold CHACHA20POLY1305 in *; lia).
    destruct Hc as [-> | [-> | ->]]; reflexivity. }
  destruct Hinfo as [ci ->]. cbn [bind]. rewrite Hk. cbn [bind].
  destruct (Z.eqb_spec (table supported_aead_ciphers_key_size 0 m) 0) as [H0|_]; [lia|].
  cbn [bind]. eexists. reflexivity.
Qed.

Lemma aead_ctx_init_ok (c : cipher_t) (enc : bool) (rnd : bytes) : cipher_wf c ->
  exists e, evp_ready c e /\
    aead_ctx_init c enc rnd =
      Done {| init := false; cipher := c; evp := e;
              salt := if enc then take (key_len c) rnd else zeros (key_len c);
              subkey := zeros (key_len c);
              nonce := zeros (nonce_len c);
              chunk := None |}.
Proof.
  intros Hwf. pose proof Hwf as (Hm & Hk & _).
  unfold aead_ctx_init, aead_cipher_ctx_init, evp_ready.
  assert (Hill : illegal_method (method c) = false).
  { unfold illegal_method, AES128GCM, AEAD_CIPHER_NUM in *.
    apply orb_false_iff. lia. }
  rewrite Hill.
  destruct (Z.geb_spec (method c) CHACHA20POLY1305) as [Hge|Hlt].
  - exists None. split; reflexivity.
  - destruct (cipher_info_ok (method c)) as (ci & Hci & Hbits); [lia|].
    unfold aead_get_cipher_type. rewrite Hill.
    destruct (Z.geb_spec (method c) CHACHA20POLY1305) as [Hge|_]; [lia|].
    assert (Hu : String.eqb (table supported_aead_ciphers_mbedtls CIPHER_UNSUPPORTED (method c))
                            CIPHER_UNSUPPORTED = false).
    { assert (Hc : method c = 0 \/ method c = 1 \/ method c = 2)
        by (unfold CHACHA20POLY1305 in *; lia).
      destruct Hc as [-> | [-> | ->]]; reflexivity. }
    rewrite Hu, Hci. cbn [bind].
    eexists. split; [|reflexivity].
    eexists. split; [reflexivity|]. cbn. rewrite Hk. auto.
Qed.

Lemma aead_cipher_ctx_set_subkey_ok (ctx : cipher_ctx_t) :
  cipher_wf (cipher ctx) -> evp_ready (cipher ctx) (evp ctx) ->
  exists sk e,
    crypto_generichash_blake2b_salt_personal (key_len (cipher ctx))
      (take (key_len (cipher ctx)) (key (cipher ctx)))
      (take crypto_generichash_blake2b_SALTBYTES (salt ctx)) SUBKEY_APPID = Some sk /\
    evp_keyed (cipher ctx) sk e /\
    aead_cipher_ctx_set_subkey ctx =
      Done {| init := init ctx; cipher := cipher ctx; evp := e; salt := salt ctx;
              subkey := sk; nonce := zeros (nonce_len (cipher ctx)); chunk := chunk ctx |}.
Proof.
  intros Hwf Hr. pose proof (cipher_wf_lengths _ Hwf) as (Hk & _).
  destruct (salt_personal_ok (key_len (cipher ctx))
              (take (key_len (cipher ctx)) (key (cipher ctx)))
              (take crypto_generichash_blake2b_SALTBYTES (salt ctx))) as [sk Hsk]; [lia|].
  unfold aead_cipher_ctx_set_subkey, evp_ready, evp_keyed in *. rewrite Hsk.
  destruct (method (cipher ctx) >=? CHACHA20POLY1305) eqn:Hge.
  - exists sk, None. repeat split.
    cbn. rewrite <- Hr. destruct ctx; reflexivity.
  - destruct Hr as (e' & He & Hm & Hb). cbn [evp set_nonce set_subkey subkey].
    rewrite He. unfold mbedtls_cipher_setkey. rewrite Hb, Z.eqb_refl.
    eexists sk, _. split; [reflexivity|]. split; [|reflexivity].
    eexists. split; [reflexivity|]. cbn.
    rewrite Z.div_mul by lia. auto.
Qed.

Lemma aead_cipher_ctx_udp_set_key_ok (ctx : cipher_ctx_t) :
  cipher_wf (cipher ctx) -> evp_ready (cipher ctx) (evp ctx) ->
  exists e,
    evp_keyed (cipher ctx) (key (cipher ctx)) e /\
    aead_cipher_ctx_udp_set_key ctx = Done (set_evp ctx e).
Proof.
  intros Hwf Hr. pose proof (cipher_wf_lengths _ Hwf) as (Hk & _).
  unfold aead_cipher_ctx_udp_set_key, evp_ready, evp_keyed in *.
  destruct (method (cipher ctx) >=? CHACHA20POLY1305) eqn:Hge.
  - exists None. split; [reflexivity|]. rewrite <- Hr. destruct ctx; reflexivity.
  - destruct Hr as (e' & He & Hm & Hb).
    rewrite He. unfold mbedtls_cipher_setkey. rewrite Hb, Z.eqb_refl.
    eexists. split; [|reflexivity].
    eexists. split; [reflexivity|]. cbn.
    rewrite Z.div_mul by lia. auto.
Qed.

(** With the context keyed, the adapter is the library primitive of the
    method applied to the session key and nonce. *)
Lemma aead_cipher_encrypt_keyed (ctx : cipher_ctx_t) (k m n : bytes) :
  cipher_wf (cipher ctx) -> evp_keyed (cipher ctx) k (evp ctx) ->
  aead_cipher_encrypt ctx m n k =
  aead_seal (method (cipher ctx)) (session_key (cipher ctx) k)
            (session_nonce (cipher ctx) n) m.
Proof.
  intros (Hm & Hk & Hn & _) He.
  unfold aead_cipher_encrypt, evp_keyed, session_key, session_nonce in *.
  rewrite Hk, Hn in *.
  by_method Hm; rewrite Hm0 in *; cbn in He |- *;
    try (destruct He as (e' & -> & He1 & _ & He2); cbn; rewrite He2, He1);
    reflexivity.
Qed.

Lemma aead_cipher_decrypt_keyed (ctx : cipher_ctx_t) (k m n : bytes) :
  cipher_wf (cipher ctx) -> evp_keyed (cipher ctx) k (evp ctx) ->
  aead_cipher_decrypt ctx m n k =
  aead_open (method (cipher ctx)) (session_key (cipher ctx) k)
            (session_nonce (cipher ctx) n) m.
Proof.
  intros (Hm & Hk & Hn & _) He.
  unfold aead_cipher_decrypt, evp_keyed, session_key, session_nonce in *.
  rewrite Hk, Hn in *.
  by_method Hm; rewrite Hm0 in *; cbn in He |- *;
    try (destruct He as (e' & -> & He1 & _ & He2); cbn; rewrite He2, He1);
    reflexivity.
Qed.

End Setup.

(** ** UDP one-shot codec *)

Section Udp.

Context {E : Externals} {EOk : ExternalsOk E}.

Lemma blen_zeros (n : Z) : 0 <= n -> blen (zeros n) = n.
Proof.
  intros H. unfold blen, zeros. rewrite repeat_length. lia.
Qed.

Lemma session_nonce_zeros (c : cipher_t) : cipher_wf c ->
  session_nonce c (zeros (nonce_len c)) = zeros (nonce_len c).
Proof.
  intros Hwf. destruct (cipher_wf_lengths c Hwf) as (_ & Hn & _).
  unfold session_nonce. apply take_all. rewrite blen_zeros; lia.
Qed.

Lemma salt_admitted_test (g : sbf) (s : bytes) : salt_admitted g s ->
  MODULE_REMOTE && (fs_sbf_check g s =? 1) = false.
Proof.
  intros [H|H]; [rewrite H; reflexivity|].
  apply andb_false_iff. right. apply Z.eqb_neq. exact H.
Qed.

Lemma aead_encrypt_all_sealed (c : cipher_t) (rnd P : bytes) :
  cipher_wf c -> blen rnd = key_len c ->
  exists ct,
    aead_seal (method c) (session_key c (key c)) (zeros (nonce_len c)) P = Some ct /\
    blen ct = blen P + 16 /\
    aead_encrypt_all P c rnd = Done (CRYPTO_OK, rnd ++ ct).
Proof.
  intros Hwf Hrnd. pose proof (cipher_wf_lengths c Hwf) as (Hk & Hn & Ht).
  destruct (seal_ok (method c) (session_key c (key c)) (zeros (nonce_len c)) P)
    as (ct & Hct & Hlen); [apply Hwf|].
  exists ct. split; [assumption|]. split; [assumption|].
  unfold aead_encrypt_all.
  destruct (aead_ctx_init_ok c true rnd Hwf) as (e & He & ->). cbn [bind].
  match goal with |- context [aead_cipher_ctx_udp_set_key ?x] => set (ctx := x) end.
  destruct (aead_cipher_ctx_udp_set_key_ok ctx Hwf He) as (e' & He' & ->). cbn [bind].
  rewrite aead_cipher_encrypt_keyed by (cbn; assumption).
  cbn [cipher set_evp ctx nonce salt].
  rewrite session_nonce_zeros by assumption. rewrite Hct.
  rewrite Ht, Hlen. replace (16 + blen P =? blen P + 16) with true by (symmetry; apply Z.eqb_eq; lia).
  cbn [assert bind].
  rewrite (take_all (key_len c) rnd) by lia.
  rewrite (take_all (key_len c) rnd) by lia. reflexivity.
Qed.

Lemma aead_decrypt_all_short (g : sbf) (ct : bytes) (c : cipher_t) (tmp : bytes) :
  blen ct <= key_len c + tag_len c ->
  aead_decrypt_all g ct c tmp = Done (CRYPTO_ERROR, ct, g).
Proof.
  intros H. unfold aead_decrypt_all.
  destruct (Z.leb_spec (blen ct) (key_len c + tag_len c)); [reflexivity|lia].
Qed.

Lemma aead_decrypt_all_opened (g : sbf) (ct : bytes) (c : cipher_t) (tmp : bytes) :
  cipher_wf c -> key_len c + tag_len c < blen ct ->
  salt_admitted g (take (key_len c) ct) ->
  aead_decrypt_all g ct c tmp =
  match aead_open (method c) (session_key c (key c)) (zeros (nonce_len c))
                  (drop (key_len c) ct) with
  | Some p =>
      Done (CRYPTO_OK, scratch p tmp (blen ct - key_len c - tag_len c),
            if MODULE_REMOTE then fst (fs_sbf_add g (take (key_len c) ct)) else g)
  | None => Done (CRYPTO_ERROR, ct, g)
  end.
Proof.
  intros Hwf Hlen Hg. unfold aead_decrypt_all.
  destruct (Z.leb_spec (blen ct) (key_len c + tag_len c)); [lia|].
  destruct (aead_ctx_init_ok c false [] Hwf) as (e & He & ->). cbn [bind].
  cbn [set_salt salt]. rewrite (salt_admitted_test _ _ Hg).
  match goal with |- context [aead_cipher_ctx_udp_set_key ?x] => set (ctx := x) end.
  destruct (aead_cipher_ctx_udp_set_key_ok ctx Hwf He) as (e' & He' & ->). cbn [bind].
  rewrite aead_cipher_decrypt_keyed by (cbn; assumption).
  cbn [cipher set_evp ctx nonce salt].
  rewrite session_nonce_zeros by assumption. reflexivity.
Qed.

(** C6. For every supported method, every password and every plaintext [P],
    [aead_encrypt_all] returns [CRYPTO_OK] and replaces the buffer with the
    salt followed by the AEAD ciphertext and tag of [P] under the master key,
    key_len + len(P) + tag_len bytes in all; the nonce given to the primitive
    is the block of nonce_len zero bytes. *)
Theorem aead_encrypt_all_layout (m : Z) (pass : string) :
  0 <= m < AEAD_CIPHER_NUM ->
  exists c,
    aead_key_init m pass = Done (Some c) /\
    forall rnd P : bytes,
      blen rnd = key_len c ->
      exists ct,
        aead_seal (method c) (session_key c (key c)) (zeros (nonce_len c)) P = Some ct /\
        aead_encrypt_all P c rnd = Done (CRYPTO_OK, rnd ++ ct) /\
        blen ct = blen P + tag_len c /\
        blen (rnd ++ ct) = key_len c + blen P + tag_len c /\
        blen (zeros (nonce_len c)) = nonce_len c /\
        Forall (fun b => b = x00) (zeros (nonce_len c)).
Proof.
  intros Hm. destruct (aead_key_init_ok m pass Hm) as (c & Hki).
  exists c. split; [exact Hki|]. intros rnd P Hrnd.
  destruct (aead_key_init_wf _ _ _ Hki) as (Hwf & _).
  pose proof (cipher_wf_lengths c Hwf) as (Hk & Hn & Ht).
  destruct (aead_encrypt_all_sealed c rnd P Hwf Hrnd) as (ct & Hs & Hl & Hr).
  exists ct. repeat split; try assumption.
  - lia.
  - rewrite blen_app. lia.
  - apply blen_zeros. lia.
  - unfold zeros. apply Forall_forall. intros b Hb. eapply repeat_spec. exact Hb.
Qed.

(** C5, amended. [aead_decrypt_all] returns [CRYPTO_ERROR] with the buffer
    and the salt filter untouched whenever the input has at most
    key_len + tag_len bytes, whatever the primitive would say of it.  A
    longer input whose salt the guard admits is handed to the primitive:
    the result is [CRYPTO_OK] with the opened plaintext if the primitive
    authenticates the bytes after the salt under the zero nonce, and
    [CRYPTO_ERROR] if it does not. *)
Theorem aead_decrypt_all_length_gate :
  (forall (g : sbf) (ct : bytes) (c : cipher_t) (tmp : bytes),
     blen ct <= key_len c + tag_len c ->
     aead_decrypt_all g ct c tmp = Done (CRYPTO_ERROR, ct, g)) /\
  (forall (m : Z) (pass : string),
     0 <= m < AEAD_CIPHER_NUM ->
     exists c,
       aead_key_init m pass = Done (Some c) /\
       forall (g : sbf) (ct tmp : bytes),
         key_len c + tag_len c < blen ct ->
         salt_admitted g (take (key_len c) ct) ->
         aead_decrypt_all g ct c tmp =
         match aead_open (method c) (session_key c (key c)) (zeros (nonce_len c))
                         (drop (key_len c) ct) with
         | Some p =>
             Done (CRYPTO_OK, scratch p tmp (blen ct - key_len c - tag_len c),
                   if MODULE_REMOTE then fst (fs_sbf_add g (take (key_len c) ct)) else g)
         | None => Done (CRYPTO_ERROR, ct, g)
         end).
Proof.
  split.
  - apply aead_decrypt_all_short.
  - intros m pass Hm. destruct (aead_key_init_ok m pass Hm) as (c & Hki).
    exists c. split; [exact Hki|]. intros g ct tmp Hlen Hg.
    destruct (aead_key_init_wf _ _ _ Hki) as (Hwf & _).
    apply aead_decrypt_all_opened; assumption.
Qed.

(** C4, amended. For every supported method, every password and every
    non-empty plaintext [P], [aead_decrypt_all] applied to the output of
    [aead_encrypt_all] on [P] returns [CRYPTO_OK] and exactly [P], provided
    the guard admits the salt of the datagram (it always does in the client
    build); in the server build the salt is then added to the filter. *)
Theorem aead_all_round_trip (m : Z) (pass : string) :
  0 <= m < AEAD_CIPHER_NUM ->
  exists c,
    aead_key_init m pass = Done (Some c) /\
    forall (rnd P : bytes) (g : sbf) (tmp : bytes),
      blen rnd = key_len c ->
      0 < blen P ->
      salt_admitted g rnd ->
      exists ct,
        aead_encrypt_all P c rnd = Done (CRYPTO_OK, ct) /\
        aead_decrypt_all g ct c tmp =
          Done (CRYPTO_OK, P, if MODULE_REMOTE then fst (fs_sbf_add g rnd) else g).
Proof.
  intros Hm. destruct (aead_key_init_ok m pass Hm) as (c & Hki).
  exists c. split; [exact Hki|]. intros rnd P g tmp Hrnd HP Hg.
  destruct (aead_key_init_wf _ _ _ Hki) as (Hwf & _).
  pose proof (cipher_wf_lengths c Hwf) as (Hk & Hn & Ht).
  destruct (aead_encrypt_all_sealed c rnd P Hwf Hrnd) as (ct & Hs & Hl & Hr).
  exists (rnd ++ ct). split; [assumption|].
  assert (Htake : take (key_len c) (rnd ++ ct) = rnd)
    by (rewrite <- Hrnd; apply take_app_exact).
  assert (Hdrop : drop (key_len c) (rnd ++ ct) = ct)
    by (rewrite <- Hrnd; apply drop_app_exact).
  rewrite aead_decrypt_all_opened; try assumption.
  - rewrite Hdrop, Htake.
    rewrite (open_seal _ _ _ _ _ (proj1 Hwf) Hs).
    replace (blen (rnd ++ ct) - key_len c - tag_len c) with (blen P)
      by (rewrite blen_app; lia).
    rewrite scratch_exact. reflexivity.
  - rewrite blen_app. lia.
  - rewrite Htake. assumption.
Qed.

End Udp.

(** ** TCP stream codec: sending *)

Section Sending.

Context {E : Externals} {EOk : ExternalsOk E}.

Lemma established_set_nonce (c : cipher_t) (sk : bytes) (ctx : cipher_ctx_t) (n : bytes) :
  established c sk ctx -> established c sk (set_nonce ctx n).
Proof. intros H. exact H. Qed.

Lemma aead_chunk_encrypt_ok (c : cipher_t) (sk : bytes) (ctx : cipher_ctx_t) (p n : bytes) :
  cipher_wf c -> established c sk ctx ->
  0 < blen p <= CHUNK_SIZE_MASK ->
  exists c1 c2,
    aead_seal (method c) (session_key c sk) (session_nonce c n) (htons (blen p)) = Some c1 /\
    aead_seal (method c) (session_key c sk)
              (session_nonce c (sodium_increment n (nonce_len c))) p = Some c2 /\
    blen c1 = CHUNK_SIZE_LEN + 16 /\
    blen c2 = blen p + 16 /\
    aead_chunk_encrypt ctx p n (blen p mod 65536) =
      Done (CRYPTO_OK, c1 ++ c2,
            sodium_increment (sodium_increment n (nonce_len c)) (nonce_len c)).
Proof.
  intros Hwf (Hi & Hc & Hsk & He) Hp. subst c sk.
  pose proof (cipher_wf_lengths _ Hwf) as (Hk & Hn & Ht).
  unfold CHUNK_SIZE_MASK, CHUNK_SIZE_LEN in *.
  destruct (seal_ok (method (cipher ctx)) (session_key (cipher ctx) (subkey ctx))
              (session_nonce (cipher ctx) n) (htons (blen p))) as (c1 & Hc1 & Hl1);
    [apply Hwf|].
  destruct (seal_ok (method (cipher ctx)) (session_key (cipher ctx) (subkey ctx))
              (session_nonce (cipher ctx) (sodium_increment n (nonce_len (cipher ctx)))) p)
    as (c2 & Hc2 & Hl2); [apply Hwf|].
  exists c1, c2. repeat split; try assumption.
  unfold aead_chunk_encrypt, CHUNK_SIZE_MASK, CHUNK_SIZE_LEN.
  rewrite Z.mod_small by lia.
  destruct (Z.leb_spec (blen p) 16383) as [_|Hgt]; [|lia]. cbn [assert bind].
  rewrite Z.min_l by lia.
  rewrite !aead_cipher_encrypt_keyed by assumption.
  rewrite Hc1. rewrite Ht, Hl1.
  change (blen (htons (blen p))) with 2. rewrite Z.eqb_refl. cbn [assert bind].
  rewrite take_all by lia. rewrite Hc2, Hl2, Z.eqb_refl. reflexivity.
Qed.

(** A call without payload is a no-op. *)
Lemma aead_encrypt_nil (ctx : cipher_ctx_t) (tmp : bytes) :
  aead_encrypt [] (Some ctx) tmp = Done (CRYPTO_OK, [], Some ctx).
Proof. reflexivity. Qed.

(** A call on an established context emits one chunk and nothing else. *)
Lemma aead_encrypt_established (c : cipher_t) (sk : bytes) (ctx : cipher_ctx_t) (p tmp : bytes) :
  cipher_wf c -> established c sk ctx ->
  0 < blen p <= CHUNK_SIZE_MASK ->
  exists c1 c2,
    aead_seal (method c) (session_key c sk) (session_nonce c (nonce ctx)) (htons (blen p))
      = Some c1 /\
    aead_seal (method c) (session_key c sk)
              (session_nonce c (sodium_increment (nonce ctx) (nonce_len c))) p = Some c2 /\
    blen c1 = CHUNK_SIZE_LEN + 16 /\
    blen c2 = blen p + 16 /\
    aead_encrypt p (Some ctx) tmp =
      Done (CRYPTO_OK, c1 ++ c2,
            Some (set_nonce ctx
                    (sodium_increment (sodium_increment (nonce ctx) (nonce_len c)) (nonce_len c)))).
Proof.
  intros Hwf Hest Hp.
  destruct (aead_chunk_encrypt_ok c sk ctx p (nonce ctx) Hwf Hest Hp)
    as (c1 & c2 & H1 & H2 & Hl1 & Hl2 & Hce).
  exists c1, c2. repeat split; try assumption.
  destruct Hest as (Hi & Hc & _). subst c.
  pose proof (cipher_wf_lengths _ Hwf) as (Hk & Hn & Ht).
  unfold aead_encrypt.
  destruct (Z.eqb_spec (blen p) 0) as [H0|_]; [lia|].
  rewrite Hi. cbn [negb bind]. rewrite Hce. cbn [bind app].
  replace (0 + 2 * tag_len (cipher ctx) + blen p + CHUNK_SIZE_LEN) with (blen (c1 ++ c2))
    by (rewrite blen_app; unfold CHUNK_SIZE_LEN in *; lia).
  rewrite scratch_exact. reflexivity.
Qed.

(** The first call with payload emits the salt and one chunk sealed from the
    zero nonce on, and leaves the context established. *)
Lemma aead_encrypt_first (c : cipher_t) (ctx : cipher_ctx_t) (p tmp : bytes) :
  cipher_wf c -> awaiting c ctx -> blen (salt ctx) = key_len c ->
  0 < blen p <= CHUNK_SIZE_MASK ->
  exists sk c1 c2 ctx1,
    session_subkey c (salt ctx) = Some sk /\
    aead_seal (method c) (session_key c sk) (session_nonce c (zeros (nonce_len c)))
              (htons (blen p)) = Some c1 /\
    aead_seal (method c) (session_key c sk)
              (session_nonce c (sodium_increment (zeros (nonce_len c)) (nonce_len c))) p
      = Some c2 /\
    blen c1 = CHUNK_SIZE_LEN + 16 /\
    blen c2 = blen p + 16 /\
    aead_encrypt p (Some ctx) tmp = Done (CRYPTO_OK, salt ctx ++ c1 ++ c2, Some ctx1) /\
    established c sk ctx1 /\
    nonce ctx1 = sodium_increment (sodium_increment (zeros (nonce_len c)) (nonce_len c))
                                  (nonce_len c).
Proof.
  intros Hwf (Hi & Hc & He) Hsalt Hp. subst c.
  pose proof (cipher_wf_lengths _ Hwf) as (Hk & Hn & Ht).
  destruct (aead_cipher_ctx_set_subkey_ok ctx Hwf He) as (sk & e & Hsk & Hke & Hss).
  match type of Hss with _ = Done ?x => set (ctx' := x) in * end.
  assert (Hest : established (cipher ctx) sk (set_init ctx' true)).
  { unfold established, ctx'. cbn. auto. }
  destruct (aead_chunk_encrypt_ok (cipher ctx) sk (set_init ctx' true) p
              (zeros (nonce_len (cipher ctx))) Hwf Hest Hp)
    as (c1 & c2 & H1 & H2 & Hl1 & Hl2 & Hce).
  eexists sk, c1, c2, _. split; [exact Hsk|].
  split; [exact H1|]. split; [exact H2|]. split; [exact Hl1|]. split; [exact Hl2|].
  unfold aead_encrypt.
  destruct (Z.eqb_spec (blen p) 0) as [H0|_]; [lia|].
  rewrite Hi. cbn [negb]. rewrite Hss. cbn [bind].
  change (nonce (set_init ctx' true)) with (zeros (nonce_len (cipher ctx))).
  rewrite Hce. cbn [bind].
  rewrite take_all by lia.
  replace (key_len (cipher ctx) + 2 * tag_len (cipher ctx) + blen p + CHUNK_SIZE_LEN)
    with (blen (salt ctx ++ c1 ++ c2))
    by (rewrite !blen_app; unfold CHUNK_SIZE_LEN in *; lia).
  rewrite scratch_exact.
  split; [reflexivity|]. split; [|reflexivity].
  apply established_set_nonce. exact Hest.
Qed.

End Sending.

(** ** TCP stream codec: receiving *)

Section Receiving.

Context {E : Externals} {EOk : ExternalsOk E}.

Lemma take_prefix (a b cb u : bytes) :
  blen a <= blen cb -> cb ++ u = a ++ b -> take (blen a) cb = a.
Proof.
  intros Hle Heq.
  assert (H : take (blen a) (cb ++ u) = take (blen a) cb).
  { unfold take, blen in *. rewrite firstn_app.
    replace (Z.to_nat (Z.of_nat (List.length a)) - List.length cb)%nat with 0%nat by lia.
    cbn. apply app_nil_r. }
  rewrite <- H, Heq. apply take_app_exact.
Qed.

Lemma drop_prefix (a b cb u : bytes) :
  blen a <= blen cb -> cb ++ u = a ++ b -> drop (blen a) cb ++ u = b.
Proof.
  intros Hle Heq.
  assert (H : drop (blen a) (cb ++ u) = drop (blen a) cb ++ u).
  { unfold drop, blen in *. rewrite skipn_app.
    replace (Z.to_nat (Z.of_nat (List.length a)) - List.length cb)%nat with 0%nat by lia.
    reflexivity. }
  rewrite <- H, Heq. apply drop_app_exact.
Qed.

Lemma frames_chunk_lengths (c : cipher_t) (k n msg ct : bytes) :
  cipher_wf c ->
  aead_seal (method c) k n msg = Some ct -> blen ct = blen msg + 16.
Proof.
  intros Hwf Hs.
  destruct (seal_ok (method c) k n msg) as (ct' & Hs' & Hl); [apply Hwf|].
  congruence.
Qed.

(** One pass of [aead_chunk_decrypt] over a reassembly buffer that starts the
    chunk of [p]: it waits, leaving buffer and nonce alone, until the whole
    chunk is there, and then pops exactly [p]. *)
Lemma aead_chunk_decrypt_frame (c : cipher_t) (sk : bytes) (ctx : cipher_ctx_t)
    (n p : bytes) (ps : list bytes) (cb unfed n' : bytes) :
  cipher_wf c -> established c sk ctx ->
  frames c sk n (p :: ps) (cb ++ unfed) n' ->
  (aead_chunk_decrypt ctx cb n = Done (CRYPTO_NEED_MORE, [], cb, n) /\
   blen cb < 2 * tag_len c + CHUNK_SIZE_LEN + blen p) \/
  (exists cb',
     aead_chunk_decrypt ctx cb n =
       Done (CRYPTO_OK, p, cb',
             sodium_increment (sodium_increment n (nonce_len c)) (nonce_len c)) /\
     frames c sk (sodium_increment (sodium_increment n (nonce_len c)) (nonce_len c))
            ps (cb' ++ unfed) n' /\
     (List.length cb' < List.length cb)%nat /\
     0 < blen p).
Proof.
  intros Hwf Hest Hfr.
  pose proof (cipher_wf_lengths _ Hwf) as (Hk & Hn & Ht).
  inversion Hfr as [|n0 p0 ps0 c1 c2 w n0' Hp H1 H2 Hrest Heq1 Heq2 Heq3]; subst.
  pose proof (frames_chunk_lengths _ _ _ _ _ Hwf H1) as Hl1.
  pose proof (frames_chunk_lengths _ _ _ _ _ Hwf H2) as Hl2.
  change (blen (htons (blen p))) with 2 in Hl1.
  pose proof Hest as (Hi & Hc & Hsk & He). subst c sk.
  unfold aead_chunk_decrypt, CHUNK_SIZE_LEN, CHUNK_SIZE_MASK in *. rewrite Ht.
  destruct (Z.leb_spec (blen cb) (2 * 16 + 2)) as [Hshort|Hlong].
  { left. split; [reflexivity|lia]. }
  rewrite !aead_cipher_decrypt_keyed by assumption.
  assert (Ht1 : take (2 + 16) cb = c1).
  { replace (2 + 16) with (blen c1) by lia.
    eapply take_prefix; [lia|]. symmetry. eassumption. }
  rewrite Ht1.
  rewrite (open_seal _ _ _ _ _ (proj1 Hwf) H1).
  change (blen (htons (blen p))) with 2. cbn [Z.eqb Pos.eqb assert bind].
  rewrite ntohs_htons by lia.
  destruct (Z.gtb_spec (blen p) 16383) as [Hbig|_]; [lia|].
  destruct (Z.eqb_spec (blen p) 0) as [H0|_]; [lia|].
  destruct (Z.ltb_spec (blen cb) (2 * 16 + 2 + blen p)) as [Hpart|Hfull].
  { left. split; [reflexivity|lia]. }
  right.
  assert (Hd1 : drop (2 + 16) cb ++ unfed = c2 ++ w).
  { replace (2 + 16) with (blen c1) by lia.
    eapply drop_prefix; [lia|]. symmetry. eassumption. }
  assert (Hld : blen (drop (2 + 16) cb) = blen cb - 18) by (rewrite blen_drop; lia).
  assert (Ht2 : take (blen p + 16) (drop (2 + 16) cb) = c2).
  { replace (blen p + 16) with (blen c2) by lia.
    eapply take_prefix; [lia|]. eassumption. }
  rewrite aead_cipher_decrypt_keyed by assumption.
  rewrite Ht2.
  rewrite (open_seal _ _ _ _ _ (proj1 Hwf) H2).
  rewrite Z.eqb_refl. cbn [assert bind].
  eexists. split; [reflexivity|].
  assert (Hd2 : drop (2 * 16 + 2 + blen p) cb ++ unfed = w).
  { replace (2 * 16 + 2 + blen p) with (blen (c1 ++ c2)) by (rewrite blen_app; lia).
    eapply drop_prefix; [rewrite blen_app; lia|].
    rewrite <- app_assoc. symmetry. eassumption. }
  rewrite Hd2. split; [assumption|]. split; [|lia].
  unfold drop, blen in *. rewrite length_skipn. lia.
Qed.

Lemma frames_nil_inv (c : cipher_t) (sk n w n' : bytes) :
  frames c sk n [] w n' -> w = [] /\ n' = n.
Proof. intros H. inversion H. auto. Qed.

Lemma frames_cons_length (c : cipher_t) (sk n p : bytes) (ps : list bytes) (w n' : bytes) :
  cipher_wf c ->
  frames c sk n (p :: ps) w n' -> 2 * tag_len c + CHUNK_SIZE_LEN + blen p <= blen w.
Proof.
  intros Hwf H. pose proof (cipher_wf_lengths _ Hwf) as (Hk & Hn & Ht).
  inversion H as [|n0 p0 ps0 c1 c2 w0 n0' Hp H1 H2 Hrest]; subst.
  pose proof (frames_chunk_lengths _ _ _ _ _ Hwf H1) as Hl1.
  pose proof (frames_chunk_lengths _ _ _ _ _ Hwf H2) as Hl2.
  change (blen (htons (blen p))) with 2 in Hl1.
  rewrite !blen_app. pose proof (blen_nonneg w0). unfold CHUNK_SIZE_LEN. lia.
Qed.

(** The loop of [aead_decrypt] over a reassembly buffer that, continued by
    the bytes still to arrive, is the chunks of [ps]: it pops the complete
    chunks in order, never fails and never runs out of fuel. *)
Lemma aead_decrypt_loop_frames (c : cipher_t) (sk : bytes) :
  cipher_wf c ->
  forall (ps : list bytes) (fuel : nat) (ctx : cipher_ctx_t) (acc unfed n' : bytes),
    established c sk ctx ->
    frames c sk (nonce ctx) ps (chunk_data ctx ++ unfed) n' ->
    (List.length (chunk_data ctx) < fuel)%nat ->
    exists popped rest ctx' st,
      ps = popped ++ rest /\
      aead_decrypt_loop fuel ctx acc = Done (st, acc ++ List.concat popped, ctx') /\
      established c sk ctx' /\
      frames c sk (nonce ctx') rest (chunk_data ctx' ++ unfed) n' /\
      quiescent c rest ctx' /\
      (st = CRYPTO_OK \/ (st = CRYPTO_NEED_MORE /\ acc = [] /\ popped = [])).
Proof.
  intros Hwf. pose proof (cipher_wf_lengths _ Hwf) as (Hk & Hn & Ht).
  induction ps as [|p ps IH]; intros fuel ctx acc unfed n' Hest Hfr Hfuel.
  - destruct (frames_nil_inv _ _ _ _ _ Hfr) as (Hnil & _).
    apply app_eq_nil in Hnil. destruct Hnil as (Hcd & _).
    destruct fuel as [|fuel]; [lia|]. cbn [aead_decrypt_loop]. rewrite Hcd.
    exists [], [], ctx, CRYPTO_OK. cbn [List.concat app]. rewrite app_nil_r.
    split; [reflexivity|]. split; [reflexivity|]. split; [exact Hest|].
    split; [exact Hfr|]. split; [exact I|]. left. reflexivity.
  - destruct fuel as [|fuel]; [lia|]. cbn [aead_decrypt_loop].
    destruct (Z.gtb_spec (blen (chunk_data ctx)) 0) as [Hpos|Hzero].
    + destruct (aead_chunk_decrypt_frame c sk ctx (nonce ctx) p ps (chunk_data ctx) unfed n'
                  Hwf Hest Hfr) as [(Hcd & Hlt)|(cb' & Hcd & Hfr' & Hsh & Hp)];
        rewrite Hcd; cbn [bind].
      * exists [], (p :: ps), (set_nonce ctx (nonce ctx)).
        destruct (Z.eqb_spec (blen acc) 0) as [Hacc|Hacc].
        -- exists CRYPTO_NEED_MORE. cbn [List.concat app]. rewrite app_nil_r.
           split; [reflexivity|]. split; [reflexivity|]. split; [exact Hest|].
           split; [exact Hfr|]. split; [exact Hlt|].
           right. split; [reflexivity|]. split; [|reflexivity].
           apply blen_nil_iff. exact Hacc.
        -- exists CRYPTO_OK. cbn [List.concat app]. rewrite app_nil_r.
           split; [reflexivity|]. split; [reflexivity|]. split; [exact Hest|].
           split; [exact Hfr|]. split; [exact Hlt|]. left. reflexivity.
      * match goal with |- context [aead_decrypt_loop fuel ?x _] => set (ctx1 := x) end.
        assert (Hest1 : established c sk ctx1) by exact Hest.
        destruct (IH fuel ctx1 (acc ++ p) unfed n' Hest1 Hfr')
          as (popped & rest & ctx' & st & Hps & Hloop & Hest' & Hfr'' & Hq & Hst).
        { cbn. lia. }
        exists (p :: popped), rest, ctx', CRYPTO_OK.
        split; [cbn; congruence|].
        assert (Hst' : st = CRYPTO_OK).
        { destruct Hst as [Hst|(_ & Happ & _)]; [assumption|].
          apply app_eq_nil in Happ. destruct Happ as (_ & Hpn). subst p. cbn in Hp. lia. }
        subst st. rewrite Hloop. cbn [List.concat]. rewrite app_assoc.
        split; [reflexivity|]. split; [exact Hest'|].
        split; [exact Hfr''|]. split; [exact Hq|]. left. reflexivity.
    + assert (Hcd : chunk_data ctx = []).
      { apply blen_nil_iff. pose proof (blen_nonneg (chunk_data ctx)). lia. }
      exists [], (p :: ps), ctx, CRYPTO_OK. cbn [List.concat app]. rewrite app_nil_r.
      split; [reflexivity|]. split; [reflexivity|]. split; [exact Hest|].
      split; [exact Hfr|]. split; [|left; reflexivity].
      unfold quiescent. rewrite Hcd. change (blen []) with 0.
      pose proof (blen_nonneg p). unfold CHUNK_SIZE_LEN. lia.
Qed.

(** A call on an established context whose reassembly buffer, with the
    segment and the bytes still to arrive, is the chunks of [ps]. *)
Lemma aead_decrypt_established (c : cipher_t) (sk : bytes) (g : sbf) (ctx : cipher_ctx_t)
    (ps : list bytes) (s unfed n' : bytes) :
  cipher_wf c -> established c sk ctx ->
  frames c sk (nonce ctx) ps (chunk_data ctx ++ s ++ unfed) n' ->
  exists st out ctx' popped rest,
    aead_decrypt g s ctx = Done (st, out, ctx', g) /\
    ps = popped ++ rest /\
    established c sk ctx' /\
    frames c sk (nonce ctx') rest (chunk_data ctx' ++ unfed) n' /\
    quiescent c rest ctx' /\
    ((st = CRYPTO_OK /\ out = List.concat popped) \/
     (st = CRYPTO_NEED_MORE /\ out = s /\ popped = [])).
Proof.
  intros Hwf Hest Hfr.
  set (ctx0 := set_chunk ctx (Some (chunk_data ctx ++ s))).
  assert (Hest0 : established c sk ctx0) by exact Hest.
  assert (Hfr0 : frames c sk (nonce ctx0) ps (chunk_data ctx0 ++ unfed) n').
  { cbn. rewrite <- app_assoc. exact Hfr. }
  destruct (aead_decrypt_loop_frames c sk Hwf ps (S (List.length (chunk_data ctx0))) ctx0 []
              unfed n' Hest0 Hfr0) as (popped & rest & ctx' & st & Hps & Hloop & He & Hf & Hq & Hst);
    [lia|].
  cbn [app] in Hloop.
  unfold aead_decrypt, aead_decrypt_salt. fold ctx0.
  destruct Hest as (Hi & _).
  replace (init ctx0) with true by (symmetry; exact Hi). cbn [negb bind].
  rewrite Hloop. cbn [bind].
  destruct Hst as [->|(-> & _ & ->)].
  - exists CRYPTO_OK, (List.concat popped), ctx', popped, rest. tauto.
  - exists CRYPTO_NEED_MORE, s, ctx', [], rest. tauto.
Qed.

(** A call on a context that still waits for the salt [rnd] of a stream
    [rnd ++ w]. *)
Lemma aead_decrypt_awaiting (c : cipher_t) (sk rnd : bytes) (g : sbf) (ctx : cipher_ctx_t)
    (ps : list bytes) (s unfed w n' : bytes) :
  cipher_wf c -> awaiting c ctx ->
  blen rnd = key_len c -> session_subkey c rnd = Some sk ->
  chunk_data ctx ++ s ++ unfed = rnd ++ w ->
  frames c sk (zeros (nonce_len c)) ps w n' ->
  salt_admitted g rnd ->
  (blen (chunk_data ctx ++ s) <= key_len c /\
   aead_decrypt g s ctx =
     Done (CRYPTO_NEED_MORE, s, set_chunk ctx (Some (chunk_data ctx ++ s)), g)) \/
  (exists st out ctx' popped rest,
     aead_decrypt g s ctx =
       Done (st, out, ctx', if MODULE_REMOTE then fst (fs_sbf_add g rnd) else g) /\
     ps = popped ++ rest /\
     established c sk ctx' /\
     frames c sk (nonce ctx') rest (chunk_data ctx' ++ unfed) n' /\
     quiescent c rest ctx' /\
     ((st = CRYPTO_OK /\ out = List.concat popped) \/
      (st = CRYPTO_NEED_MORE /\ out = s /\ popped = []))).
Proof.
  intros Hwf (Hi & Hc & He) Hrnd Hsk Hwire Hfr Hg. subst c.
  pose proof (cipher_wf_lengths _ Hwf) as (Hk & Hn & Ht).
  set (ctx0 := set_chunk ctx (Some (chunk_data ctx ++ s))).
  unfold aead_decrypt, aead_decrypt_salt. fold ctx0.
  replace (init ctx0) with false by (symmetry; exact Hi). cbn [negb].
  change (chunk_data ctx0) with (chunk_data ctx ++ s).
  change (cipher ctx0) with (cipher ctx).
  destruct (Z.leb_spec (blen (chunk_data ctx ++ s)) (key_len (cipher ctx))) as [Hle|Hgt].
  { left. split; [assumption|reflexivity]. }
  right.
  assert (Hw : (chunk_data ctx ++ s) ++ unfed = rnd ++ w)
    by (rewrite <- app_assoc; exact Hwire).
  assert (Htake : take (key_len (cipher ctx)) (chunk_data ctx ++ s) = rnd).
  { rewrite <- Hrnd. eapply take_prefix; [lia|exact Hw]. }
  assert (Hdrop : drop (key_len (cipher ctx)) (chunk_data ctx ++ s) ++ unfed = w).
  { rewrite <- Hrnd. eapply drop_prefix; [lia|exact Hw]. }
  rewrite Htake.
  destruct (aead_cipher_ctx_set_subkey_ok (set_salt ctx0 rnd) Hwf He)
    as (sk' & e & Hsk' & Hke & Hss).
  assert (sk' = sk).
  { unfold session_subkey in Hsk. unfold ctx0 in Hsk'.
    cbn [cipher salt set_salt set_chunk] in Hsk'. congruence. }
  subst sk'.
  rewrite Hss. cbn [bind salt set_salt]. rewrite (salt_admitted_test _ _ Hg).
  match goal with
  | |- context [Done (None, ?x, _)] => set (ctx1 := x)
  end.
  cbn [bind].
  assert (Hest1 : established (cipher ctx) sk ctx1).
  { unfold established, ctx1. cbn. auto. }
  assert (Hfr1 : frames (cipher ctx) sk (nonce ctx1) ps (chunk_data ctx1 ++ unfed) n').
  { unfold ctx1. cbn. cbn in Hdrop. rewrite Hdrop. exact Hfr. }
  destruct (aead_decrypt_loop_frames (cipher ctx) sk Hwf ps (S (List.length (chunk_data ctx1)))
              ctx1 [] unfed n' Hest1 Hfr1)
    as (popped & rest & ctx' & st & Hps & Hloop & He' & Hf & Hq & Hst); [lia|].
  cbn [app] in Hloop. rewrite Hloop. cbn [bind].
  destruct Hst as [->|(-> & _ & ->)].
  - exists CRYPTO_OK, (List.concat popped), ctx', popped, rest. tauto.
  - exists CRYPTO_NEED_MORE, s, ctx', [], rest. tauto.
Qed.

Lemma delivered_cons (st : crypto_status) (out : bytes) (rs : list (crypto_status * bytes)) :
  delivered ((st, out) :: rs) =
  match st with CRYPTO_OK => out | _ => [] end ++ delivered rs.
Proof. reflexivity. Qed.

Lemma delivered_app (a b : list (crypto_status * bytes)) :
  delivered (a ++ b) = delivered a ++ delivered b.
Proof.
  unfold delivered. rewrite map_app, concat_app. reflexivity.
Qed.

Lemma tcp_recv_established (c : cipher_t) (sk : bytes) (g : sbf) :
  cipher_wf c ->
  forall (segs : list bytes) (ctx : cipher_ctx_t) (ps : list bytes) (n' : bytes),
    established c sk ctx -> quiescent c ps ctx ->
    frames c sk (nonce ctx) ps (chunk_data ctx ++ List.concat segs) n' ->
    exists rs ctx',
      tcp_recv g ctx segs = Done (rs, ctx', g) /\
      List.length rs = List.length segs /\
      no_error rs /\
      delivered rs = List.concat ps.
Proof.
  intros Hwf. induction segs as [|s segs IH]; intros ctx ps n' Hest Hq Hfr.
  - exists [], ctx. cbn [tcp_recv List.concat] in *. rewrite app_nil_r in Hfr.
    split; [reflexivity|]. split; [reflexivity|]. split; [constructor|].
    destruct ps as [|p ps]; [reflexivity|].
    pose proof (frames_cons_length _ _ _ _ _ _ _ Hwf Hfr) as Hlen.
    unfold quiescent in Hq. lia.
  - cbn [tcp_recv List.concat] in *.
    destruct (aead_decrypt_established c sk g ctx ps s (List.concat segs) n' Hwf Hest Hfr)
      as (st & out & ctx' & popped & rest & Hdec & Hps & He & Hf & Hq' & Hst).
    rewrite Hdec. cbn [bind].
    destruct (IH ctx' rest n' He Hq' Hf) as (rs & ctx'' & Hrecv & Hlen & Hne & Hdel).
    destruct Hst as [(-> & ->)|(-> & -> & ->)]; rewrite Hrecv; cbn [bind].
    + eexists _, ctx''. split; [reflexivity|].
      split; [cbn; lia|]. split; [constructor; [left; reflexivity|assumption]|].
      rewrite delivered_cons, Hdel, Hps, concat_app. reflexivity.
    + eexists _, ctx''. split; [reflexivity|].
      split; [cbn; lia|]. split; [constructor; [right; reflexivity|assumption]|].
      rewrite delivered_cons, Hdel, Hps. reflexivity.
Qed.

Lemma tcp_recv_awaiting (c : cipher_t) (sk rnd : bytes) (ps : list bytes) (w n' : bytes) :
  cipher_wf c -> blen rnd = key_len c -> session_subkey c rnd = Some sk ->
  frames c sk (zeros (nonce_len c)) ps w n' ->
  forall (segs : list bytes) (ctx : cipher_ctx_t) (g : sbf),
    awaiting c ctx -> blen (chunk_data ctx) <= key_len c ->
    chunk_data ctx ++ List.concat segs = rnd ++ w ->
    salt_admitted g rnd ->
    exists rs ctx' g',
      tcp_recv g ctx segs = Done (rs, ctx', g') /\
      List.length rs = List.length segs /\
      no_error rs /\
      delivered rs = List.concat ps.
Proof.
  intros Hwf Hrnd Hsk Hfr.
  induction segs as [|s segs IH]; intros ctx g Haw Hcd Hwire Hg.
  - exists [], ctx, g. cbn [tcp_recv List.concat] in *. rewrite app_nil_r in Hwire.
    split; [reflexivity|]. split; [reflexivity|]. split; [constructor|].
    destruct ps as [|p ps]; [reflexivity|].
    pose proof (frames_cons_length _ _ _ _ _ _ _ Hwf Hfr) as Hlen.
    rewrite Hwire, blen_app in Hcd.
    pose proof (cipher_wf_lengths _ Hwf) as (_ & _ & Ht).
    pose proof (blen_nonneg p). unfold CHUNK_SIZE_LEN in *. lia.
  - cbn [tcp_recv List.concat] in *.
    destruct (aead_decrypt_awaiting c sk rnd g ctx ps s (List.concat segs) w n'
                Hwf Haw Hrnd Hsk Hwire Hfr Hg)
      as [(Hle & Hdec)|(st & out & ctx' & popped & rest & Hdec & Hps & He & Hf & Hq' & Hst)];
      rewrite Hdec; cbn [bind].
    + destruct (IH (set_chunk ctx (Some (chunk_data ctx ++ s))) g) as
        (rs & ctx'' & g'' & Hrecv & Hlen & Hne & Hdel).
      * exact Haw.
      * exact Hle.
      * cbn. rewrite <- app_assoc. exact Hwire.
      * exact Hg.
      * rewrite Hrecv. cbn [bind]. eexists _, ctx'', g''. split; [reflexivity|].
        split; [cbn; lia|]. split; [constructor; [right; reflexivity|assumption]|].
        rewrite delivered_cons. exact Hdel.
    + destruct (tcp_recv_established c sk (if MODULE_REMOTE then fst (fs_sbf_add g rnd) else g)
                  Hwf segs ctx' rest n' He Hq' Hf) as (rs & ctx'' & Hrecv & Hlen & Hne & Hdel).
      destruct Hst as [(-> & ->)|(-> & -> & ->)]; rewrite Hrecv; cbn [bind].
      * eexists _, ctx'', _. split; [reflexivity|].
        split; [cbn; lia|]. split; [constructor; [left; reflexivity|assumption]|].
        rewrite delivered_cons, Hdel, Hps, concat_app. reflexivity.
      * eexists _, ctx'', _. split; [reflexivity|].
        split; [cbn; lia|]. split; [constructor; [right; reflexivity|assumption]|].
        rewrite delivered_cons, Hdel, Hps. reflexivity.
Qed.

(** Before the salt is complete and exceeded, a call only stores the segment. *)
Lemma aead_decrypt_short (g : sbf) (s : bytes) (ctx : cipher_ctx_t) :
  init ctx = false ->
  blen (chunk_data ctx ++ s) <= key_len (cipher ctx) ->
  aead_decrypt g s ctx =
    Done (CRYPTO_NEED_MORE, s, set_chunk ctx (Some (chunk_data ctx ++ s)), g).
Proof.
  intros Hi Hle. unfold aead_decrypt, aead_decrypt_salt.
  set (ctx0 := set_chunk ctx (Some (chunk_data ctx ++ s))).
  replace (init ctx0) with false by (symmetry; exact Hi). cbn [negb].
  change (chunk_data ctx0) with (chunk_data ctx ++ s).
  change (cipher ctx0) with (cipher ctx).
  destruct (Z.leb_spec (blen (chunk_data ctx ++ s)) (key_len (cipher ctx))); [reflexivity|lia].
Qed.

(** Nothing was sent: every segment is empty and every call asks for more. *)
Lemma tcp_recv_idle (c : cipher_t) :
  0 <= key_len c ->
  forall (segs : list bytes) (ctx : cipher_ctx_t) (g : sbf),
    awaiting c ctx -> chunk_data ctx = [] -> List.concat segs = [] ->
    exists rs ctx',
      tcp_recv g ctx segs = Done (rs, ctx', g) /\
      List.length rs = List.length segs /\
      no_error rs /\
      delivered rs = [].
Proof.
  intros Hk. induction segs as [|s segs IH]; intros ctx g Haw Hcd Hcat.
  - exists [], ctx. repeat split. constructor.
  - cbn [List.concat] in Hcat. apply app_eq_nil in Hcat. destruct Hcat as (-> & Hcat).
    cbn [tcp_recv].
    pose proof Haw as (Hi & Hc & _). subst c.
    rewrite aead_decrypt_short; [|exact Hi|rewrite Hcd; exact Hk].
    cbn [bind].
    destruct (IH (set_chunk ctx (Some (chunk_data ctx ++ []))) g)
      as (rs & ctx' & Hrecv & Hlen & Hne & Hdel).
    + exact Haw.
    + cbn. rewrite Hcd. reflexivity.
    + exact Hcat.
    + rewrite Hrecv. cbn [bind]. eexists _, ctx'. split; [reflexivity|].
      split; [cbn; lia|]. split; [constructor; [right; reflexivity|assumption]|].
      rewrite delivered_cons. exact Hdel.
Qed.

End Receiving.

(** ** TCP sessions end to end *)

Section Streams.

Context {E : Externals} {EOk : ExternalsOk E}.

Lemma concat_filter_nonempty (l : list bytes) :
  List.concat (filter nonempty l) = List.concat l.
Proof.
  induction l as [|p l IH]; [reflexivity|].
  cbn [filter List.concat]. unfold nonempty at 1.
  destruct (Z.eqb_spec (blen p) 0) as [H0|Hne]; cbn [negb].
  - apply blen_nil_iff in H0. subst p. exact IH.
  - cbn [List.concat]. rewrite IH. reflexivity.
Qed.

Lemma nonempty_spec (p : bytes) :
  (p = [] /\ nonempty p = false) \/ (blen p <> 0 /\ nonempty p = true).
Proof.
  unfold nonempty. destruct (Z.eqb_spec (blen p) 0) as [H0|Hne].
  - left. split; [apply blen_nil_iff; exact H0|reflexivity].
  - right. split; [exact Hne|reflexivity].
Qed.

Lemma tcp_send_established (c : cipher_t) (sk : bytes) :
  cipher_wf c ->
  forall (calls : list (bytes * bytes)) (ctx : cipher_ctx_t),
    established c sk ctx ->
    Forall (fun call => blen (fst call) <= CHUNK_SIZE_MASK) calls ->
    exists w ctx',
      tcp_send ctx calls = Done (Some (w, ctx')) /\
      frames c sk (nonce ctx) (filter nonempty (map fst calls)) w (nonce ctx') /\
      established c sk ctx'.
Proof.
  intros Hwf. induction calls as [|[p tmp] calls IH]; intros ctx Hest Hall.
  - exists [], ctx. split; [reflexivity|]. split; [constructor|assumption].
  - inversion Hall as [|x l Hp Hall']; subst. cbn [fst] in Hp.
    cbn [tcp_send map fst filter].
    destruct (nonempty_spec p) as [(-> & ->)|(Hne & ->)].
    + rewrite aead_encrypt_nil. cbn [bind].
      destruct (IH ctx Hest Hall') as (w & ctx' & Hs & Hf & He).
      rewrite Hs. cbn [bind app]. exists w, ctx'. auto.
    + assert (Hp' : 0 < blen p <= CHUNK_SIZE_MASK) by (pose proof (blen_nonneg p); lia).
      destruct (aead_encrypt_established c sk ctx p tmp Hwf Hest Hp')
        as (c1 & c2 & H1 & H2 & Hl1 & Hl2 & Henc).
      rewrite Henc. cbn [bind].
      match goal with |- context [tcp_send ?x calls] => set (ctx1 := x) end.
      destruct (IH ctx1 (established_set_nonce _ _ _ _ Hest) Hall') as (w & ctx' & Hs & Hf & He).
      rewrite Hs. cbn [bind]. exists (c1 ++ c2 ++ w), ctx'.
      split; [rewrite <- app_assoc; reflexivity|]. split; [|assumption].
      econstructor; eassumption.
Qed.

Lemma tcp_send_awaiting (c : cipher_t) :
  cipher_wf c ->
  forall (calls : list (bytes * bytes)) (ctx : cipher_ctx_t),
    awaiting c ctx -> blen (salt ctx) = key_len c ->
    Forall (fun call => blen (fst call) <= CHUNK_SIZE_MASK) calls ->
    exists wire ctx',
      tcp_send ctx calls = Done (Some (wire, ctx')) /\
      ((filter nonempty (map fst calls) = [] /\ wire = []) \/
       (exists sk w n',
          session_subkey c (salt ctx) = Some sk /\
          wire = salt ctx ++ w /\
          frames c sk (zeros (nonce_len c)) (filter nonempty (map fst calls)) w n')).
Proof.
  intros Hwf. induction calls as [|[p tmp] calls IH]; intros ctx Haw Hsalt Hall.
  - exists [], ctx. split; [reflexivity|]. left. split; reflexivity.
  - inversion Hall as [|x l Hp Hall']; subst. cbn [fst] in Hp.
    cbn [tcp_send map fst filter].
    destruct (nonempty_spec p) as [(-> & ->)|(Hne & ->)].
    + rewrite aead_encrypt_nil. cbn [bind].
      destruct (IH ctx Haw Hsalt Hall') as (wire & ctx' & Hs & Hcases).
      rewrite Hs. cbn [bind app]. exists wire, ctx'. auto.
    + assert (Hp' : 0 < blen p <= CHUNK_SIZE_MASK) by (pose proof (blen_nonneg p); lia).
      destruct (aead_encrypt_first c ctx p tmp Hwf Haw Hsalt Hp')
        as (sk & c1 & c2 & ctx1 & Hsk & H1 & H2 & Hl1 & Hl2 & Henc & Hest & Hn1).
      rewrite Henc. cbn [bind].
      destruct (tcp_send_established c sk Hwf calls ctx1 Hest Hall') as (w & ctx' & Hs & Hf & He).
      rewrite Hs. cbn [bind]. exists ((salt ctx ++ c1 ++ c2) ++ w), ctx'.
      split; [reflexivity|]. right. exists sk, (c1 ++ c2 ++ w), (nonce ctx').
      split; [assumption|]. split; [rewrite <- !app_assoc; reflexivity|].
      rewrite Hn1 in Hf. econstructor; eassumption.
Qed.

(** A call of [aead_encrypt] that returns at all had a payload the
    [assert] of [aead_chunk_encrypt] let through. *)
Lemma aead_encrypt_done_bound (p : bytes) (ctx : cipher_ctx_t) (tmp : bytes)
    (r : crypto_status * bytes * option cipher_ctx_t) :
  aead_encrypt p (Some ctx) tmp = Done r ->
  blen p = 0 \/ blen p mod 65536 <= CHUNK_SIZE_MASK.
Proof.
  unfold aead_encrypt.
  destruct (Z.eqb_spec (blen p) 0) as [H0|Hne]; [left; exact H0|].
  intros H. right. revert H.
  match goal with |- context [bind ?o _] => destruct o as [[head ctx1]| |] end;
    cbn [bind]; try discriminate.
  unfold aead_chunk_encrypt.
  destruct (Z.leb_spec (blen p mod 65536) CHUNK_SIZE_MASK) as [Hle|Hgt]; [intros _; exact Hle|].
  cbn [assert bind]. discriminate.
Qed.

Lemma tcp_send_done_bound (calls : list (bytes * bytes)) :
  forall (ctx : cipher_ctx_t) (r : bytes * cipher_ctx_t),
    tcp_send ctx calls = Done (Some r) ->
    Forall (fun call => blen (fst call) < 65536) calls ->
    Forall (fun call => blen (fst call) <= CHUNK_SIZE_MASK) calls.
Proof.
  induction calls as [|[p tmp] calls IH]; intros ctx r Hs Hall; [constructor|].
  inversion Hall as [|x l Hp Hall']; subst. cbn [fst] in Hp.
  cbn [tcp_send] in Hs.
  destruct (aead_encrypt p (Some ctx) tmp) as [[[err out] ctx1]| |] eqn:He;
    cbn [bind] in Hs; try discriminate.
  destruct err; try discriminate. destruct ctx1 as [ctx1|]; try discriminate.
  destruct (tcp_send ctx1 calls) as [[[w ctx2]|]| |] eqn:Hs'; cbn [bind] in Hs; try discriminate.
  constructor.
  - cbn [fst]. pose proof (blen_nonneg p).
    destruct (aead_encrypt_done_bound _ _ _ _ He) as [H0|Hm].
    + unfold CHUNK_SIZE_MASK. lia.
    + rewrite Z.mod_small in Hm by lia. exact Hm.
  - eapply IH; eassumption.
Qed.

(** C3, amended. Take any supported method and password, a fresh encrypt
    context and a fresh decrypt context whose guard admits the sender's salt
    (it always does in the client build).  Successive [aead_encrypt] calls
    with plaintexts of at most [CHUNK_SIZE_MASK] bytes all return
    [CRYPTO_OK].  And whenever successive [aead_encrypt] calls with
    plaintexts of fewer than 65536 bytes each have all returned [CRYPTO_OK],
    then for every partition of the bytes they emitted into segments,
    feeding the segments in order to [aead_decrypt] gives one result per
    segment, each [CRYPTO_OK] or [CRYPTO_NEED_MORE] and none [CRYPTO_ERROR];
    the buffers returned with [CRYPTO_OK], in order, are exactly the
    concatenation of the plaintexts, and after any number of calls they are
    a prefix of it. *)
Theorem tcp_fragmentation_robust (m : Z) (pass : string) :
  0 <= m < AEAD_CIPHER_NUM ->
  exists c,
    aead_key_init m pass = Done (Some c) /\
    forall (rnd : bytes) (calls : list (bytes * bytes)) (g : sbf),
      blen rnd = key_len c ->
      salt_admitted g rnd ->
      exists sender receiver,
        aead_ctx_init c true rnd = Done sender /\
        aead_ctx_init c false [] = Done receiver /\
        (Forall (fun call => blen (fst call) <= CHUNK_SIZE_MASK) calls ->
         exists wire sender', tcp_send sender calls = Done (Some (wire, sender'))) /\
        forall (wire : bytes) (sender' : cipher_ctx_t),
          tcp_send sender calls = Done (Some (wire, sender')) ->
          Forall (fun call => blen (fst call) < 65536) calls ->
          forall segs : list bytes,
            List.concat segs = wire ->
            exists rs receiver' g',
              tcp_recv g receiver segs = Done (rs, receiver', g') /\
              List.length rs = List.length segs /\
              no_error rs /\
              delivered rs = List.concat (map fst calls) /\
              forall k : nat, exists tail,
                delivered (firstn k rs) ++ tail = List.concat (map fst calls).
Proof.
  intros Hm. destruct (aead_key_init_ok m pass Hm) as (c & Hki).
  exists c. split; [exact Hki|]. intros rnd calls g Hrnd Hg.
  destruct (aead_key_init_wf _ _ _ Hki) as (Hwf & _).
  pose proof (cipher_wf_lengths c Hwf) as (Hk & Hn & Ht).
  destruct (aead_ctx_init_ok c true rnd Hwf) as (es & Hes & Hsender).
  destruct (aead_ctx_init_ok c false [] Hwf) as (er & Her & Hreceiver).
  rewrite take_all in Hsender by lia.
  match type of Hsender with _ = Done ?x => set (sender := x) in * end.
  match type of Hreceiver with _ = Done ?x => set (receiver := x) in * end.
  assert (Haws : awaiting c sender) by (unfold awaiting, sender; cbn; auto).
  assert (Hawr : awaiting c receiver) by (unfold awaiting, receiver; cbn; auto).
  exists sender, receiver.
  split; [exact Hsender|]. split; [exact Hreceiver|]. split.
  { intros Hall.
    destruct (tcp_send_awaiting c Hwf calls sender Haws Hrnd Hall) as (wire & sender' & Hsend & _).
    exists wire, sender'. exact Hsend. }
  intros wire0 sender0 Hsend0 Hlt segs Hsegs.
  pose proof (tcp_send_done_bound calls sender _ Hsend0 Hlt) as Hall.
  destruct (tcp_send_awaiting c Hwf calls sender Haws Hrnd Hall) as (wire & sender' & Hsend & Hcases).
  rewrite Hsend in Hsend0. injection Hsend0 as <- <-.
  assert (Hmain : exists rs receiver' g',
            tcp_recv g receiver segs = Done (rs, receiver', g') /\
            List.length rs = List.length segs /\
            no_error rs /\
            delivered rs = List.concat (map fst calls)).
  { destruct Hcases as [(Hnone & ->)|(sk & w & n' & Hsk & -> & Hfr)].
    - destruct (tcp_recv_idle c ltac:(lia) segs receiver g Hawr eq_refl Hsegs)
        as (rs & receiver' & Hrecv & Hlen & Hne & Hdel).
      exists rs, receiver', g. split; [assumption|]. split; [assumption|].
      split; [assumption|].
      rewrite Hdel, <- concat_filter_nonempty, Hnone. reflexivity.
    - destruct (tcp_recv_awaiting c sk rnd _ w n' Hwf Hrnd Hsk Hfr segs receiver g Hawr)
        as (rs & receiver' & g' & Hrecv & Hlen & Hne & Hdel).
      + change (chunk_data receiver) with (@nil byte). change (blen []) with 0. lia.
      + exact Hsegs.
      + exact Hg.
      + exists rs, receiver', g'. split; [assumption|]. split; [assumption|].
        split; [assumption|]. rewrite Hdel. apply concat_filter_nonempty. }
  destruct Hmain as (rs & receiver' & g' & Hrecv & Hlen & Hne & Hdel).
  exists rs, receiver', g'. repeat (split; [assumption|]).
  intros k. exists (delivered (skipn k rs)).
  rewrite <- delivered_app, firstn_skipn. exact Hdel.
Qed.

(** C9. [aead_encrypt] on a zero-length plaintext returns [CRYPTO_OK] with the
    buffer as it was, empty, and with the context, its [init] flag and nonce
    included, unchanged: no chunk and no salt is emitted.  So any run of such
    calls puts nothing on the wire and leaves the context where it was, the
    salt still to be sent with the first payload. *)
Theorem aead_encrypt_empty_plaintext (ctx : cipher_ctx_t) (tmp : bytes) :
  aead_encrypt [] (Some ctx) tmp = Done (CRYPTO_OK, [], Some ctx) /\
  forall calls : list (bytes * bytes),
    Forall (fun call => blen (fst call) = 0) calls ->
    tcp_send ctx calls = Done (Some ([], ctx)).
Proof.
  split; [reflexivity|].
  induction calls as [|[p tmp'] calls IH]; intros Hall; [reflexivity|].
  inversion Hall as [|x l Hp Hall']; subst. cbn [fst] in Hp.
  apply blen_nil_iff in Hp. subst p.
  cbn [tcp_send]. rewrite aead_encrypt_nil. cbn [bind].
  rewrite (IH Hall'). reflexivity.
Qed.

(** C7. The first [aead_encrypt] call with a plaintext of n bytes,
    0 < n <= 0x3FFF, returns [CRYPTO_OK] and a buffer of
    key_len + 2 + tag_len + n + tag_len bytes that begins with the salt,
    followed by the sealed length and the sealed payload: 67 bytes for
    chacha20-ietf-poly1305 (key_len 32, tag_len 16) and n = 1.  The call
    leaves the context established, and every call on an established context
    returns the sealed length and payload alone, 2 + tag_len + n + tag_len
    bytes, and leaves the context established: later calls do not prepend
    the salt. *)
Theorem aead_encrypt_first_call_layout (m : Z) (pass : string) :
  0 <= m < AEAD_CIPHER_NUM ->
  exists c,
    aead_key_init m pass = Done (Some c) /\
    forall rnd P tmp : bytes,
      blen rnd = key_len c ->
      0 < blen P <= CHUNK_SIZE_MASK ->
      exists ctx0 sk c1 c2 ctx1,
        aead_ctx_init c true rnd = Done ctx0 /\
        init ctx0 = false /\ salt ctx0 = rnd /\
        aead_encrypt P (Some ctx0) tmp = Done (CRYPTO_OK, rnd ++ c1 ++ c2, Some ctx1) /\
        blen c1 = CHUNK_SIZE_LEN + tag_len c /\
        blen c2 = blen P + tag_len c /\
        blen (rnd ++ c1 ++ c2) = key_len c + CHUNK_SIZE_LEN + tag_len c + blen P + tag_len c /\
        take (key_len c) (rnd ++ c1 ++ c2) = rnd /\
        (m = aead_init_method (Some "chacha20-ietf-poly1305"%string) -> blen P = 1 ->
           key_len c = 32 /\ tag_len c = 16 /\ blen (rnd ++ c1 ++ c2) = 67) /\
        established c sk ctx1 /\
        (forall (ctx : cipher_ctx_t) (P' tmp' : bytes),
           established c sk ctx -> 0 < blen P' <= CHUNK_SIZE_MASK ->
           exists c1' c2' ctx',
             aead_encrypt P' (Some ctx) tmp' = Done (CRYPTO_OK, c1' ++ c2', Some ctx') /\
             aead_seal (method c) (session_key c sk) (session_nonce c (nonce ctx))
                       (htons (blen P')) = Some c1' /\
             aead_seal (method c) (session_key c sk)
                       (session_nonce c (sodium_increment (nonce ctx) (nonce_len c))) P' = Some c2' /\
             blen (c1' ++ c2') = CHUNK_SIZE_LEN + tag_len c + blen P' + tag_len c /\
             established c sk ctx').
Proof.
  intros Hrange. destruct (aead_key_init_ok m pass Hrange) as (c & Hki).
  exists c. split; [exact Hki|]. intros rnd P tmp Hrnd HP.
  destruct (aead_key_init_wf _ _ _ Hki) as (Hwf & Hm).
  pose proof (cipher_wf_lengths c Hwf) as (Hk & Hn & Ht).
  destruct (aead_ctx_init_ok c true rnd Hwf) as (es & Hes & Hsender).
  rewrite take_all in Hsender by lia.
  match type of Hsender with _ = Done ?x => set (sender := x) in * end.
  assert (Haws : awaiting c sender) by (unfold awaiting, sender; cbn; auto).
  destruct (aead_encrypt_first c sender P tmp Hwf Haws Hrnd HP)
    as (sk & c1 & c2 & ctx1 & Hsk & H1 & H2 & Hl1 & Hl2 & Henc & Hest & Hn1).
  change (salt sender) with rnd in Henc.
  exists sender, sk, c1, c2, ctx1.
  split; [exact Hsender|]. split; [reflexivity|]. split; [reflexivity|].
  split; [exact Henc|]. split; [lia|]. split; [lia|].
  assert (Hlen : blen (rnd ++ c1 ++ c2)
                 = key_len c + CHUNK_SIZE_LEN + tag_len c + blen P + tag_len c)
    by (rewrite !blen_app; lia).
  split; [exact Hlen|].
  split; [rewrite <- Hrnd; apply take_app_exact|].
  split.
  { intros Hm4 HP1. destruct Hwf as (_ & Hkl & _).
    rewrite Hm, Hm4 in Hkl. change (key_len c = 32) in Hkl.
    split; [exact Hkl|]. split; [exact Ht|].
    rewrite Hlen, Hkl, Ht, HP1. reflexivity. }
  split; [exact Hest|].
  intros ctx P' tmp' Hest' HP'.
  destruct (aead_encrypt_established c sk ctx P' tmp' Hwf Hest' HP')
    as (c1' & c2' & H1' & H2' & Hl1' & Hl2' & Henc').
  eexists c1', c2', _. split; [exact Henc'|]. split; [exact H1'|]. split; [exact H2'|].
  split; [rewrite blen_app; lia|]. apply established_set_nonce. exact Hest'.
Qed.

End Streams.

(** ** The chunk loop on arbitrary input *)

Section Chunks.

Context {E : Externals}.

Lemma ntohs_nonneg (b : bytes) : 0 <= ntohs b.
Proof.
  unfold ntohs. destruct b as [|hi [|lo r]]; try lia.
  pose proof (byte_val_range hi). pose proof (byte_val_range lo). lia.
Qed.

(** The three ways [aead_chunk_decrypt] leaves a buffer whose length chunk
    authenticates. *)
Lemma aead_chunk_decrypt_bad_length (ctx : cipher_ctx_t) (cb n len_buf : bytes) :
  2 * tag_len (cipher ctx) + CHUNK_SIZE_LEN < blen cb ->
  aead_cipher_decrypt ctx (take (CHUNK_SIZE_LEN + tag_len (cipher ctx)) cb) n (subkey ctx)
    = Some len_buf ->
  blen len_buf = CHUNK_SIZE_LEN ->
  ntohs len_buf = 0 \/ CHUNK_SIZE_MASK < ntohs len_buf ->
  aead_chunk_decrypt ctx cb n = Done (CRYPTO_ERROR, [], cb, n).
Proof.
  intros Hlen Hdec Hl Hbad. unfold aead_chunk_decrypt.
  destruct (Z.leb_spec (blen cb) (2 * tag_len (cipher ctx) + CHUNK_SIZE_LEN)); [lia|].
  rewrite Hdec, Hl, Z.eqb_refl. cbn [assert bind].
  destruct (Z.gtb_spec (ntohs len_buf) CHUNK_SIZE_MASK) as [|Hle]; [reflexivity|].
  destruct (Z.eqb_spec (ntohs len_buf) 0); [reflexivity|lia].
Qed.

Lemma aead_chunk_decrypt_partial (ctx : cipher_ctx_t) (cb n len_buf : bytes) :
  2 * tag_len (cipher ctx) + CHUNK_SIZE_LEN < blen cb ->
  aead_cipher_decrypt ctx (take (CHUNK_SIZE_LEN + tag_len (cipher ctx)) cb) n (subkey ctx)
    = Some len_buf ->
  blen len_buf = CHUNK_SIZE_LEN ->
  0 < ntohs len_buf <= CHUNK_SIZE_MASK ->
  blen cb < 2 * tag_len (cipher ctx) + CHUNK_SIZE_LEN + ntohs len_buf ->
  aead_chunk_decrypt ctx cb n = Done (CRYPTO_NEED_MORE, [], cb, n).
Proof.
  intros Hlen Hdec Hl Hm Hpart. unfold aead_chunk_decrypt.
  destruct (Z.leb_spec (blen cb) (2 * tag_len (cipher ctx) + CHUNK_SIZE_LEN)); [lia|].
  rewrite Hdec, Hl, Z.eqb_refl. cbn [assert bind].
  destruct (Z.gtb_spec (ntohs len_buf) CHUNK_SIZE_MASK); [lia|].
  destruct (Z.eqb_spec (ntohs len_buf) 0); [lia|].
  destruct (Z.ltb_spec (blen cb) (2 * tag_len (cipher ctx) + CHUNK_SIZE_LEN + ntohs len_buf));
    [reflexivity|lia].
Qed.

Lemma aead_chunk_decrypt_full (ctx : cipher_ctx_t) (cb n len_buf p : bytes) :
  2 * tag_len (cipher ctx) + CHUNK_SIZE_LEN < blen cb ->
  aead_cipher_decrypt ctx (take (CHUNK_SIZE_LEN + tag_len (cipher ctx)) cb) n (subkey ctx)
    = Some len_buf ->
  blen len_buf = CHUNK_SIZE_LEN ->
  0 < ntohs len_buf <= CHUNK_SIZE_MASK ->
  2 * tag_len (cipher ctx) + CHUNK_SIZE_LEN + ntohs len_buf <= blen cb ->
  aead_cipher_decrypt ctx
    (take (ntohs len_buf + tag_len (cipher ctx)) (drop (CHUNK_SIZE_LEN + tag_len (cipher ctx)) cb))
    (sodium_increment n (nonce_len (cipher ctx))) (subkey ctx) = Some p ->
  blen p = ntohs len_buf ->
  aead_chunk_decrypt ctx cb n =
    Done (CRYPTO_OK, p,
          drop (2 * tag_len (cipher ctx) + CHUNK_SIZE_LEN + ntohs len_buf) cb,
          sodium_increment (sodium_increment n (nonce_len (cipher ctx)))
                           (nonce_len (cipher ctx))).
Proof.
  intros Hlen Hdec Hl Hm Hfull Hpay Hp. unfold aead_chunk_decrypt.
  destruct (Z.leb_spec (blen cb) (2 * tag_len (cipher ctx) + CHUNK_SIZE_LEN)); [lia|].
  rewrite Hdec, Hl, Z.eqb_refl. cbn [assert bind].
  destruct (Z.gtb_spec (ntohs len_buf) CHUNK_SIZE_MASK); [lia|].
  destruct (Z.eqb_spec (ntohs len_buf) 0); [lia|].
  destruct (Z.ltb_spec (blen cb) (2 * tag_len (cipher ctx) + CHUNK_SIZE_LEN + ntohs len_buf));
    [lia|].
  rewrite Hpay, Hp, Z.eqb_refl. reflexivity.
Qed.

(** A popped chunk shortens the reassembly buffer. *)
Lemma aead_chunk_decrypt_shrinks (ctx : cipher_ctx_t) (cb n p cb' n' : bytes) :
  0 <= tag_len (cipher ctx) ->
  aead_chunk_decrypt ctx cb n = Done (CRYPTO_OK, p, cb', n') ->
  (List.length cb' < List.length cb)%nat.
Proof.
  intros Ht. unfold aead_chunk_decrypt, CHUNK_SIZE_LEN.
  remember (2 * tag_len (cipher ctx)) as t2 eqn:Ht2.
  destruct (Z.leb_spec (blen cb) (t2 + 2)) as [|Hlen]; [discriminate|].
  destruct (aead_cipher_decrypt ctx _ n (subkey ctx)) as [len_buf|]; [|discriminate].
  destruct (blen len_buf =? 2); cbn [assert bind]; [|discriminate].
  destruct (ntohs len_buf >? CHUNK_SIZE_MASK); [discriminate|].
  destruct (Z.eqb_spec (ntohs len_buf) 0) as [|Hnz]; [discriminate|].
  destruct (Z.ltb_spec (blen cb) (t2 + 2 + ntohs len_buf)) as [|Hfull];
    [discriminate|].
  destruct (aead_cipher_decrypt ctx _ _ (subkey ctx)) as [p0|]; [|discriminate].
  destruct (blen p0 =? ntohs len_buf); cbn [assert bind]; [|discriminate].
  intros [= _ <- _]. pose proof (ntohs_nonneg len_buf).
  unfold drop, blen in *. rewrite length_skipn. lia.
Qed.

(** The loop follows [popped_to], with fuel to spare. *)
Lemma aead_decrypt_loop_popped (ctx : cipher_ctx_t) (acc : bytes)
    (ctx2 : cipher_ctx_t) (acc2 : bytes) :
  popped_to ctx acc ctx2 acc2 ->
  0 <= tag_len (cipher ctx) ->
  forall fuel : nat, (List.length (chunk_data ctx) < fuel)%nat ->
    exists fuel2 : nat,
      (List.length (chunk_data ctx2) < fuel2)%nat /\
      aead_decrypt_loop fuel ctx acc = aead_decrypt_loop fuel2 ctx2 acc2 /\
      cipher ctx2 = cipher ctx.
Proof.
  induction 1 as [ctx acc|ctx acc p cb' n' ctx2 acc2 Hpos Hcd Hrest IH]; intros Ht fuel Hfuel.
  - exists fuel. auto.
  - destruct fuel as [|fuel]; [lia|].
    pose proof (aead_chunk_decrypt_shrinks _ _ _ _ _ _ Ht Hcd) as Hsh.
    destruct (IH Ht fuel) as (fuel2 & Hf2 & Hloop & Hc); [cbn; lia|].
    exists fuel2. split; [exact Hf2|]. split; [|exact Hc].
    cbn [aead_decrypt_loop].
    destruct (Z.gtb_spec (blen (chunk_data ctx)) 0); [|lia].
    rewrite Hcd. cbn [bind]. exact Hloop.
Qed.

(** The chunk loop always returns: with the fuel [aead_decrypt] gives it, it
    never runs out. *)
Lemma aead_decrypt_loop_total (fuel : nat) :
  forall (ctx : cipher_ctx_t) (acc : bytes),
    0 <= tag_len (cipher ctx) ->
    (List.length (chunk_data ctx) < fuel)%nat ->
    aead_decrypt_loop fuel ctx acc <> OutOfFuel.
Proof.
  induction fuel as [|fuel IH]; intros ctx acc Ht Hfuel; [lia|].
  cbn [aead_decrypt_loop].
  destruct (blen (chunk_data ctx) >? 0); [|discriminate].
  destruct (aead_chunk_decrypt ctx (chunk_data ctx) (nonce ctx)) as [[[[err p] cb'] n']| |] eqn:Hcd;
    cbn [bind].
  - destruct err.
    + apply IH; [exact Ht|].
      pose proof (aead_chunk_decrypt_shrinks _ _ _ _ _ _ Ht Hcd). cbn. lia.
    + destruct (blen acc =? 0); discriminate.
    + discriminate.
  - discriminate.
  - exfalso. revert Hcd. unfold aead_chunk_decrypt.
    repeat match goal with
           | |- context [if ?b then _ else _] => destruct b
           | |- context [match ?o with Some _ => _ | None => _ end] => destruct o
           | |- context [assert ?b] => destruct b; cbn [assert bind]
           end; discriminate.
Qed.

Lemma aead_cipher_ctx_set_subkey_cipher (ctx ctx' : cipher_ctx_t) :
  aead_cipher_ctx_set_subkey ctx = Done ctx' -> cipher ctx' = cipher ctx.
Proof.
  unfold aead_cipher_ctx_set_subkey.
  destruct (crypto_generichash_blake2b_salt_personal _ _ _ _); [|discriminate].
  destruct (method (cipher ctx) >=? CHACHA20POLY1305); [intros [= <-]; reflexivity|].
  cbn [evp set_nonce set_subkey].
  destruct (evp ctx); [|discriminate].
  destruct (mbedtls_cipher_setkey _ _ _); [|discriminate].
  intros [= <-]. reflexivity.
Qed.

(** A call that reaches the chunk loop does so with [init] set. *)
Lemma aead_decrypt_salt_through (g : sbf) (ctx0 ctx1 : cipher_ctx_t) (g1 : sbf) :
  aead_decrypt_salt g ctx0 = Done (None, ctx1, g1) ->
  init ctx1 = true /\ cipher ctx1 = cipher ctx0.
Proof.
  unfold aead_decrypt_salt.
  destruct (init ctx0) eqn:Hi; cbn [negb].
  - intros [= <- _]. auto.
  - destruct (blen (chunk_data ctx0) <=? key_len (cipher ctx0)); [discriminate|].
    destruct (aead_cipher_ctx_set_subkey _) as [ctx'| |] eqn:Hss; cbn [bind]; try discriminate.
    destruct (MODULE_REMOTE && _); [discriminate|].
    intros [= <- _]. split; [reflexivity|].
    apply aead_cipher_ctx_set_subkey_cipher in Hss. exact Hss.
Qed.

(** [aead_decrypt] always returns or aborts: the fuel it gives the loop is
    never used up. *)
Lemma aead_decrypt_total (g : sbf) (buf : bytes) (ctx : cipher_ctx_t) :
  0 <= tag_len (cipher ctx) ->
  aead_decrypt g buf ctx <> OutOfFuel.
Proof.
  intros Ht. unfold aead_decrypt.
  destruct (aead_decrypt_salt g _) as [[[early ctx1] g1]| |] eqn:Hsalt; cbn [bind].
  - destruct early as [err|]; [discriminate|].
    destruct (aead_decrypt_salt_through _ _ _ _ Hsalt) as (_ & Hc).
    pose proof (aead_decrypt_loop_total (S (List.length (chunk_data ctx1))) ctx1 []) as Hloop.
    destruct (aead_decrypt_loop _ ctx1 []) as [[[err p] ctx2]| |]; cbn [bind].
    + destruct err; discriminate.
    + discriminate.
    + exfalso. apply Hloop; [rewrite Hc; exact Ht|lia|reflexivity].
  - discriminate.
  - exfalso. revert Hsalt. unfold aead_decrypt_salt, aead_cipher_ctx_set_subkey.
    repeat (match goal with
            | |- context [if ?b then _ else _] => destruct b
            | |- context [match ?o with Some _ => _ | None => _ end] => destruct o
            end; cbn [bind andb]); discriminate.
Qed.

(** C8. Whenever a call of [aead_decrypt] gets to the chunk loop and the
    loop, after popping any number of chunks, stands before a length chunk
    that authenticates and decrypts to a length field of 0 or above 0x3FFF,
    the call returns [CRYPTO_ERROR]: not [CRYPTO_NEED_MORE], and not
    [CRYPTO_OK] either, whatever plaintext the chunks popped before had
    produced; the caller's buffer is left as it was. *)
Theorem aead_decrypt_bad_length_is_error (g : sbf) (buf : bytes) (ctx : cipher_ctx_t)
    (ctx1 : cipher_ctx_t) (g1 : sbf) (ctx2 : cipher_ctx_t) (acc2 len_buf : bytes) :
  0 <= tag_len (cipher ctx) ->
  aead_decrypt_salt g (set_chunk ctx (Some (chunk_data ctx ++ buf))) = Done (None, ctx1, g1) ->
  popped_to ctx1 [] ctx2 acc2 ->
  2 * tag_len (cipher ctx) + CHUNK_SIZE_LEN < blen (chunk_data ctx2) ->
  aead_cipher_decrypt ctx2 (take (CHUNK_SIZE_LEN + tag_len (cipher ctx)) (chunk_data ctx2))
    (nonce ctx2) (subkey ctx2) = Some len_buf ->
  blen len_buf = CHUNK_SIZE_LEN ->
  ntohs len_buf = 0 \/ CHUNK_SIZE_MASK < ntohs len_buf ->
  exists ctx',
    aead_decrypt g buf ctx = Done (CRYPTO_ERROR, buf, ctx', g1) /\
    aead_chunk_decrypt ctx2 (chunk_data ctx2) (nonce ctx2)
      = Done (CRYPTO_ERROR, [], chunk_data ctx2, nonce ctx2).
Proof.
  intros Ht Hsalt Hpop Hlen Hdec Hl Hbad.
  destruct (aead_decrypt_salt_through _ _ _ _ Hsalt) as (_ & Hc1).
  change (cipher (set_chunk ctx (Some (chunk_data ctx ++ buf)))) with (cipher ctx) in Hc1.
  destruct (aead_decrypt_loop_popped _ _ _ _ Hpop ltac:(rewrite Hc1; exact Ht)
              (S (List.length (chunk_data ctx1))) ltac:(lia)) as (fuel2 & Hf2 & Hloop & Hc2).
  rewrite Hc1 in Hc2. rewrite <- Hc2 in Hlen, Hdec.
  pose proof (aead_chunk_decrypt_bad_length ctx2 _ _ _ Hlen Hdec Hl Hbad) as Hcd.
  eexists. split; [|exact Hcd].
  unfold aead_decrypt. rewrite Hsalt. cbn [bind]. rewrite Hloop.
  destruct fuel2 as [|fuel2]; [lia|]. cbn [aead_decrypt_loop].
  destruct (Z.gtb_spec (blen (chunk_data ctx2)) 0) as [_|Hz];
    [|unfold CHUNK_SIZE_LEN in *; rewrite Hc2 in *; lia].
  rewrite Hcd. cbn [bind]. reflexivity.
Qed.

End Chunks.

(** ** Nonces as counters *)

Lemma blen_cons (b : byte) (r : bytes) : blen (b :: r) = blen r + 1.
Proof. unfold blen. cbn [List.length]. lia. Qed.

Lemma blen_take (n : Z) (a : bytes) : 0 <= n <= blen a -> blen (take n a) = n.
Proof.
  unfold take, blen. intros H. rewrite length_firstn. lia.
Qed.

Lemma drop_drop (a b : Z) (l : bytes) : 0 <= a -> 0 <= b ->
  drop a (drop b l) = drop (a + b) l.
Proof.
  intros Ha Hb. unfold drop. rewrite skipn_skipn. f_equal. lia.
Qed.

Lemma drop_zero (l : bytes) : drop 0 l = l.
Proof. reflexivity. Qed.

Lemma le_value_range (n : bytes) : 0 <= le_value n < 256 ^ blen n.
Proof.
  induction n as [|b r IH].
  - cbn. lia.
  - cbn [le_value]. rewrite blen_cons.
    rewrite Z.pow_add_r by (pose proof (blen_nonneg r); lia).
    change (256 ^ 1) with 256. pose proof (byte_val_range b). lia.
Qed.

Lemma le_value_zeros (n : Z) : le_value (zeros n) = 0.
Proof.
  unfold zeros. induction (Z.to_nat n) as [|k IH]; [reflexivity|].
  cbn [repeat le_value]. rewrite IH. reflexivity.
Qed.

Lemma increment_carry_length (n : bytes) :
  forall c : Z, blen (increment_carry c n) = blen n.
Proof.
  induction n as [|b r IH]; intros c; cbn [increment_carry]; [reflexivity|].
  rewrite !blen_cons, IH. reflexivity.
Qed.

(** Adding a carry to a counter adds it to the number, modulo the range of
    the counter. *)
Lemma increment_carry_value (n : bytes) :
  forall c : Z, 0 <= c ->
    le_value (increment_carry c n) = (le_value n + c) mod 256 ^ blen n.
Proof.
  induction n as [|b r IH]; intros c Hc.
  - cbn [increment_carry le_value]. change (256 ^ blen []) with 1.
    rewrite Z.mod_1_r. reflexivity.
  - cbn [increment_carry le_value]. pose proof (byte_val_range b) as Hb.
    rewrite byte_val_of, IH by (apply Z.div_pos; lia).
    rewrite blen_cons, Z.pow_add_r by (pose proof (blen_nonneg r); lia).
    change (256 ^ 1) with 256. rewrite (Z.mul_comm (256 ^ blen r) 256).
    assert (Hpow : 0 < 256 ^ blen r) by (apply Z.pow_pos_nonneg; [lia|apply blen_nonneg]).
    rewrite (Z.rem_mul_r (byte_val b + 256 * le_value r + c)) by lia.
    replace (byte_val b + 256 * le_value r + c) with (c + byte_val b + le_value r * 256) by lia.
    rewrite Z.mod_add, Z.div_add by lia.
    rewrite (Z.add_comm ((c + byte_val b) / 256)). reflexivity.
Qed.

Lemma sodium_increment_counts (n : bytes) (nlen : Z) : blen n = nlen ->
  blen (sodium_increment n nlen) = nlen /\
  le_value (sodium_increment n nlen) = (le_value n + 1) mod 256 ^ nlen.
Proof.
  intros H. unfold sodium_increment. rewrite take_all by lia.
  replace (drop nlen n) with (@nil byte).
  2:{ unfold drop, blen in *. rewrite skipn_all2; [reflexivity|lia]. }
  rewrite app_nil_r. split.
  - rewrite increment_carry_length. exact H.
  - rewrite increment_carry_value by lia. rewrite H. reflexivity.
Qed.

Lemma increments_succ (j : nat) (nlen : Z) (n : bytes) :
  increments (S j) nlen n = sodium_increment (increments j nlen n) nlen.
Proof. reflexivity. Qed.

Lemma increments_two_more (j : nat) (nlen : Z) (n : bytes) :
  increments (2 * S j) nlen n =
  increments (2 * j) nlen (sodium_increment (sodium_increment n nlen) nlen).
Proof.
  unfold increments. replace (2 * S j)%nat with (S (S (2 * j))) by lia.
  rewrite !Nat.iter_succ_r. reflexivity.
Qed.

Lemma increments_counts (nlen : Z) (n : bytes) (j : nat) : blen n = nlen ->
  blen (increments j nlen n) = nlen /\
  le_value (increments j nlen n) = (le_value n + Z.of_nat j) mod 256 ^ nlen.
Proof.
  intros H. induction j as [|j (Hl & Hv)].
  - cbn [increments Nat.iter nat_rect]. split; [exact H|].
    rewrite Z.add_0_r, Z.mod_small; [reflexivity|].
    rewrite <- H. apply le_value_range.
  - rewrite increments_succ.
    destruct (sodium_increment_counts _ _ Hl) as (Hl' & Hv').
    split; [exact Hl'|]. rewrite Hv', Hv, Zplus_mod_idemp_l.
    f_equal. lia.
Qed.

Section NonceCount.

Context {E : Externals} {EOk : ExternalsOk E}.

(** The chunks of a stream use two nonces each. *)
Lemma frames_nonce (c : cipher_t) (sk n : bytes) (ps : list bytes) (w n' : bytes) :
  frames c sk n ps w n' ->
  n' = increments (2 * List.length ps) (nonce_len c) n.
Proof.
  induction 1 as [n|n p ps c1 c2 w n' Hp H1 H2 Hrest IH]; [reflexivity|].
  cbn [List.length]. rewrite increments_two_more. exact IH.
Qed.

(** Each chunk adds a length field and two tags to its payload. *)
Lemma frames_length (c : cipher_t) (sk n : bytes) (ps : list bytes) (w n' : bytes) :
  cipher_wf c ->
  frames c sk n ps w n' ->
  blen w = blen (List.concat ps)
           + Z.of_nat (List.length ps) * (2 * tag_len c + CHUNK_SIZE_LEN).
Proof.
  intros Hwf. pose proof (cipher_wf_lengths _ Hwf) as (Hk & Hn & Ht).
  induction 1 as [n|n p ps c1 c2 w n' Hp H1 H2 Hrest IH]; [reflexivity|].
  pose proof (frames_chunk_lengths _ _ _ _ _ Hwf H1) as Hl1.
  pose proof (frames_chunk_lengths _ _ _ _ _ Hwf H2) as Hl2.
  change (blen (htons (blen p))) with 2 in Hl1.
  cbn [List.concat List.length]. rewrite !blen_app, IH.
  unfold CHUNK_SIZE_LEN. lia.
Qed.

(** A fresh sender after its calls: nothing happened, or the salt and the
    chunks of the payloads went out and the context is established with the
    nonce the chunks left. *)
Lemma tcp_send_fresh (c : cipher_t) :
  cipher_wf c ->
  forall (calls : list (bytes * bytes)) (ctx : cipher_ctx_t),
    awaiting c ctx -> blen (salt ctx) = key_len c ->
    Forall (fun call => blen (fst call) <= CHUNK_SIZE_MASK) calls ->
    exists wire ctx',
      tcp_send ctx calls = Done (Some (wire, ctx')) /\
      ((filter nonempty (map fst calls) = [] /\ wire = [] /\ ctx' = ctx) \/
       (exists sk w,
          filter nonempty (map fst calls) <> [] /\
          session_subkey c (salt ctx) = Some sk /\
          wire = salt ctx ++ w /\
          frames c sk (zeros (nonce_len c)) (filter nonempty (map fst calls)) w (nonce ctx') /\
          established c sk ctx')).
Proof.
  intros Hwf. induction calls as [|[p tmp] calls IH]; intros ctx Haw Hsalt Hall.
  - exists [], ctx. split; [reflexivity|]. left. repeat split.
  - inversion Hall as [|x l Hp Hall']; subst. cbn [fst] in Hp.
    cbn [tcp_send map fst filter].
    destruct (nonempty_spec p) as [(-> & ->)|(Hne & ->)].
    + rewrite aead_encrypt_nil. cbn [bind].
      destruct (IH ctx Haw Hsalt Hall') as (wire & ctx' & Hs & Hcases).
      rewrite Hs. cbn [bind app]. exists wire, ctx'. auto.
    + assert (Hp' : 0 < blen p <= CHUNK_SIZE_MASK) by (pose proof (blen_nonneg p); lia).
      destruct (aead_encrypt_first c ctx p tmp Hwf Haw Hsalt Hp')
        as (sk & c1 & c2 & ctx1 & Hsk & H1 & H2 & Hl1 & Hl2 & Henc & Hest & Hn1).
      rewrite Henc. cbn [bind].
      destruct (tcp_send_established c sk Hwf calls ctx1 Hest Hall') as (w & ctx' & Hs & Hf & He).
      rewrite Hs. cbn [bind]. exists ((salt ctx ++ c1 ++ c2) ++ w), ctx'.
      split; [reflexivity|]. right. exists sk, (c1 ++ c2 ++ w).
      split; [discriminate|].
      split; [assumption|]. split; [rewrite <- !app_assoc; reflexivity|].
      split; [|assumption].
      rewrite Hn1 in Hf. econstructor; eassumption.
Qed.

(** An established receiver that is given the rest of a stream ends with
    the nonce the stream ends with and an empty reassembly buffer. *)
Lemma tcp_recv_established_end (c : cipher_t) (sk : bytes) (g : sbf) :
  cipher_wf c ->
  forall (segs : list bytes) (ctx : cipher_ctx_t) (ps : list bytes) (n' : bytes),
    established c sk ctx -> quiescent c ps ctx ->
    frames c sk (nonce ctx) ps (chunk_data ctx ++ List.concat segs) n' ->
    exists rs ctx',
      tcp_recv g ctx segs = Done (rs, ctx', g) /\
      no_error rs /\
      delivered rs = List.concat ps /\
      established c sk ctx' /\ nonce ctx' = n' /\ chunk_data ctx' = [].
Proof.
  intros Hwf. induction segs as [|s segs IH]; intros ctx ps n' Hest Hq Hfr.
  - exists [], ctx. cbn [tcp_recv List.concat] in *. rewrite app_nil_r in Hfr.
    split; [reflexivity|]. split; [constructor|].
    destruct ps as [|p ps].
    + destruct (frames_nil_inv _ _ _ _ _ Hfr) as (Hcd & Hn). auto.
    + pose proof (frames_cons_length _ _ _ _ _ _ _ Hwf Hfr) as Hlen.
      unfold quiescent in Hq. lia.
  - cbn [tcp_recv List.concat] in *.
    destruct (aead_decrypt_established c sk g ctx ps s (List.concat segs) n' Hwf Hest Hfr)
      as (st & out & ctx' & popped & rest & Hdec & Hps & He & Hf & Hq' & Hst).
    rewrite Hdec. cbn [bind].
    destruct (IH ctx' rest n' He Hq' Hf) as (rs & ctx'' & Hrecv & Hne & Hdel & Hend).
    destruct Hst as [(-> & ->)|(-> & -> & ->)]; rewrite Hrecv; cbn [bind].
    + eexists _, ctx''. split; [reflexivity|].
      split; [constructor; [left; reflexivity|assumption]|].
      split; [|exact Hend].
      rewrite delivered_cons, Hdel, Hps, concat_app. reflexivity.
    + eexists _, ctx''. split; [reflexivity|].
      split; [constructor; [right; reflexivity|assumption]|].
      split; [|exact Hend].
      rewrite delivered_cons, Hdel, Hps. reflexivity.
Qed.

(** The same from a receiver that still waits for the salt; the salt goes
    into the filter once. *)
Lemma tcp_recv_awaiting_end (c : cipher_t) (sk rnd : bytes) (ps : list bytes) (w n' : bytes) :
  cipher_wf c -> blen rnd = key_len c -> session_subkey c rnd = Some sk ->
  frames c sk (zeros (nonce_len c)) ps w n' ->
  ps <> [] ->
  forall (segs : list bytes) (ctx : cipher_ctx_t) (g : sbf),
    awaiting c ctx -> blen (chunk_data ctx) <= key_len c ->
    chunk_data ctx ++ List.concat segs = rnd ++ w ->
    salt_admitted g rnd ->
    exists rs ctx',
      tcp_recv g ctx segs
        = Done (rs, ctx', if MODULE_REMOTE then fst (fs_sbf_add g rnd) else g) /\
      no_error rs /\
      delivered rs = List.concat ps /\
      established c sk ctx' /\ nonce ctx' = n' /\ chunk_data ctx' = [].
Proof.
  intros Hwf Hrnd Hsk Hfr Hps.
  induction segs as [|s segs IH]; intros ctx g Haw Hcd Hwire Hg.
  - exfalso. cbn [List.concat] in Hwire. rewrite app_nil_r in Hwire.
    destruct ps as [|p ps]; [congruence|].
    pose proof (frames_cons_length _ _ _ _ _ _ _ Hwf Hfr) as Hlen.
    rewrite Hwire, blen_app in Hcd.
    pose proof (cipher_wf_lengths _ Hwf) as (_ & _ & Ht).
    pose proof (blen_nonneg p). unfold CHUNK_SIZE_LEN in *. lia.
  - cbn [tcp_recv List.concat] in *.
    destruct (aead_decrypt_awaiting c sk rnd g ctx ps s (List.concat segs) w n'
                Hwf Haw Hrnd Hsk Hwire Hfr Hg)
      as [(Hle & Hdec)|(st & out & ctx' & popped & rest & Hdec & Hpr & He & Hf & Hq' & Hst)];
      rewrite Hdec; cbn [bind].
    + destruct (IH (set_chunk ctx (Some (chunk_data ctx ++ s))) g) as
        (rs & ctx'' & Hrecv & Hne & Hdel & Hend).
      * exact Haw.
      * exact Hle.
      * cbn. rewrite <- app_assoc. exact Hwire.
      * exact Hg.
      * rewrite Hrecv. cbn [bind]. eexists _, ctx''. split; [reflexivity|].
        split; [constructor; [right; reflexivity|assumption]|].
        split; [|exact Hend].
        rewrite delivered_cons. exact Hdel.
    + destruct (tcp_recv_established_end c sk (if MODULE_REMOTE then fst (fs_sbf_add g rnd) else g)
                  Hwf segs ctx' rest n' He Hq' Hf) as (rs & ctx'' & Hrecv & Hne & Hdel & Hend).
      destruct Hst as [(-> & ->)|(-> & -> & ->)]; rewrite Hrecv; cbn [bind].
      * eexists _, ctx''. split; [reflexivity|].
        split; [constructor; [left; reflexivity|assumption]|].
        split; [|exact Hend].
        rewrite delivered_cons, Hdel, Hpr, concat_app. reflexivity.
      * eexists _, ctx''. split; [reflexivity|].
        split; [constructor; [right; reflexivity|assumption]|].
        split; [|exact Hend].
        rewrite delivered_cons, Hdel, Hpr. reflexivity.
Qed.

(** A fresh context of either side is waiting for its first payload. *)
Lemma aead_ctx_init_awaiting (c : cipher_t) (enc : bool) (rnd : bytes) :
  cipher_wf c -> blen rnd = key_len c ->
  exists ctx,
    aead_ctx_init c enc rnd = Done ctx /\
    awaiting c ctx /\
    salt ctx = (if enc then rnd else zeros (key_len c)) /\
    nonce ctx = zeros (nonce_len c) /\
    chunk ctx = None.
Proof.
  intros Hwf Hrnd.
  destruct (aead_ctx_init_ok c enc rnd Hwf) as (e & He & Hinit).
  rewrite take_all in Hinit by lia.
  eexists. split; [exact Hinit|].
  split; [unfold awaiting; cbn; auto|]. repeat split.
Qed.

(** X1. The TCP sender consumes exactly two nonces per chunk: after any
    calls of [aead_encrypt] on a fresh context, k of them with a payload,
    the nonce of the context is the zero nonce incremented 2k times, and the
    bytes put on the wire are the payloads plus a length field and two tags
    per chunk, plus the salt if there was a payload at all. *)
Theorem tcp_send_nonce_count (m : Z) (pass : string) :
  0 <= m < AEAD_CIPHER_NUM ->
  exists c,
    aead_key_init m pass = Done (Some c) /\
    forall (rnd : bytes) (calls : list (bytes * bytes)),
      blen rnd = key_len c ->
      Forall (fun call => blen (fst call) <= CHUNK_SIZE_MASK) calls ->
      exists sender wire sender',
        aead_ctx_init c true rnd = Done sender /\
        tcp_send sender calls = Done (Some (wire, sender')) /\
        nonce sender' =
          increments (2 * List.length (filter nonempty (map fst calls))) (nonce_len c)
                     (zeros (nonce_len c)) /\
        blen wire =
          match filter nonempty (map fst calls) with [] => 0 | _ :: _ => key_len c end
          + blen (List.concat (map fst calls))
          + Z.of_nat (List.length (filter nonempty (map fst calls)))
            * (2 * tag_len c + CHUNK_SIZE_LEN).
Proof.
  intros Hm. destruct (aead_key_init_ok m pass Hm) as (c & Hki).
  exists c. split; [exact Hki|]. intros rnd calls Hrnd Hall.
  destruct (aead_key_init_wf _ _ _ Hki) as (Hwf & _).
  destruct (aead_ctx_init_awaiting c true rnd Hwf Hrnd) as (sender & Hinit & Haw & Hsalt & Hn & _).
  assert (Hsl : blen (salt sender) = key_len c) by (rewrite Hsalt; exact Hrnd).
  destruct (tcp_send_fresh c Hwf calls sender Haw Hsl Hall)
    as (wire & sender' & Hsend & [(Hnone & -> & ->)|(sk & w & Hsome & Hsk & -> & Hfr & Hest)]).
  - exists sender, [], sender. split; [exact Hinit|]. split; [exact Hsend|].
    rewrite <- (concat_filter_nonempty (map fst calls)), Hnone.
    split; [exact Hn|]. reflexivity.
  - exists sender, (salt sender ++ w), sender'. split; [exact Hinit|]. split; [exact Hsend|].
    split; [exact (frames_nonce _ _ _ _ _ _ Hfr)|].
    rewrite blen_app, (frames_length _ _ _ _ _ _ Hwf Hfr), concat_filter_nonempty, Hsl.
    destruct (filter nonempty (map fst calls)); [congruence|]. lia.
Qed.

(** X2. Read as a little-endian number, the nonce of the TCP sender is
    twice the number of chunks sent so far, modulo 256^nonce_len, and it
    keeps its nonce_len bytes. *)
Theorem tcp_send_nonce_value (m : Z) (pass : string) :
  0 <= m < AEAD_CIPHER_NUM ->
  exists c,
    aead_key_init m pass = Done (Some c) /\
    forall (rnd : bytes) (calls : list (bytes * bytes)),
      blen rnd = key_len c ->
      Forall (fun call => blen (fst call) <= CHUNK_SIZE_MASK) calls ->
      exists sender wire sender',
        aead_ctx_init c true rnd = Done sender /\
        tcp_send sender calls = Done (Some (wire, sender')) /\
        blen (nonce sender') = nonce_len c /\
        le_value (nonce sender') =
          (2 * Z.of_nat (List.length (filter nonempty (map fst calls))))
          mod 256 ^ nonce_len c.
Proof.
  intros Hm. destruct (aead_key_init_ok m pass Hm) as (c & Hki).
  exists c. split; [exact Hki|]. intros rnd calls Hrnd Hall.
  destruct (aead_key_init_wf _ _ _ Hki) as (Hwf & _).
  pose proof (cipher_wf_lengths _ Hwf) as (Hk & Hnl & Ht).
  destruct (aead_ctx_init_awaiting c true rnd Hwf Hrnd) as (sender & Hinit & Haw & Hsalt & Hn & _).
  assert (Hsl : blen (salt sender) = key_len c) by (rewrite Hsalt; exact Hrnd).
  assert (Hz : blen (zeros (nonce_len c)) = nonce_len c) by (apply blen_zeros; lia).
  assert (Hcount : forall j : nat,
            blen (increments j (nonce_len c) (zeros (nonce_len c))) = nonce_len c /\
            le_value (increments j (nonce_len c) (zeros (nonce_len c)))
              = Z.of_nat j mod 256 ^ nonce_len c).
  { intros j. destruct (increments_counts (nonce_len c) _ j Hz) as (Hl & Hv).
    split; [exact Hl|]. rewrite Hv, le_value_zeros. reflexivity. }
  destruct (tcp_send_fresh c Hwf calls sender Haw Hsl Hall)
    as (wire & sender' & Hsend & [(Hnone & -> & ->)|(sk & w & Hsome & Hsk & -> & Hfr & Hest)]).
  - exists sender, [], sender. split; [exact Hinit|]. split; [exact Hsend|].
    rewrite Hnone, Hn. destruct (Hcount 0%nat) as (Hl & Hv).
    split; [exact Hl|exact Hv].
  - exists sender, (salt sender ++ w), sender'. split; [exact Hinit|]. split; [exact Hsend|].
    rewrite (frames_nonce _ _ _ _ _ _ Hfr).
    destruct (Hcount (2 * List.length (filter nonempty (map fst calls)))%nat) as (Hl & Hv).
    split; [exact Hl|]. rewrite Hv. f_equal. lia.
Qed.

(** X3. Sender and receiver stay in step.  Take a fresh sender with a salt
    of key_len bytes and calls of at most 0x3FFF bytes each, at least one of
    them with a payload that is not empty, and a fresh receiver whose guard
    admits that salt (it always does in the client build).  When the
    receiver has been given, in any segmentation, all that the sender put on
    the wire, both contexts are established with the same subkey and the
    same nonce, the reassembly buffer is empty and, in the server build, the
    salt has been added to the filter.  The session then goes on: whatever
    the sender emits for further calls of at most 0x3FFF bytes each, the
    receiver turns back into their payloads, in any segmentation and
    whatever the filter, with no error, with the filter left alone and with
    the two nonces equal again. *)
Theorem tcp_session_in_step (m : Z) (pass : string) :
  0 <= m < AEAD_CIPHER_NUM ->
  exists c,
    aead_key_init m pass = Done (Some c) /\
    forall (rnd : bytes) (calls : list (bytes * bytes)) (g : sbf) (segs : list bytes),
      blen rnd = key_len c ->
      salt_admitted g rnd ->
      Forall (fun call => blen (fst call) <= CHUNK_SIZE_MASK) calls ->
      filter nonempty (map fst calls) <> [] ->
      exists sender receiver wire sender',
        aead_ctx_init c true rnd = Done sender /\
        aead_ctx_init c false [] = Done receiver /\
        tcp_send sender calls = Done (Some (wire, sender')) /\
        (List.concat segs = wire ->
         exists rs receiver',
           tcp_recv g receiver segs
             = Done (rs, receiver', if MODULE_REMOTE then fst (fs_sbf_add g rnd) else g) /\
           init sender' = true /\ init receiver' = true /\
           subkey receiver' = subkey sender' /\
           nonce receiver' = nonce sender' /\
           chunk_data receiver' = [] /\
           forall (calls2 : list (bytes * bytes)) (segs2 : list bytes) (g2 : sbf),
             Forall (fun call => blen (fst call) <= CHUNK_SIZE_MASK) calls2 ->
             exists wire2 sender'',
               tcp_send sender' calls2 = Done (Some (wire2, sender'')) /\
               (List.concat segs2 = wire2 ->
                exists rs2 receiver'',
                  tcp_recv g2 receiver' segs2 = Done (rs2, receiver'', g2) /\
                  no_error rs2 /\
                  delivered rs2 = List.concat (map fst calls2) /\
                  nonce receiver'' = nonce sender'')).
Proof.
  intros Hm. destruct (aead_key_init_ok m pass Hm) as (c & Hki).
  exists c. split; [exact Hki|]. intros rnd calls g segs Hrnd Hg Hall Hsome.
  destruct (aead_key_init_wf _ _ _ Hki) as (Hwf & _).
  pose proof (cipher_wf_lengths _ Hwf) as (Hk & Hnl & Ht).
  destruct (aead_ctx_init_awaiting c true rnd Hwf Hrnd) as (sender & Hinit & Haw & Hsalt & Hn & _).
  destruct (aead_ctx_init_awaiting c false rnd Hwf Hrnd)
    as (receiver & Hinitr & Hawr & _ & _ & Hchunk).
  assert (Hinitr' : aead_ctx_init c false [] = Done receiver).
  { rewrite <- Hinitr. reflexivity. }
  assert (Hsl : blen (salt sender) = key_len c) by (rewrite Hsalt; exact Hrnd).
  destruct (tcp_send_fresh c Hwf calls sender Haw Hsl Hall)
    as (wire & sender' & Hsend & [(Hnone & _)|(sk & w & _ & Hsk & -> & Hfr & Hest)]);
    [congruence|].
  exists sender, receiver, (salt sender ++ w), sender'.
  split; [exact Hinit|]. split; [exact Hinitr'|]. split; [exact Hsend|].
  intros Hsegs. rewrite Hsalt in *.
  assert (Hcd : chunk_data receiver = []) by (unfold chunk_data; rewrite Hchunk; reflexivity).
  destruct (tcp_recv_awaiting_end c sk rnd _ w (nonce sender') Hwf Hrnd Hsk Hfr Hsome
              segs receiver g Hawr)
    as (rs & receiver' & Hrecv & Hne & Hdel & Hest' & Hn' & Hcd').
  { rewrite Hcd. change (blen []) with 0. lia. }
  { rewrite Hcd. exact Hsegs. }
  { exact Hg. }
  exists rs, receiver'. split; [exact Hrecv|].
  pose proof Hest as (Hi & _ & Hs & _). pose proof Hest' as (Hi' & _ & Hs' & _).
  split; [exact Hi|]. split; [exact Hi'|]. split; [congruence|].
  split; [exact Hn'|]. split; [exact Hcd'|].
  intros calls2 segs2 g2 Hall2.
  destruct (tcp_send_established c sk Hwf calls2 sender' Hest Hall2)
    as (wire2 & sender'' & Hsend2 & Hfr2 & Hest2).
  exists wire2, sender''. split; [exact Hsend2|]. intros Hsegs2.
  destruct (tcp_recv_established_end c sk g2 Hwf segs2 receiver'
              (filter nonempty (map fst calls2)) (nonce sender'') Hest')
    as (rs2 & receiver'' & Hrecv2 & Hne2 & Hdel2 & _ & Hn2 & _).
  { unfold quiescent. destruct (filter nonempty (map fst calls2)) as [|p ps]; [exact I|].
    rewrite Hcd'. change (blen []) with 0. pose proof (blen_nonneg p).
    unfold CHUNK_SIZE_LEN. lia. }
  { rewrite Hcd', Hn', Hsegs2. exact Hfr2. }
  exists rs2, receiver''. split; [exact Hrecv2|]. split; [exact Hne2|].
  split; [|exact Hn2]. rewrite Hdel2. apply concat_filter_nonempty.
Qed.

(** X4. Only the first 16 bytes of the salt key a TCP session
    ([crypto_generichash_blake2b_SALTBYTES]).  If the salt at the head of a
    stream is replaced by any key_len bytes that agree with it on the first
    16 and that the guard admits, the receiver accepts the stream and
    delivers all of its payloads: the salt bytes from the 17th on are not
    authenticated. *)
Theorem tcp_salt_tail_unauthenticated (m : Z) (pass : string) :
  0 <= m < AEAD_CIPHER_NUM ->
  exists c,
    aead_key_init m pass = Done (Some c) /\
    forall (rnd rnd' : bytes) (calls : list (bytes * bytes)) (g : sbf) (segs : list bytes),
      blen rnd = key_len c ->
      blen rnd' = key_len c ->
      take crypto_generichash_blake2b_SALTBYTES rnd'
        = take crypto_generichash_blake2b_SALTBYTES rnd ->
      salt_admitted g rnd' ->
      Forall (fun call => blen (fst call) <= CHUNK_SIZE_MASK) calls ->
      exists sender receiver wire sender',
        aead_ctx_init c true rnd = Done sender /\
        aead_ctx_init c false [] = Done receiver /\
        tcp_send sender calls = Done (Some (wire, sender')) /\
        (0 < blen wire ->
         List.concat segs = rnd' ++ drop (key_len c) wire ->
         exists rs receiver' g',
           tcp_recv g receiver segs = Done (rs, receiver', g') /\
           no_error rs /\
           delivered rs = List.concat (map fst calls)).
Proof.
  intros Hm. destruct (aead_key_init_ok m pass Hm) as (c & Hki).
  exists c. split; [exact Hki|]. intros rnd rnd' calls g segs Hrnd Hrnd' Hhead Hg Hall.
  destruct (aead_key_init_wf _ _ _ Hki) as (Hwf & _).
  pose proof (cipher_wf_lengths _ Hwf) as (Hk & Hnl & Ht).
  destruct (aead_ctx_init_awaiting c true rnd Hwf Hrnd) as (sender & Hinit & Haw & Hsalt & Hn & _).
  destruct (aead_ctx_init_awaiting c false rnd Hwf Hrnd)
    as (receiver & Hinitr & Hawr & _ & _ & Hchunk).
  assert (Hinitr' : aead_ctx_init c false [] = Done receiver).
  { rewrite <- Hinitr. reflexivity. }
  assert (Hsl : blen (salt sender) = key_len c) by (rewrite Hsalt; exact Hrnd).
  assert (Hcd : chunk_data receiver = []) by (unfold chunk_data; rewrite Hchunk; reflexivity).
  destruct (tcp_send_fresh c Hwf calls sender Haw Hsl Hall)
    as (wire & sender' & Hsend & [(Hnone & -> & _)|(sk & w & Hsome & Hsk & -> & Hfr & Hest)]).
  - exists sender, receiver, [], sender'.
    split; [exact Hinit|]. split; [exact Hinitr'|]. split; [exact Hsend|].
    intros Hpos. change (blen []) with 0 in Hpos. lia.
  - exists sender, receiver, (salt sender ++ w), sender'.
    split; [exact Hinit|]. split; [exact Hinitr'|]. split; [exact Hsend|].
    intros _ Hsegs. rewrite <- Hsl, drop_app_exact in Hsegs.
    assert (Hsk' : session_subkey c rnd' = Some sk).
    { rewrite Hsalt in Hsk. unfold session_subkey in *. rewrite Hhead. exact Hsk. }
    destruct (tcp_recv_awaiting c sk rnd' _ w (nonce sender') Hwf Hrnd' Hsk' Hfr segs receiver g Hawr)
      as (rs & receiver' & g' & Hrecv & _ & Hne & Hdel).
    { rewrite Hcd. change (blen []) with 0. lia. }
    { rewrite Hcd. exact Hsegs. }
    { exact Hg. }
    exists rs, receiver', g'. split; [exact Hrecv|]. split; [exact Hne|].
    rewrite Hdel. apply concat_filter_nonempty.
Qed.

End NonceCount.

(** ** Key setup on every method id *)

Section KeyInit.

Context {E : Externals}.

Lemma illegal_method_spec (m : Z) :
  illegal_method m = true <-> (m < AES128GCM \/ AEAD_CIPHER_NUM <= m).
Proof.
  unfold illegal_method. rewrite orb_true_iff, Z.ltb_lt, Z.geb_le. reflexivity.
Qed.

Lemma legal_method_spec (m : Z) :
  illegal_method m = false <-> 0 <= m < AEAD_CIPHER_NUM.
Proof.
  unfold illegal_method, AES128GCM. rewrite orb_false_iff, Z.ltb_ge.
  destruct (Z.geb_spec m AEAD_CIPHER_NUM); intuition (try lia; try discriminate).
Qed.

Lemma aead_init_method_range (name : option string) :
  0 <= aead_init_method name < AEAD_CIPHER_NUM.
Proof.
  unfold aead_init_method, AEAD_CIPHER_NUM, AES256GCM, AES128GCM.
  destruct name as [name|]; [|lia].
  pose proof (aead_init_scan_range name supported_aead_ciphers 0) as Hr.
  destruct (Z.geb_spec (aead_init_scan name 0 supported_aead_ciphers) 6); lia.
Qed.

(** X5. [aead_key_init] returns NULL exactly for the method ids outside
    0..5.  A cipher it returns carries the method id, the key, nonce and tag
    lengths of the catalog and, as key, the BLAKE2b hash of the password over
    key_len bytes; its cipher description is the one mbed TLS has under the
    GCM name of the method, or, for the ChaCha family, a description made up
    from the catalog. *)
Theorem aead_key_init_null_iff_illegal (m : Z) (pass : string) :
  (aead_key_init m pass = Done None <-> (m < AES128GCM \/ AEAD_CIPHER_NUM <= m)) /\
  (forall c : cipher_t,
     aead_key_init m pass = Done (Some c) ->
     method c = m /\
     0 <= m < AEAD_CIPHER_NUM /\
     key_len c = table supported_aead_ciphers_key_size 0 m /\
     nonce_len c = table supported_aead_ciphers_nonce_size 0 m /\
     tag_len c = 16 /\
     crypto_generichash (key_len c) pass = Some (key c) /\
     (m < CHACHA20POLY1305 ->
        info c <> None /\
        info c = mbedtls_cipher_info_from_string
                   (table supported_aead_ciphers_mbedtls CIPHER_UNSUPPORTED m)) /\
     (CHACHA20POLY1305 <= m ->
        info c = Some {| key_bitlen := key_len c * 8; iv_size := nonce_len c |})).
Proof.
  split.
  - rewrite <- illegal_method_spec. unfold aead_key_init, aead_derive_key.
    destruct (illegal_method m); [intuition reflexivity|].
    split; [|discriminate].
    match goal with |- context [bind ?o _] => destruct o end; cbn [bind]; try discriminate.
    destruct (crypto_generichash _ pass); cbn [bind]; try discriminate.
    destruct (_ =? 0); cbn [bind]; discriminate.
  - intros c. unfold aead_key_init, aead_derive_key.
    destruct (illegal_method m) eqn:Hill; [discriminate|].
    apply legal_method_spec in Hill.
    destruct (Z.geb_spec m CHACHA20POLY1305) as [Hge|Hlt]; cbn [bind].
    + destruct (crypto_generichash _ pass) as [k|] eqn:Hk; cbn [bind]; try discriminate.
      destruct (_ =? 0); cbn [bind]; try discriminate.
      intros [= <-]. cbn [method key_len nonce_len tag_len key info].
      repeat split; try lia; try assumption.
      destruct (method_cases m Hill) as [-> | [-> | [-> | [-> | [-> | ->]]]]]; reflexivity.
    + destruct (aead_get_cipher_type m) as [ci|] eqn:Hci; cbn [Z.eqb bind]; try discriminate.
      destruct (crypto_generichash _ pass) as [k|] eqn:Hk; cbn [bind]; try discriminate.
      destruct (_ =? 0); cbn [bind]; try discriminate.
      intros [= <-]. cbn [method key_len nonce_len tag_len key info].
      repeat split; try lia; try assumption; try discriminate.
      * destruct (method_cases m Hill) as [-> | [-> | [-> | [-> | [-> | ->]]]]]; reflexivity.
      * rewrite <- Hci. unfold aead_get_cipher_type.
        destruct (illegal_method m) eqn:Hill'; [apply illegal_method_spec in Hill'; unfold AES128GCM in *; lia|].
        destruct (Z.geb_spec m CHACHA20POLY1305); [lia|].
        assert (Hc : m = 0 \/ m = 1 \/ m = 2) by (unfold CHACHA20POLY1305 in *; lia).
        destruct Hc as [-> | [-> | ->]]; reflexivity.
Qed.

(** X6. [aead_init] never returns NULL: whatever the method name, NULL,
    known or unknown, the id it hands to [aead_key_init] is a legal one, and
    a cipher it returns has the lengths of the catalog for that id. *)
Theorem aead_init_never_null (pass : string) (name : option string) :
  aead_init pass name <> Done None /\
  0 <= aead_init_method name < AEAD_CIPHER_NUM /\
  forall c : cipher_t,
    aead_init pass name = Done (Some c) ->
    method c = aead_init_method name /\
    key_len c = table supported_aead_ciphers_key_size 0 (aead_init_method name) /\
    nonce_len c = table supported_aead_ciphers_nonce_size 0 (aead_init_method name) /\
    tag_len c = 16.
Proof.
  pose proof (aead_init_method_range name) as Hr.
  split; [|split; [exact Hr|]].
  - unfold aead_init, aead_key_init, aead_derive_key.
    apply legal_method_spec in Hr. rewrite Hr.
    match goal with |- context [bind ?o _] => destruct o end; cbn [bind]; try discriminate.
    destruct (crypto_generichash _ pass); cbn [bind]; try discriminate.
    destruct (_ =? 0); cbn [bind]; discriminate.
  - intros c. unfold aead_init, aead_key_init, aead_derive_key.
    apply legal_method_spec in Hr. rewrite Hr.
    match goal with |- context [bind ?o _] => destruct o end; cbn [bind]; try discriminate.
    destruct (crypto_generichash _ pass); cbn [bind]; try discriminate.
    destruct (_ =? 0); cbn [bind]; try discriminate.
    intros [= <-]. cbn [method key_len nonce_len tag_len].
    repeat split.
    apply legal_method_spec in Hr.
    destruct (method_cases _ Hr) as [-> | [-> | [-> | [-> | [-> | ->]]]]]; reflexivity.
Qed.

(** The adapter has no primitive for a method id outside the catalog. *)
Lemma aead_cipher_no_method (ctx : cipher_ctx_t) (msg n k : bytes) :
  method (cipher ctx) < AES128GCM \/ AEAD_CIPHER_NUM <= method (cipher ctx) ->
  aead_cipher_encrypt ctx msg n k = None /\ aead_cipher_decrypt ctx msg n k = None.
Proof.
  unfold AES128GCM, AEAD_CIPHER_NUM. intros H.
  unfold aead_cipher_encrypt, aead_cipher_decrypt, is_gcm,
    AES128GCM, AES192GCM, AES256GCM, CHACHA20POLY1305, CHACHA20POLY1305IETF,
    XCHACHA20POLY1305IETF.
  repeat match goal with
         | |- context [?a =? ?b] => destruct (Z.eqb_spec a b); [lia|]
         end.
  cbn [orb]. split; reflexivity.
Qed.

End KeyInit.

(** ** The primitive adapter and single chunks *)

Section Adapter.

Context {E : Externals} {EOk : ExternalsOk E}.

Lemma session_nonce_idem (c : cipher_t) (n n2 : bytes) :
  take (nonce_len c) n2 = take (nonce_len c) n -> session_nonce c n2 = session_nonce c n.
Proof. intros H. exact H. Qed.

(** X7. The two adapters invert each other.  A context made by
    [aead_ctx_init] and keyed by [aead_cipher_ctx_udp_set_key] (master key)
    or by [aead_cipher_ctx_set_subkey] (session subkey) seals every message
    into a ciphertext tag_len bytes longer, which [aead_cipher_decrypt] of
    the same context, nonce and key opens to the message; only the first
    nonce_len bytes of the nonce buffer count.  For a method id outside the
    catalog both adapters return an error. *)
Theorem aead_cipher_round_trip :
  (forall (ctx : cipher_ctx_t) (msg n k : bytes),
     method (cipher ctx) < AES128GCM \/ AEAD_CIPHER_NUM <= method (cipher ctx) ->
     aead_cipher_encrypt ctx msg n k = None /\ aead_cipher_decrypt ctx msg n k = None) /\
  (forall (m : Z) (pass : string),
     0 <= m < AEAD_CIPHER_NUM ->
     exists c,
       aead_key_init m pass = Done (Some c) /\
       forall (enc : bool) (rnd msg n : bytes),
       exists ctx0 udp tcp ct ct',
         aead_ctx_init c enc rnd = Done ctx0 /\
         aead_cipher_ctx_udp_set_key ctx0 = Done udp /\
         aead_cipher_encrypt udp msg n (key c) = Some ct /\
         blen ct = blen msg + tag_len c /\
         aead_cipher_decrypt udp ct n (key c) = Some msg /\
         aead_cipher_ctx_set_subkey ctx0 = Done tcp /\
         nonce tcp = zeros (nonce_len c) /\
         aead_cipher_encrypt tcp msg n (subkey tcp) = Some ct' /\
         blen ct' = blen msg + tag_len c /\
         aead_cipher_decrypt tcp ct' n (subkey tcp) = Some msg /\
         forall n2 : bytes,
           take (nonce_len c) n2 = take (nonce_len c) n ->
           aead_cipher_encrypt udp msg n2 (key c) = Some ct /\
           aead_cipher_encrypt tcp msg n2 (subkey tcp) = Some ct').
Proof.
  split; [apply aead_cipher_no_method|].
  intros m pass Hm. destruct (aead_key_init_ok m pass Hm) as (c & Hki).
  exists c. split; [exact Hki|]. intros enc rnd msg n.
  destruct (aead_key_init_wf _ _ _ Hki) as (Hwf & _).
  pose proof (cipher_wf_lengths _ Hwf) as (Hk & Hnl & Ht).
  destruct (aead_ctx_init_ok c enc rnd Hwf) as (e & He & Hinit).
  match type of Hinit with _ = Done ?x => set (ctx0 := x) in * end.
  destruct (aead_cipher_ctx_udp_set_key_ok ctx0 Hwf He) as (eu & Heu & Hudp).
  destruct (aead_cipher_ctx_set_subkey_ok ctx0 Hwf He) as (sk & et & Hsk & Het & Htcp).
  match type of Htcp with _ = Done ?x => set (tcp := x) in * end.
  set (udp := set_evp ctx0 eu) in *.
  destruct (seal_ok (method c) (session_key c (key c)) (session_nonce c n) msg)
    as (ct & Hct & Hlct); [apply Hwf|].
  destruct (seal_ok (method c) (session_key c sk) (session_nonce c n) msg)
    as (ct' & Hct' & Hlct'); [apply Hwf|].
  assert (Hencu : forall n2, take (nonce_len c) n2 = take (nonce_len c) n ->
            aead_cipher_encrypt udp msg n2 (key c) = Some ct).
  { intros n2 Hn2. rewrite (aead_cipher_encrypt_keyed udp (key c)) by assumption.
    change (cipher udp) with c. rewrite (session_nonce_idem c n n2 Hn2). exact Hct. }
  assert (Henct : forall n2, take (nonce_len c) n2 = take (nonce_len c) n ->
            aead_cipher_encrypt tcp msg n2 sk = Some ct').
  { intros n2 Hn2. rewrite (aead_cipher_encrypt_keyed tcp sk) by assumption.
    change (cipher tcp) with c. rewrite (session_nonce_idem c n n2 Hn2). exact Hct'. }
  exists ctx0, udp, tcp, ct, ct'.
  split; [exact Hinit|]. split; [exact Hudp|].
  split; [apply Hencu; reflexivity|]. split; [lia|].
  split.
  { rewrite (aead_cipher_decrypt_keyed udp (key c)) by assumption.
    apply open_seal; [apply Hwf|exact Hct]. }
  split; [exact Htcp|]. split; [reflexivity|].
  split; [apply Henct; reflexivity|]. split; [lia|].
  split.
  { rewrite (aead_cipher_decrypt_keyed tcp sk) by assumption.
    apply open_seal; [apply Hwf|exact Hct']. }
  intros n2 Hn2. split; [apply Hencu; exact Hn2|apply Henct; exact Hn2].
Qed.

(** [aead_chunk_encrypt] with a length argument the [assert] lets through
    and a buffer of at least that many bytes. *)
Lemma aead_chunk_encrypt_sealed (c : cipher_t) (sk : bytes) (ctx : cipher_ctx_t)
    (p n : bytes) (plen : Z) :
  cipher_wf c -> established c sk ctx ->
  0 <= plen <= CHUNK_SIZE_MASK -> plen <= blen p ->
  exists c1 c2,
    aead_seal (method c) (session_key c sk) (session_nonce c n) (htons plen) = Some c1 /\
    aead_seal (method c) (session_key c sk)
              (session_nonce c (sodium_increment n (nonce_len c))) (take plen p) = Some c2 /\
    blen c1 = CHUNK_SIZE_LEN + 16 /\
    blen c2 = plen + 16 /\
    aead_chunk_encrypt ctx p n plen =
      Done (CRYPTO_OK, c1 ++ c2,
            sodium_increment (sodium_increment n (nonce_len c)) (nonce_len c)).
Proof.
  intros Hwf (Hi & Hc & Hsk & He) Hp Hle. subst c sk.
  pose proof (cipher_wf_lengths _ Hwf) as (Hk & Hn & Ht).
  unfold CHUNK_SIZE_MASK, CHUNK_SIZE_LEN in *.
  destruct (seal_ok (method (cipher ctx)) (session_key (cipher ctx) (subkey ctx))
              (session_nonce (cipher ctx) n) (htons plen)) as (c1 & Hc1 & Hl1);
    [apply Hwf|].
  destruct (seal_ok (method (cipher ctx)) (session_key (cipher ctx) (subkey ctx))
              (session_nonce (cipher ctx) (sodium_increment n (nonce_len (cipher ctx))))
              (take plen p))
    as (c2 & Hc2 & Hl2); [apply Hwf|].
  rewrite blen_take in Hl2 by lia.
  exists c1, c2. repeat split; try assumption.
  unfold aead_chunk_encrypt, CHUNK_SIZE_MASK, CHUNK_SIZE_LEN.
  destruct (Z.leb_spec plen 16383) as [_|Hgt]; [|lia]. cbn [assert bind].
  rewrite Z.min_l by lia.
  rewrite !aead_cipher_encrypt_keyed by assumption.
  rewrite Hc1. rewrite Ht, Hl1.
  change (blen (htons plen)) with 2. rewrite Z.eqb_refl. cbn [assert bind].
  rewrite Hc2, Hl2, Z.eqb_refl. reflexivity.
Qed.

(** X8. One chunk, there and back.  On an established context
    [aead_chunk_encrypt] turns a payload of at most 0x3FFF bytes into
    2 + tag_len + len + tag_len bytes and advances the nonce twice.
    [aead_chunk_decrypt] of the same context and starting nonce, given those
    bytes followed by anything, returns the payload, leaves what followed as
    the reassembly bytes and arrives at the same nonce, if the payload was
    not empty.  The chunk of an empty payload is never accepted: alone it is
    answered with [CRYPTO_NEED_MORE], followed by any byte with
    [CRYPTO_ERROR]. *)
Theorem aead_chunk_round_trip (c : cipher_t) (sk : bytes) (ctx : cipher_ctx_t)
    (p n rest : bytes) :
  cipher_wf c -> established c sk ctx ->
  blen p <= CHUNK_SIZE_MASK ->
  exists body n2,
    aead_chunk_encrypt ctx p n (blen p) = Done (CRYPTO_OK, body, n2) /\
    blen body = 2 * tag_len c + CHUNK_SIZE_LEN + blen p /\
    n2 = increments 2 (nonce_len c) n /\
    (0 < blen p ->
     aead_chunk_decrypt ctx (body ++ rest) n = Done (CRYPTO_OK, p, rest, n2)) /\
    (blen p = 0 ->
     aead_chunk_decrypt ctx body n = Done (CRYPTO_NEED_MORE, [], body, n) /\
     (0 < blen rest ->
      aead_chunk_decrypt ctx (body ++ rest) n = Done (CRYPTO_ERROR, [], body ++ rest, n))).
Proof.
  intros Hwf Hest Hp.
  pose proof (cipher_wf_lengths _ Hwf) as (Hk & Hn & Ht).
  pose proof (blen_nonneg p) as Hp0. pose proof (blen_nonneg rest) as Hr0.
  destruct (aead_chunk_encrypt_sealed c sk ctx p n (blen p) Hwf Hest)
    as (c1 & c2 & H1 & H2 & Hl1 & Hl2 & Henc); [lia|lia|].
  rewrite take_all in H2 by lia.
  exists (c1 ++ c2), (sodium_increment (sodium_increment n (nonce_len c)) (nonce_len c)).
  split; [exact Henc|].
  split; [rewrite blen_app; unfold CHUNK_SIZE_LEN in *; lia|].
  split; [reflexivity|].
  pose proof Hest as (Hi & Hc & Hsk & He). subst c sk.
  assert (Hcb : forall tail : bytes, (c1 ++ c2) ++ tail = c1 ++ c2 ++ tail)
    by (intros tail; rewrite app_assoc; reflexivity).
  assert (Hlen1 : forall tail : bytes,
            aead_cipher_decrypt ctx
              (take (CHUNK_SIZE_LEN + tag_len (cipher ctx)) ((c1 ++ c2) ++ tail))
              n (subkey ctx) = Some (htons (blen p))).
  { intros tail. rewrite aead_cipher_decrypt_keyed by assumption.
    rewrite Hcb, Ht, <- Hl1, take_app_exact.
    apply open_seal; [apply Hwf|exact H1]. }
  split.
  - intros Hpos.
    replace rest with (drop (2 * tag_len (cipher ctx) + CHUNK_SIZE_LEN + ntohs (htons (blen p)))
                            ((c1 ++ c2) ++ rest)) at 2.
    2:{ rewrite ntohs_htons by (unfold CHUNK_SIZE_MASK in *; lia).
        replace (2 * tag_len (cipher ctx) + CHUNK_SIZE_LEN + blen p) with (blen (c1 ++ c2))
          by (rewrite blen_app; unfold CHUNK_SIZE_LEN in *; lia).
        apply drop_app_exact. }
    apply aead_chunk_decrypt_full.
    + rewrite !blen_app. unfold CHUNK_SIZE_LEN in *. lia.
    + apply Hlen1.
    + reflexivity.
    + rewrite ntohs_htons by (unfold CHUNK_SIZE_MASK in *; lia). lia.
    + rewrite ntohs_htons by (unfold CHUNK_SIZE_MASK in *; lia).
      rewrite !blen_app. unfold CHUNK_SIZE_LEN in *. lia.
    + rewrite ntohs_htons by (unfold CHUNK_SIZE_MASK in *; lia).
      rewrite aead_cipher_decrypt_keyed by assumption.
      rewrite Hcb, Ht, <- Hl1, drop_app_exact, <- Hl2, take_app_exact.
      apply open_seal; [apply Hwf|exact H2].
    + rewrite ntohs_htons by (unfold CHUNK_SIZE_MASK in *; lia). reflexivity.
  - intros Hzero. split.
    + unfold aead_chunk_decrypt.
      destruct (Z.leb_spec (blen (c1 ++ c2)) (2 * tag_len (cipher ctx) + CHUNK_SIZE_LEN))
        as [_|Hgt]; [reflexivity|].
      rewrite blen_app in Hgt. unfold CHUNK_SIZE_LEN in *. lia.
    + intros Hrest.
      apply (aead_chunk_decrypt_bad_length ctx ((c1 ++ c2) ++ rest) n (htons (blen p))).
      * rewrite !blen_app. unfold CHUNK_SIZE_LEN in *. lia.
      * apply Hlen1.
      * reflexivity.
      * left. rewrite Hzero. reflexivity.
Qed.

End Adapter.

(** ** Payloads beyond the chunk size *)

Section Oversize.

Context {E : Externals} {EOk : ExternalsOk E}.


End Oversize.

(** ** What a failed call leaves behind *)

Section Failures.

Context {E : Externals}.

Lemma aead_chunk_encrypt_status (ctx : cipher_ctx_t) (p n : bytes) (plen : Z)
    (st : crypto_status) (body n' : bytes) :
  aead_chunk_encrypt ctx p n plen = Done (st, body, n') -> st <> CRYPTO_NEED_MORE.
Proof.
  unfold aead_chunk_encrypt.
  destruct (plen <=? CHUNK_SIZE_MASK); cbn [assert bind]; [|discriminate].
  destruct (aead_cipher_encrypt ctx _ n (subkey ctx)) as [c1|]; [|intros [= <- _ _]; discriminate].
  destruct (blen c1 =? _); cbn [assert bind]; [|discriminate].
  destruct (aead_cipher_encrypt ctx _ _ (subkey ctx)) as [c2|]; [|intros [= <- _ _]; discriminate].
  destruct (blen c2 =? _); cbn [assert bind]; [|discriminate].
  intros [= <- _ _]. discriminate.
Qed.

Lemma aead_decrypt_salt_guard (g : sbf) (ctx0 : cipher_ctx_t)
    (early : option crypto_status) (ctx1 : cipher_ctx_t) (g1 : sbf) :
  aead_decrypt_salt g ctx0 = Done (early, ctx1, g1) ->
  (init ctx0 = true -> g1 = g) /\
  (MODULE_REMOTE = false -> g1 = g) /\
  (early <> None -> g1 = g).
Proof.
  unfold aead_decrypt_salt.
  destruct (init ctx0); cbn [negb].
  - intros [= _ _ <-]. auto.
  - destruct (blen (chunk_data ctx0) <=? key_len (cipher ctx0)); [intros [= _ _ <-]; auto|].
    destruct (aead_cipher_ctx_set_subkey _) as [ctx'| |]; cbn [bind]; try discriminate.
    destruct MODULE_REMOTE.
    + destruct (fs_sbf_check g (salt ctx') =? 1); cbn [andb].
      * intros [= _ _ <-]. auto.
      * intros [= <- _ _]. repeat split; intros; congruence.
    + cbn [andb]. intros [= <- _ <-]. repeat split; intros; congruence.
Qed.

(** X10. No partial output.  Each of the four entry points leaves the
    caller's buffer as it was unless it returns [CRYPTO_OK];
    [aead_encrypt] never returns [CRYPTO_NEED_MORE].  The salt filter is only
    ever changed in the server build, by [aead_decrypt_all] when it returns
    [CRYPTO_OK], and by the [aead_decrypt] call that takes the salt off the
    stream: a call on a context with [init] set leaves it alone. *)
Theorem errors_leave_the_buffer :
  (forall (P : bytes) (ctx : option cipher_ctx_t) (tmp : bytes)
          (st : crypto_status) (out : bytes) (ctx' : option cipher_ctx_t),
     aead_encrypt P ctx tmp = Done (st, out, ctx') ->
     st <> CRYPTO_NEED_MORE /\ (st <> CRYPTO_OK -> out = P) /\ (ctx = None -> st = CRYPTO_ERROR)) /\
  (forall (g : sbf) (buf : bytes) (ctx : cipher_ctx_t)
          (st : crypto_status) (out : bytes) (ctx' : cipher_ctx_t) (g' : sbf),
     aead_decrypt g buf ctx = Done (st, out, ctx', g') ->
     (st <> CRYPTO_OK -> out = buf) /\
     (init ctx = true -> g' = g) /\
     (MODULE_REMOTE = false -> g' = g)) /\
  (forall (P : bytes) (c : cipher_t) (rnd : bytes) (st : crypto_status) (out : bytes),
     aead_encrypt_all P c rnd = Done (st, out) ->
     st <> CRYPTO_NEED_MORE /\ (st <> CRYPTO_OK -> out = P)) /\
  (forall (g : sbf) (ct : bytes) (c : cipher_t) (tmp : bytes)
          (st : crypto_status) (out : bytes) (g' : sbf),
     aead_decrypt_all g ct c tmp = Done (st, out, g') ->
     st <> CRYPTO_NEED_MORE /\
     (st <> CRYPTO_OK -> out = ct /\ g' = g) /\
     (MODULE_REMOTE = false -> g' = g)).
Proof.
  split; [|split; [|split]].
  - intros P ctx tmp st out ctx'. unfold aead_encrypt.
    destruct ctx as [ctx|].
    2:{ intros [= <- <- _]. repeat split; try discriminate. }
    destruct (blen P =? 0).
    { intros [= <- <- _]. repeat split; try discriminate; try (intros H; contradiction). }
    match goal with |- context [bind ?o _] => destruct o as [[head ctx1]| |] end;
      cbn [bind]; try discriminate.
    destruct (aead_chunk_encrypt _ _ _ _) as [[[err body] n]| |] eqn:Hce;
      cbn [bind]; try discriminate.
    pose proof (aead_chunk_encrypt_status _ _ _ _ _ _ _ Hce) as Hst.
    destruct err; intros [= <- <- _]; repeat split; try discriminate; try contradiction;
      try (intros H; contradiction).
  - intros g buf ctx st out ctx' g'. unfold aead_decrypt.
    destruct (aead_decrypt_salt g _) as [[[early ctx1] g1]| |] eqn:Hsalt;
      cbn [bind]; try discriminate.
    destruct (aead_decrypt_salt_guard _ _ _ _ _ Hsalt) as (Hg1 & Hg2 & _).
    change (init (set_chunk ctx (Some (chunk_data ctx ++ buf)))) with (init ctx) in Hg1.
    destruct early as [err|].
    { intros [= <- <- _ <-]. auto. }
    destruct (aead_decrypt_loop _ ctx1 []) as [[[err p] ctx2]| |]; cbn [bind]; try discriminate.
    destruct err; intros [= <- <- _ <-]; repeat split; auto; intros H; contradiction.
  - intros P c rnd st out. unfold aead_encrypt_all.
    destruct (aead_ctx_init c true rnd) as [ctx0| |]; cbn [bind]; try discriminate.
    destruct (aead_cipher_ctx_udp_set_key ctx0) as [ctx| |]; cbn [bind]; try discriminate.
    destruct (aead_cipher_encrypt _ _ _ _) as [ct|].
    + destruct (_ =? blen ct); cbn [assert bind]; try discriminate.
      intros [= <- <-]. split; [discriminate|]. intros H; contradiction.
    + intros [= <- <-]. split; [discriminate|]. reflexivity.
  - intros g ct c tmp st out g'. unfold aead_decrypt_all.
    destruct (blen ct <=? _).
    { intros [= <- <- <-]. repeat split; discriminate. }
    destruct (aead_ctx_init c false []) as [ctx0| |]; cbn [bind]; try discriminate.
    destruct (MODULE_REMOTE && _) eqn:Hrep.
    { intros [= <- <- <-]. repeat split; discriminate. }
    destruct (aead_cipher_ctx_udp_set_key _) as [ctx| |]; cbn [bind]; try discriminate.
    destruct (aead_cipher_decrypt _ _ _ _) as [p|].
    + intros [= <- <- <-]. split; [discriminate|]. split; [intros H; contradiction|].
      intros ->. reflexivity.
    + intros [= <- <- <-]. repeat split; discriminate.
Qed.

(** The two ways [aead_chunk_decrypt] fails on a tag. *)
Lemma aead_chunk_decrypt_bad_length_tag (ctx : cipher_ctx_t) (cb n : bytes) :
  2 * tag_len (cipher ctx) + CHUNK_SIZE_LEN < blen cb ->
  aead_cipher_decrypt ctx (take (CHUNK_SIZE_LEN + tag_len (cipher ctx)) cb) n (subkey ctx)
    = None ->
  aead_chunk_decrypt ctx cb n = Done (CRYPTO_ERROR, [], cb, n).
Proof.
  intros Hlen Hdec. unfold aead_chunk_decrypt.
  destruct (Z.leb_spec (blen cb) (2 * tag_len (cipher ctx) + CHUNK_SIZE_LEN)); [lia|].
  rewrite Hdec. reflexivity.
Qed.

Lemma aead_chunk_decrypt_bad_payload_tag (ctx : cipher_ctx_t) (cb n len_buf : bytes) :
  2 * tag_len (cipher ctx) + CHUNK_SIZE_LEN < blen cb ->
  aead_cipher_decrypt ctx (take (CHUNK_SIZE_LEN + tag_len (cipher ctx)) cb) n (subkey ctx)
    = Some len_buf ->
  blen len_buf = CHUNK_SIZE_LEN ->
  0 < ntohs len_buf <= CHUNK_SIZE_MASK ->
  2 * tag_len (cipher ctx) + CHUNK_SIZE_LEN + ntohs len_buf <= blen cb ->
  aead_cipher_decrypt ctx
    (take (ntohs len_buf + tag_len (cipher ctx)) (drop (CHUNK_SIZE_LEN + tag_len (cipher ctx)) cb))
    (sodium_increment n (nonce_len (cipher ctx))) (subkey ctx) = None ->
  aead_chunk_decrypt ctx cb n =
    Done (CRYPTO_ERROR, [], cb, sodium_increment n (nonce_len (cipher ctx))).
Proof.
  intros Hlen Hdec Hl Hm Hfull Hpay. unfold aead_chunk_decrypt.
  destruct (Z.leb_spec (blen cb) (2 * tag_len (cipher ctx) + CHUNK_SIZE_LEN)); [lia|].
  rewrite Hdec, Hl, Z.eqb_refl. cbn [assert bind].
  destruct (Z.gtb_spec (ntohs len_buf) CHUNK_SIZE_MASK); [lia|].
  destruct (Z.eqb_spec (ntohs len_buf) 0); [lia|].
  destruct (Z.ltb_spec (blen cb) (2 * tag_len (cipher ctx) + CHUNK_SIZE_LEN + ntohs len_buf));
    [lia|].
  rewrite Hpay. reflexivity.
Qed.

(** A failing chunk ends the call, with the nonce where the chunk left it. *)
Lemma aead_decrypt_at_failing_chunk (g : sbf) (buf : bytes) (ctx ctx1 : cipher_ctx_t) (g1 : sbf)
    (ctx2 : cipher_ctx_t) (acc2 n' : bytes) :
  0 <= tag_len (cipher ctx) ->
  aead_decrypt_salt g (set_chunk ctx (Some (chunk_data ctx ++ buf))) = Done (None, ctx1, g1) ->
  popped_to ctx1 [] ctx2 acc2 ->
  0 < blen (chunk_data ctx2) ->
  aead_chunk_decrypt ctx2 (chunk_data ctx2) (nonce ctx2)
    = Done (CRYPTO_ERROR, [], chunk_data ctx2, n') ->
  aead_decrypt g buf ctx = Done (CRYPTO_ERROR, buf, set_nonce ctx2 n', g1).
Proof.
  intros Ht Hsalt Hpop Hpos Hcd.
  destruct (aead_decrypt_salt_through _ _ _ _ Hsalt) as (_ & Hc1).
  change (cipher (set_chunk ctx (Some (chunk_data ctx ++ buf)))) with (cipher ctx) in Hc1.
  destruct (aead_decrypt_loop_popped _ _ _ _ Hpop ltac:(rewrite Hc1; exact Ht)
              (S (List.length (chunk_data ctx1))) ltac:(lia)) as (fuel2 & Hf2 & Hloop & Hc2).
  unfold aead_decrypt. rewrite Hsalt. cbn [bind]. rewrite Hloop.
  destruct fuel2 as [|fuel2]; [lia|]. cbn [aead_decrypt_loop].
  destruct (Z.gtb_spec (blen (chunk_data ctx2)) 0) as [_|Hz]; [|lia].
  rewrite Hcd. cbn [bind]. reflexivity.
Qed.

(** X11. A chunk that does not authenticate ends the stream.  Whenever a
    call of [aead_decrypt] gets to the chunk loop and the loop, after
    popping any number of chunks, stands before more than 2 + 2 * tag_len
    bytes whose length chunk the primitive rejects, the call returns
    [CRYPTO_ERROR] with the caller's buffer as it was, the plaintext of the
    chunks popped in this call is lost, and nonce and reassembly buffer stay
    where that chunk began.  If the length chunk authenticates with a valid
    length and the whole chunk is there but the primitive rejects the
    payload, the call returns [CRYPTO_ERROR] as well, and the nonce has been
    advanced once. *)
Theorem aead_decrypt_forgery_is_error (g : sbf) (buf : bytes) (ctx : cipher_ctx_t)
    (ctx1 : cipher_ctx_t) (g1 : sbf) (ctx2 : cipher_ctx_t) (acc2 : bytes) :
  0 <= tag_len (cipher ctx) ->
  aead_decrypt_salt g (set_chunk ctx (Some (chunk_data ctx ++ buf))) = Done (None, ctx1, g1) ->
  popped_to ctx1 [] ctx2 acc2 ->
  2 * tag_len (cipher ctx) + CHUNK_SIZE_LEN < blen (chunk_data ctx2) ->
  (aead_cipher_decrypt ctx2 (take (CHUNK_SIZE_LEN + tag_len (cipher ctx)) (chunk_data ctx2))
     (nonce ctx2) (subkey ctx2) = None ->
   exists ctx',
     aead_decrypt g buf ctx = Done (CRYPTO_ERROR, buf, ctx', g1) /\
     nonce ctx' = nonce ctx2 /\ chunk ctx' = chunk ctx2) /\
  (forall len_buf : bytes,
     aead_cipher_decrypt ctx2 (take (CHUNK_SIZE_LEN + tag_len (cipher ctx)) (chunk_data ctx2))
       (nonce ctx2) (subkey ctx2) = Some len_buf ->
     blen len_buf = CHUNK_SIZE_LEN ->
     0 < ntohs len_buf <= CHUNK_SIZE_MASK ->
     2 * tag_len (cipher ctx) + CHUNK_SIZE_LEN + ntohs len_buf <= blen (chunk_data ctx2) ->
     aead_cipher_decrypt ctx2
       (take (ntohs len_buf + tag_len (cipher ctx))
             (drop (CHUNK_SIZE_LEN + tag_len (cipher ctx)) (chunk_data ctx2)))
       (sodium_increment (nonce ctx2) (nonce_len (cipher ctx))) (subkey ctx2) = None ->
     exists ctx',
       aead_decrypt g buf ctx = Done (CRYPTO_ERROR, buf, ctx', g1) /\
       nonce ctx' = sodium_increment (nonce ctx2) (nonce_len (cipher ctx)) /\
       chunk ctx' = chunk ctx2).
Proof.
  intros Ht Hsalt Hpop Hlen.
  destruct (aead_decrypt_salt_through _ _ _ _ Hsalt) as (_ & Hc1).
  change (cipher (set_chunk ctx (Some (chunk_data ctx ++ buf)))) with (cipher ctx) in Hc1.
  destruct (aead_decrypt_loop_popped _ _ _ _ Hpop ltac:(rewrite Hc1; exact Ht)
              (S (List.length (chunk_data ctx1))) ltac:(lia)) as (_ & _ & _ & Hc2).
  rewrite Hc1 in Hc2. rewrite <- Hc2 in *.
  assert (Hpos : 0 < blen (chunk_data ctx2)) by (unfold CHUNK_SIZE_LEN in *; lia).
  split.
  - intros Hdec.
    pose proof (aead_chunk_decrypt_bad_length_tag ctx2 _ _ Hlen Hdec) as Hcd.
    exists (set_nonce ctx2 (nonce ctx2)).
    split; [|split; reflexivity].
    apply (aead_decrypt_at_failing_chunk g buf ctx ctx1 g1 ctx2 acc2); try assumption.
    rewrite <- Hc2. exact Ht.
  - intros len_buf Hdec Hl Hm Hfull Hpay.
    pose proof (aead_chunk_decrypt_bad_payload_tag ctx2 _ _ _ Hlen Hdec Hl Hm Hfull Hpay) as Hcd.
    exists (set_nonce ctx2 (sodium_increment (nonce ctx2) (nonce_len (cipher ctx2)))).
    split; [|split; reflexivity].
    apply (aead_decrypt_at_failing_chunk g buf ctx ctx1 g1 ctx2 acc2); try assumption.
    rewrite <- Hc2. exact Ht.
Qed.

(** What a popped chunk looks like. *)
Lemma aead_chunk_decrypt_ok_inv (ctx : cipher_ctx_t) (cb n p cb' n' : bytes) :
  0 <= tag_len (cipher ctx) ->
  aead_chunk_decrypt ctx cb n = Done (CRYPTO_OK, p, cb', n') ->
  0 < blen p <= CHUNK_SIZE_MASK /\
  2 * tag_len (cipher ctx) + CHUNK_SIZE_LEN + blen p <= blen cb /\
  cb' = drop (blen p + (2 * tag_len (cipher ctx) + CHUNK_SIZE_LEN)) cb /\
  n' = increments 2 (nonce_len (cipher ctx)) n.
Proof.
  intros Ht. unfold aead_chunk_decrypt, CHUNK_SIZE_LEN.
  remember (2 * tag_len (cipher ctx)) as t2 eqn:Ht2.
  destruct (Z.leb_spec (blen cb) (t2 + 2)) as [|Hlen]; [discriminate|].
  destruct (aead_cipher_decrypt ctx _ n (subkey ctx)) as [len_buf|]; [|discriminate].
  destruct (blen len_buf =? 2); cbn [assert bind]; [|discriminate].
  destruct (Z.gtb_spec (ntohs len_buf) CHUNK_SIZE_MASK) as [|Hmask]; [discriminate|].
  destruct (Z.eqb_spec (ntohs len_buf) 0) as [|Hnz]; [discriminate|].
  destruct (Z.ltb_spec (blen cb) (t2 + 2 + ntohs len_buf)) as [|Hfull];
    [discriminate|].
  destruct (aead_cipher_decrypt ctx _ _ (subkey ctx)) as [p0|]; [|discriminate].
  destruct (Z.eqb_spec (blen p0) (ntohs len_buf)) as [Hp|]; cbn [assert bind]; [|discriminate].
  intros [= <- <- <-]. pose proof (ntohs_nonneg len_buf).
  rewrite Hp. repeat split; try lia.
  f_equal. lia.
Qed.

Lemma aead_chunk_decrypt_need_more_inv (ctx : cipher_ctx_t) (cb n p cb' n' : bytes) :
  aead_chunk_decrypt ctx cb n = Done (CRYPTO_NEED_MORE, p, cb', n') ->
  p = [] /\ cb' = cb /\ n' = n.
Proof.
  unfold aead_chunk_decrypt.
  repeat match goal with
         | |- context [if ?b then _ else _] => destruct b
         | |- context [match ?o with Some _ => _ | None => _ end] => destruct o
         | |- context [assert ?b] => destruct b; cbn [assert bind]
         end; try discriminate; intros [= <- <- <-]; auto.
Qed.

(** The books of the chunk loop: what it delivered and what it consumed. *)
Lemma aead_decrypt_loop_accounting (fuel : nat) :
  forall (ctx : cipher_ctx_t) (acc : bytes) (st : crypto_status) (out : bytes)
         (ctx' : cipher_ctx_t),
    0 <= tag_len (cipher ctx) ->
    aead_decrypt_loop fuel ctx acc = Done (st, out, ctx') ->
    st <> CRYPTO_ERROR ->
    exists (k : nat) (got : bytes),
      out = acc ++ got /\
      Z.of_nat k <= blen got <= Z.of_nat k * CHUNK_SIZE_MASK /\
      blen got + Z.of_nat k * (2 * tag_len (cipher ctx) + CHUNK_SIZE_LEN)
        <= blen (chunk_data ctx) /\
      chunk_data ctx' =
        drop (blen got + Z.of_nat k * (2 * tag_len (cipher ctx) + CHUNK_SIZE_LEN))
             (chunk_data ctx) /\
      nonce ctx' = increments (2 * k) (nonce_len (cipher ctx)) (nonce ctx) /\
      (st = CRYPTO_NEED_MORE -> blen out = 0) /\
      init ctx' = init ctx /\ cipher ctx' = cipher ctx /\ subkey ctx' = subkey ctx /\
      salt ctx' = salt ctx /\ evp ctx' = evp ctx.
Proof.
  induction fuel as [|fuel IH]; intros ctx acc st out ctx' Ht; [discriminate|].
  cbn [aead_decrypt_loop].
  destruct (Z.gtb_spec (blen (chunk_data ctx)) 0) as [Hpos|Hzero].
  - destruct (aead_chunk_decrypt ctx (chunk_data ctx) (nonce ctx)) as [[[[err p] cb'] n']| |] eqn:Hcd;
      cbn [bind]; try discriminate.
    destruct err.
    + intros Hloop Hst.
      destruct (aead_chunk_decrypt_ok_inv _ _ _ _ _ _ Ht Hcd) as (Hp & Hfull & -> & ->).
      apply IH in Hloop; [|exact Ht|exact Hst].
      destruct Hloop as (k & got & -> & Hk & Hused & Hcd' & Hn' & Hnm & Hrest).
      cbn [chunk_data chunk set_chunk set_nonce cipher nonce] in Hused, Hcd', Hn'.
      change (cipher (set_chunk (set_nonce ctx (increments 2 (nonce_len (cipher ctx)) (nonce ctx)))
                 (Some (drop (blen p + (2 * tag_len (cipher ctx) + CHUNK_SIZE_LEN)) (chunk_data ctx)))))
        with (cipher ctx) in *.
      pose proof (blen_nonneg got) as Hg0.
      rewrite blen_drop in Hused by (unfold CHUNK_SIZE_LEN in *; lia).
      exists (S k), (p ++ got).
      split; [rewrite app_assoc; reflexivity|].
      rewrite blen_app.
      split; [unfold CHUNK_SIZE_MASK in *; lia|].
      split; [lia|].
      split.
      { rewrite Hcd', drop_drop by (unfold CHUNK_SIZE_LEN in *; lia). f_equal. lia. }
      split; [rewrite increments_two_more; exact Hn'|].
      split; [exact Hnm|exact Hrest].
    + apply aead_chunk_decrypt_need_more_inv in Hcd. destruct Hcd as (-> & -> & ->).
      intros Hloop _.
      assert (Hout : out = acc /\ ctx' = set_nonce ctx (nonce ctx) /\
                     (st = CRYPTO_NEED_MORE -> blen out = 0)).
      { revert Hloop.
        destruct (Z.eqb_spec (blen acc) 0) as [H0|H0]; intros [= <- <- <-];
          repeat split; try (intros _; assumption); try discriminate. }
      destruct Hout as (-> & -> & Hnm).
      exists 0%nat, []. rewrite app_nil_r. change (blen []) with 0.
      split; [reflexivity|]. split; [lia|]. split; [pose proof (blen_nonneg (chunk_data ctx)); lia|].
      split; [reflexivity|]. split; [reflexivity|]. split; [exact Hnm|]. repeat split.
    + intros [= <- _ _] Hst. contradiction.
  - intros [= <- <- <-] _.
    exists 0%nat, []. rewrite app_nil_r. change (blen []) with 0.
    split; [reflexivity|]. split; [lia|]. split; [pose proof (blen_nonneg (chunk_data ctx)); lia|].
    split; [reflexivity|]. split; [reflexivity|]. split; [discriminate|]. repeat split.
Qed.

(** X12. The books of [aead_decrypt].  Whenever a call on a context past
    the salt returns [CRYPTO_OK] or [CRYPTO_NEED_MORE], it has popped some
    number k of whole chunks off the front of the reassembly buffer
    extended by the segment: the plaintext handed back has between k and
    k * 0x3FFF bytes, the bytes consumed are those plus 2 + 2 * tag_len per
    chunk, what follows them is the new reassembly buffer, and the nonce has
    been incremented 2k times.  With [CRYPTO_NEED_MORE], k is 0: nothing is
    consumed, the nonce stands and the caller's buffer is returned as it
    was.  Subkey, cipher and salt filter are not touched. *)
Theorem aead_decrypt_accounting (g : sbf) (buf : bytes) (ctx : cipher_ctx_t)
    (st : crypto_status) (out : bytes) (ctx' : cipher_ctx_t) (g' : sbf) :
  0 <= tag_len (cipher ctx) ->
  init ctx = true ->
  aead_decrypt g buf ctx = Done (st, out, ctx', g') ->
  st <> CRYPTO_ERROR ->
  exists (k : nat) (got : bytes),
    got = match st with CRYPTO_OK => out | _ => [] end /\
    Z.of_nat k <= blen got <= Z.of_nat k * CHUNK_SIZE_MASK /\
    blen got + Z.of_nat k * (2 * tag_len (cipher ctx) + CHUNK_SIZE_LEN)
      <= blen (chunk_data ctx ++ buf) /\
    chunk_data ctx' =
      drop (blen got + Z.of_nat k * (2 * tag_len (cipher ctx) + CHUNK_SIZE_LEN))
           (chunk_data ctx ++ buf) /\
    nonce ctx' = increments (2 * k) (nonce_len (cipher ctx)) (nonce ctx) /\
    (st = CRYPTO_NEED_MORE ->
     k = 0%nat /\ out = buf /\ nonce ctx' = nonce ctx /\ chunk_data ctx' = chunk_data ctx ++ buf) /\
    g' = g /\ init ctx' = true /\ cipher ctx' = cipher ctx /\ subkey ctx' = subkey ctx.
Proof.
  intros Ht Hi. unfold aead_decrypt, aead_decrypt_salt.
  set (ctx0 := set_chunk ctx (Some (chunk_data ctx ++ buf))).
  replace (init ctx0) with true by (symmetry; exact Hi). cbn [negb bind].
  destruct (aead_decrypt_loop _ ctx0 []) as [[[err p] ctx2]| |] eqn:Hloop;
    cbn [bind]; try discriminate.
  intros Hdone Hst.
  assert (Herr : err = st) by (destruct err; injection Hdone as <- _ _ _; reflexivity).
  subst err.
  destruct (aead_decrypt_loop_accounting _ ctx0 [] st p ctx2 Ht Hloop Hst)
    as (k & got & Hp & Hk & Hused & Hcd & Hn & Hnm & Hi' & Hc' & Hs' & _).
  cbn [app] in Hp. subst p.
  change (chunk_data ctx0) with (chunk_data ctx ++ buf) in *.
  change (cipher ctx0) with (cipher ctx) in *.
  change (nonce ctx0) with (nonce ctx) in *.
  change (init ctx0) with (init ctx) in *.
  change (subkey ctx0) with (subkey ctx) in *.
  destruct st; [|clear Hst|contradiction].
  - injection Hdone as <- <- <-.
    exists k, got. split; [reflexivity|]. repeat (split; [assumption|]).
    split; [discriminate|]. split; [reflexivity|]. split; [congruence|]. auto.
  - injection Hdone as <- <- <-.
    specialize (Hnm eq_refl). apply blen_nil_iff in Hnm. subst got.
    change (blen []) with 0 in *.
    assert (k = 0%nat) by lia. subst k.
    exists 0%nat, []. split; [reflexivity|]. change (blen []) with 0.
    split; [lia|]. split; [assumption|]. split; [assumption|]. split; [assumption|].
    split.
    { intros _. split; [reflexivity|]. split; [reflexivity|]. split; [exact Hn|]. exact Hcd. }
    split; [reflexivity|]. split; [congruence|]. auto.
Qed.

End Failures.

(** ** The salt filter *)

Section Replay.

Context {E : Externals} {EOk : ExternalsOk E}.

Lemma evp_keyed_ready (c : cipher_t) (k : bytes) (e : option cipher_evp_t) :
  evp_keyed c k e -> evp_ready c e.
Proof.
  unfold evp_keyed, evp_ready. destruct (method c >=? CHACHA20POLY1305); [auto|].
  intros (e' & He & Hm & Hb & _). exists e'. auto.
Qed.

(** The [if (!cipher_ctx->init)] block on a buffer that holds more than the
    salt: the subkey is derived before the filter is asked. *)
Lemma aead_decrypt_salt_derives (c : cipher_t) (g : sbf) (ctx0 : cipher_ctx_t) :
  cipher_wf c -> awaiting c ctx0 ->
  key_len c < blen (chunk_data ctx0) ->
  exists sk e,
    session_subkey c (take (key_len c) (chunk_data ctx0)) = Some sk /\
    evp_keyed c sk e /\
    aead_decrypt_salt g ctx0 =
      let ctx' := {| init := false; cipher := c; evp := e;
                     salt := take (key_len c) (chunk_data ctx0);
                     subkey := sk; nonce := zeros (nonce_len c); chunk := chunk ctx0 |} in
      if MODULE_REMOTE && (fs_sbf_check g (take (key_len c) (chunk_data ctx0)) =? 1)
      then Done (Some CRYPTO_ERROR, ctx', g)
      else Done (None,
                 {| init := true; cipher := c; evp := e;
                    salt := take (key_len c) (chunk_data ctx0);
                    subkey := sk; nonce := zeros (nonce_len c);
                    chunk := Some (drop (key_len c) (chunk_data ctx0)) |},
                 if MODULE_REMOTE
                 then fst (fs_sbf_add g (take (key_len c) (chunk_data ctx0)))
                 else g).
Proof.
  intros Hwf (Hi & Hc & He) Hlen. subst c.
  destruct (aead_cipher_ctx_set_subkey_ok
              (set_salt ctx0 (take (key_len (cipher ctx0)) (chunk_data ctx0))) Hwf He)
    as (sk & e & Hsk & Hke & Hss).
  exists sk, e. split; [exact Hsk|]. split; [exact Hke|].
  unfold aead_decrypt_salt. rewrite Hi. cbn [negb].
  destruct (Z.leb_spec (blen (chunk_data ctx0)) (key_len (cipher ctx0))); [lia|].
  rewrite Hss. cbn [bind salt set_salt cipher init chunk].
  destruct (MODULE_REMOTE && _); [rewrite Hi; reflexivity|].
  unfold chunk_data at 3. cbn [chunk set_chunk set_init].
  assert (Hch : chunk ctx0 = Some (chunk_data ctx0)).
  { unfold chunk_data in *. destruct (chunk ctx0); [reflexivity|].
    change (blen []) with 0 in Hlen. pose proof (cipher_wf_lengths _ Hwf). lia. }
  rewrite Hch at 1. reflexivity.
Qed.

(** X13. Replay rejection in the server build.  A fresh TCP receiver whose
    reassembly buffer has come to hold more than key_len bytes, the first
    key_len of which the filter reports as seen, answers [CRYPTO_ERROR]: the
    buffer and the filter are left as they were, nothing is decrypted, the
    salt is not taken off the stream and [init] stays unset.
    [aead_decrypt_all] answers a datagram of more than key_len + tag_len
    bytes whose salt the filter reports as seen in the same way. *)
Theorem replayed_salt_is_rejected (c : cipher_t) :
  cipher_wf c -> MODULE_REMOTE = true ->
  (forall (g : sbf) (ctx : cipher_ctx_t) (buf : bytes),
     awaiting c ctx ->
     key_len c < blen (chunk_data ctx ++ buf) ->
     fs_sbf_check g (take (key_len c) (chunk_data ctx ++ buf)) = 1 ->
     exists ctx',
       aead_decrypt g buf ctx = Done (CRYPTO_ERROR, buf, ctx', g) /\
       init ctx' = false /\
       chunk ctx' = Some (chunk_data ctx ++ buf)) /\
  (forall (g : sbf) (ct tmp : bytes),
     key_len c + tag_len c < blen ct ->
     fs_sbf_check g (take (key_len c) ct) = 1 ->
     aead_decrypt_all g ct c tmp = Done (CRYPTO_ERROR, ct, g)).
Proof.
  intros Hwf Hremote. split.
  - intros g ctx buf Haw Hlen Hseen.
    set (ctx0 := set_chunk ctx (Some (chunk_data ctx ++ buf))).
    destruct (aead_decrypt_salt_derives c g ctx0 Hwf Haw Hlen) as (sk & e & _ & _ & Hsalt).
    change (chunk_data ctx0) with (chunk_data ctx ++ buf) in Hsalt.
    rewrite Hremote, Hseen in Hsalt. cbn [andb Z.eqb Pos.eqb] in Hsalt.
    eexists. unfold aead_decrypt. fold ctx0. rewrite Hsalt. cbn [bind].
    split; [reflexivity|]. split; reflexivity.
  - intros g ct tmp Hlen Hseen. unfold aead_decrypt_all.
    destruct (Z.leb_spec (blen ct) (key_len c + tag_len c)); [lia|].
    destruct (aead_ctx_init_ok c false [] Hwf) as (e & He & ->). cbn [bind].
    cbn [set_salt salt]. rewrite Hremote, Hseen. reflexivity.
Qed.

(** X14. A TCP salt goes into the filter before anything authenticates.
    When a fresh receiver whose guard admits the salt gets the salt and more
    than 2 + 2 * tag_len further bytes whose length chunk the primitive
    rejects under the session subkey and the zero nonce, [aead_decrypt]
    returns [CRYPTO_ERROR], and yet the salt has been taken off the stream,
    [init] is set and, in the server build, the salt has been added to the
    filter. *)
Theorem tcp_salt_recorded_before_authentication (c : cipher_t) (sk : bytes) (g : sbf)
    (ctx : cipher_ctx_t) (buf : bytes) :
  cipher_wf c -> awaiting c ctx ->
  key_len c + 2 * tag_len c + CHUNK_SIZE_LEN < blen (chunk_data ctx ++ buf) ->
  salt_admitted g (take (key_len c) (chunk_data ctx ++ buf)) ->
  session_subkey c (take (key_len c) (chunk_data ctx ++ buf)) = Some sk ->
  aead_open (method c) (session_key c sk) (zeros (nonce_len c))
            (take (CHUNK_SIZE_LEN + tag_len c) (drop (key_len c) (chunk_data ctx ++ buf)))
    = None ->
  exists ctx',
    aead_decrypt g buf ctx =
      Done (CRYPTO_ERROR, buf, ctx',
            if MODULE_REMOTE
            then fst (fs_sbf_add g (take (key_len c) (chunk_data ctx ++ buf)))
            else g) /\
    init ctx' = true /\
    salt ctx' = take (key_len c) (chunk_data ctx ++ buf) /\
    chunk ctx' = Some (drop (key_len c) (chunk_data ctx ++ buf)).
Proof.
  intros Hwf Haw Hlen Hg Hsk Hopen.
  pose proof (cipher_wf_lengths _ Hwf) as (Hk & Hn & Ht).
  set (ctx0 := set_chunk ctx (Some (chunk_data ctx ++ buf))).
  destruct (aead_decrypt_salt_derives c g ctx0 Hwf Haw) as (sk' & e & Hsk' & Hke & Hsalt).
  { change (chunk_data ctx0) with (chunk_data ctx ++ buf). unfold CHUNK_SIZE_LEN in *. lia. }
  change (chunk_data ctx0) with (chunk_data ctx ++ buf) in *.
  assert (sk' = sk) by congruence. subst sk'.
  rewrite (salt_admitted_test _ _ Hg) in Hsalt. cbv zeta in Hsalt.
  match type of Hsalt with _ = Done (None, ?x, _) => set (ctx1 := x) in * end.
  assert (Hld : blen (drop (key_len c) (chunk_data ctx ++ buf))
                = blen (chunk_data ctx ++ buf) - key_len c)
    by (apply blen_drop; unfold CHUNK_SIZE_LEN in *; lia).
  assert (Hcd : aead_chunk_decrypt ctx1 (chunk_data ctx1) (nonce ctx1)
                = Done (CRYPTO_ERROR, [], chunk_data ctx1, nonce ctx1)).
  { apply aead_chunk_decrypt_bad_length_tag.
    - unfold ctx1. cbn [cipher chunk_data chunk]. rewrite Hld.
      unfold CHUNK_SIZE_LEN in *. lia.
    - rewrite aead_cipher_decrypt_keyed by (cbn; assumption).
      cbn [chunk_data chunk cipher nonce subkey ctx1].
      rewrite session_nonce_zeros by assumption. exact Hopen. }
  exists (set_nonce ctx1 (nonce ctx1)).
  split; [|repeat split].
  apply (aead_decrypt_at_failing_chunk g buf ctx ctx1 _ ctx1 []).
  - destruct Haw as (_ & -> & _). lia.
  - exact Hsalt.
  - constructor.
  - unfold ctx1. cbn [cipher chunk_data chunk]. rewrite Hld.
    unfold CHUNK_SIZE_LEN in *. lia.
  - exact Hcd.
Qed.

(** X15. UDP datagrams are keyed by the password alone.  For every
    plaintext, empty or not, [aead_encrypt_all] returns [CRYPTO_OK] and the
    salt followed by bytes that are the same whatever the salt: they depend
    on the plaintext only.  For a non-empty plaintext [aead_decrypt_all]
    accepts those bytes behind any key_len bytes the guard admits: it
    returns [CRYPTO_OK] and the plaintext, and in the server build adds
    those key_len bytes to the filter; the salt of a datagram is not
    authenticated.  For the empty plaintext it answers them, behind any
    key_len bytes, with [CRYPTO_ERROR], buffer and filter as they were. *)
Theorem udp_salt_unauthenticated (m : Z) (pass : string) :
  0 <= m < AEAD_CIPHER_NUM ->
  exists c,
    aead_key_init m pass = Done (Some c) /\
    forall P : bytes,
    exists ct,
      blen ct = blen P + tag_len c /\
      forall (rnd rnd' : bytes) (g : sbf) (tmp : bytes),
        blen rnd = key_len c ->
        blen rnd' = key_len c ->
        aead_encrypt_all P c rnd = Done (CRYPTO_OK, rnd ++ ct) /\
        (0 < blen P ->
         salt_admitted g rnd' ->
         aead_decrypt_all g (rnd' ++ ct) c tmp =
           Done (CRYPTO_OK, P, if MODULE_REMOTE then fst (fs_sbf_add g rnd') else g)) /\
        (blen P = 0 ->
         aead_decrypt_all g (rnd' ++ ct) c tmp = Done (CRYPTO_ERROR, rnd' ++ ct, g)).
Proof.
  intros Hm. destruct (aead_key_init_ok m pass Hm) as (c & Hki).
  exists c. split; [exact Hki|]. intros P.
  destruct (aead_key_init_wf _ _ _ Hki) as (Hwf & _).
  pose proof (cipher_wf_lengths c Hwf) as (Hk & Hn & Ht).
  destruct (seal_ok (method c) (session_key c (key c)) (zeros (nonce_len c)) P)
    as (ct & Hct & Hlen); [apply Hwf|].
  exists ct. split; [lia|]. intros rnd rnd' g tmp Hrnd Hrnd'.
  destruct (aead_encrypt_all_sealed c rnd P Hwf Hrnd) as (ct0 & Hs & Hl & Hr).
  assert (ct0 = ct) by congruence. subst ct0.
  split; [exact Hr|].
  assert (Htake : take (key_len c) (rnd' ++ ct) = rnd')
    by (rewrite <- Hrnd'; apply take_app_exact).
  assert (Hdrop : drop (key_len c) (rnd' ++ ct) = ct)
    by (rewrite <- Hrnd'; apply drop_app_exact).
  split.
  - intros HP Hg.
    rewrite aead_decrypt_all_opened; try assumption.
    + rewrite Hdrop, Htake.
      rewrite (open_seal _ _ _ _ _ (proj1 Hwf) Hs).
      replace (blen (rnd' ++ ct) - key_len c - tag_len c) with (blen P)
        by (rewrite blen_app; lia).
      rewrite scratch_exact. reflexivity.
    + rewrite blen_app. lia.
    + rewrite Htake. assumption.
  - intros HP. apply aead_decrypt_all_short. rewrite blen_app. lia.
Qed.

End Replay.

(** ** No input makes the receiver abort *)

Section NoAbort.

Context {E : Externals} {EOk : ExternalsOk E}.

(** The primitive returns as many bytes as the ciphertext has before its
    tag. *)
Hypothesis open_length : forall (m : Z) (k n ct p : bytes),
  aead_open m k n ct = Some p -> blen p = blen ct - 16.

Lemma aead_chunk_decrypt_returns (c : cipher_t) (sk : bytes) (ctx : cipher_ctx_t) (cb n : bytes) :
  cipher_wf c -> established c sk ctx ->
  exists st p cb' n', aead_chunk_decrypt ctx cb n = Done (st, p, cb', n').
Proof.
  intros Hwf Hest. pose proof (cipher_wf_lengths _ Hwf) as (Hk & Hn & Ht).
  pose proof Hest as (Hi & Hc & Hsk & He). subst c sk.
  unfold aead_chunk_decrypt, CHUNK_SIZE_LEN. rewrite Ht.
  destruct (Z.leb_spec (blen cb) (2 * 16 + 2)) as [|Hlen]; [eexists _, _, _, _; reflexivity|].
  rewrite !aead_cipher_decrypt_keyed by assumption.
  destruct (aead_open _ _ _ (take (2 + 16) cb)) as [len_buf|] eqn:Hopen;
    [|eexists _, _, _, _; reflexivity].
  apply open_length in Hopen. rewrite blen_take in Hopen by lia.
  replace (blen len_buf =? 2) with true by (symmetry; apply Z.eqb_eq; lia).
  cbn [assert bind].
  destruct (Z.gtb_spec (ntohs len_buf) CHUNK_SIZE_MASK); [eexists _, _, _, _; reflexivity|].
  destruct (Z.eqb_spec (ntohs len_buf) 0); [eexists _, _, _, _; reflexivity|].
  destruct (Z.ltb_spec (blen cb) (2 * 16 + 2 + ntohs len_buf)) as [|Hfull];
    [eexists _, _, _, _; reflexivity|].
  pose proof (ntohs_nonneg len_buf) as Hm0.
  rewrite aead_cipher_decrypt_keyed by assumption.
  destruct (aead_open _ _ _ (take (ntohs len_buf + 16) (drop (2 + 16) cb))) as [p|] eqn:Hpay;
    [|eexists _, _, _, _; reflexivity].
  apply open_length in Hpay.
  rewrite blen_take in Hpay by (rewrite blen_drop; lia).
  replace (blen p =? ntohs len_buf) with true by (symmetry; apply Z.eqb_eq; lia).
  cbn [assert bind]. eexists _, _, _, _. reflexivity.
Qed.

Lemma aead_decrypt_loop_returns (c : cipher_t) (sk : bytes) :
  cipher_wf c ->
  forall (fuel : nat) (ctx : cipher_ctx_t) (acc : bytes),
    established c sk ctx ->
    (List.length (chunk_data ctx) < fuel)%nat ->
    exists st out ctx',
      aead_decrypt_loop fuel ctx acc = Done (st, out, ctx') /\ established c sk ctx'.
Proof.
  intros Hwf. pose proof (cipher_wf_lengths _ Hwf) as (Hk & Hn & Ht).
  induction fuel as [|fuel IH]; intros ctx acc Hest Hfuel; [lia|].
  cbn [aead_decrypt_loop].
  destruct (blen (chunk_data ctx) >? 0); [|eexists _, _, _; split; [reflexivity|exact Hest]].
  destruct (aead_chunk_decrypt_returns c sk ctx (chunk_data ctx) (nonce ctx) Hwf Hest)
    as (st & p & cb' & n' & Hcd).
  rewrite Hcd. cbn [bind].
  destruct st.
  - apply IH; [exact Hest|].
    assert (Htl : 0 <= tag_len (cipher ctx)) by (destruct Hest as (_ & -> & _); lia).
    pose proof (aead_chunk_decrypt_shrinks _ _ _ _ _ _ Htl Hcd). cbn. lia.
  - destruct (blen acc =? 0); eexists _, _, _; (split; [reflexivity|exact Hest]).
  - eexists _, _, _. split; [reflexivity|exact Hest].
Qed.

Lemma aead_decrypt_returns (c : cipher_t) (ctx : cipher_ctx_t) (g : sbf) (buf : bytes) :
  cipher_wf c ->
  (exists sk, established c sk ctx) \/ awaiting c ctx ->
  exists st out ctx' g',
    aead_decrypt g buf ctx = Done (st, out, ctx', g') /\
    ((exists sk, established c sk ctx') \/ awaiting c ctx').
Proof.
  intros Hwf Hstate. pose proof (cipher_wf_lengths _ Hwf) as (Hk & Hn & Ht).
  set (ctx0 := set_chunk ctx (Some (chunk_data ctx ++ buf))).
  assert (Hloop : forall (ctx1 : cipher_ctx_t) (sk : bytes) (g1 : sbf),
            established c sk ctx1 ->
            aead_decrypt_salt g ctx0 = Done (None, ctx1, g1) ->
            exists st out ctx' g',
              aead_decrypt g buf ctx = Done (st, out, ctx', g') /\
              ((exists sk, established c sk ctx') \/ awaiting c ctx')).
  { intros ctx1 sk g1 Hest1 Hsalt.
    destruct (aead_decrypt_loop_returns c sk Hwf (S (List.length (chunk_data ctx1))) ctx1 []
                Hest1) as (st & out & ctx' & Hl & Hest'); [lia|].
    unfold aead_decrypt. fold ctx0. rewrite Hsalt. cbn [bind]. rewrite Hl. cbn [bind].
    destruct st; eexists _, _, _, _; (split; [reflexivity|left; exists sk; exact Hest']). }
  destruct Hstate as [(sk & Hest)|Haw].
  - apply (Hloop ctx0 sk g); [exact Hest|].
    unfold aead_decrypt_salt. destruct Hest as (Hi & _).
    replace (init ctx0) with true by (symmetry; exact Hi). reflexivity.
  - destruct (Z.leb_spec (blen (chunk_data ctx ++ buf)) (key_len c)) as [Hshort|Hlong].
    + pose proof Haw as (Hi & Hc & _).
      rewrite aead_decrypt_short; [|exact Hi|rewrite Hc; exact Hshort].
      eexists _, _, _, _. split; [reflexivity|]. right. exact Haw.
    + destruct (aead_decrypt_salt_derives c g ctx0 Hwf Haw Hlong)
        as (sk & e & Hsk & Hke & Hsalt).
      destruct (MODULE_REMOTE && _) eqn:Hseen.
      * unfold aead_decrypt. fold ctx0. rewrite Hsalt. cbv zeta. cbn [bind].
        eexists _, _, _, _. split; [reflexivity|]. right.
        unfold awaiting. cbn. split; [reflexivity|]. split; [reflexivity|].
        exact (evp_keyed_ready _ _ _ Hke).
      * cbv zeta in Hsalt.
        eapply Hloop; [|exact Hsalt].
        unfold established. cbn. split; [reflexivity|]. split; [reflexivity|].
        split; [reflexivity|]. exact Hke.
Qed.

(** X16. No bytes from the network make the TCP receiver abort.  Provided
    the primitive, when it accepts a ciphertext, returns as many bytes as
    precede the tag, [aead_decrypt] on a context that waits for the salt or
    is past it returns a status for every buffer, and leaves the context
    again waiting for the salt or past it; so every sequence of segments
    gets a status per call, up to the first [CRYPTO_ERROR]: the two
    [assert]s of [aead_chunk_decrypt] cannot fail and the loop ends. *)
Theorem aead_decrypt_never_aborts (c : cipher_t) (ctx : cipher_ctx_t) :
  cipher_wf c ->
  (exists sk, established c sk ctx) \/ awaiting c ctx ->
  (forall (g : sbf) (buf : bytes),
     exists st out ctx' g',
       aead_decrypt g buf ctx = Done (st, out, ctx', g') /\
       ((exists sk, established c sk ctx') \/ awaiting c ctx')) /\
  (forall (segs : list bytes) (g : sbf),
     exists rs ctx' g',
       tcp_recv g ctx segs = Done (rs, ctx', g') /\
       (List.length rs <= List.length segs)%nat).
Proof.
  intros Hwf Hstate. split.
  - intros g buf. apply aead_decrypt_returns; assumption.
  - intros segs. revert ctx Hstate.
    induction segs as [|s segs IH]; intros ctx Hstate g.
    + eexists _, _, _. split; [reflexivity|]. cbn. lia.
    + cbn [tcp_recv].
      destruct (aead_decrypt_returns c ctx g s Hwf Hstate)
        as (st & out & ctx' & g' & Hdec & Hstate').
      rewrite Hdec. cbn [bind].
      destruct (IH ctx' Hstate' g') as (rs & ctx'' & g'' & Hrecv & Hlen).
      destruct st; try rewrite Hrecv; cbn [bind]; eexists _, _, _;
        (split; [reflexivity|cbn; lia]).
Qed.

End NoAbort.

(** ** A chunk that arrives in pieces *)

Section Pieces.

Context {E : Externals}.

Lemma take_app_le (k : Z) (a b : bytes) : k <= blen a -> take k (a ++ b) = take k a.
Proof.
  intros H. unfold take, blen in *. rewrite firstn_app.
  replace (Z.to_nat k - List.length a)%nat with 0%nat by lia.
  cbn. apply app_nil_r.
Qed.

(** Up to 2 + 2 * tag_len bytes are not looked at. *)
Lemma aead_chunk_decrypt_short (ctx : cipher_ctx_t) (cb n : bytes) :
  blen cb <= 2 * tag_len (cipher ctx) + CHUNK_SIZE_LEN ->
  aead_chunk_decrypt ctx cb n = Done (CRYPTO_NEED_MORE, [], cb, n).
Proof.
  intros H. unfold aead_chunk_decrypt.
  destruct (Z.leb_spec (blen cb) (2 * tag_len (cipher ctx) + CHUNK_SIZE_LEN)); [reflexivity|lia].
Qed.


(** C1, amended. When a call of [aead_decrypt] gets to the chunk loop with
    a reassembly buffer that holds the whole 2 + tag_len bytes of a length
    chunk which the primitive opens, under the current nonce, to a two-byte
    length field mlen with 0 < mlen <= 0x3FFF, but fewer than
    chunk_len = 2 + 2 * tag_len + mlen bytes, the call returns
    [CRYPTO_NEED_MORE] with the nonce not advanced and all the bytes, length
    ciphertext included, kept in the reassembly buffer.  A next call whose
    segment brings the buffer to chunk_len bytes or more, with a payload
    which the primitive opens to mlen bytes under the successor of that
    nonce, decrypts the length chunk again with that same nonce and the
    payload with its successor, pops the chunk, advances the nonce twice and
    goes on with the bytes that follow, whatever the filter.  When at most
    2 + 2 * tag_len bytes follow, it returns [CRYPTO_OK] and exactly the
    payload, with the nonce advanced twice and the bytes that follow kept.
    In every case the call does not loop for ever and, whatever it returns,
    it does not return [CRYPTO_NEED_MORE]; when it returns [CRYPTO_OK] its
    output begins with the payload and the nonce has been advanced twice for
    this chunk and for each chunk popped after it. *)
Theorem aead_decrypt_partial_chunk_keeps_nonce (g : sbf) (buf : bytes) (ctx : cipher_ctx_t)
    (ctx1 : cipher_ctx_t) (g1 : sbf) (len_buf : bytes) :
  0 <= tag_len (cipher ctx) ->
  aead_decrypt_salt g (set_chunk ctx (Some (chunk_data ctx ++ buf))) = Done (None, ctx1, g1) ->
  CHUNK_SIZE_LEN + tag_len (cipher ctx) <= blen (chunk_data ctx1) ->
  aead_cipher_decrypt ctx1 (take (CHUNK_SIZE_LEN + tag_len (cipher ctx)) (chunk_data ctx1))
    (nonce ctx1) (subkey ctx1) = Some len_buf ->
  blen len_buf = CHUNK_SIZE_LEN ->
  0 < ntohs len_buf <= CHUNK_SIZE_MASK ->
  blen (chunk_data ctx1) < 2 * tag_len (cipher ctx) + CHUNK_SIZE_LEN + ntohs len_buf ->
  exists ctx',
    aead_decrypt g buf ctx = Done (CRYPTO_NEED_MORE, buf, ctx', g1) /\
    nonce ctx' = nonce ctx1 /\
    chunk ctx' = Some (chunk_data ctx1) /\
    init ctx' = true /\ subkey ctx' = subkey ctx1 /\
    forall (g2 : sbf) (buf2 p : bytes),
      2 * tag_len (cipher ctx) + CHUNK_SIZE_LEN + ntohs len_buf <= blen (chunk_data ctx1 ++ buf2) ->
      aead_cipher_decrypt ctx1
        (take (ntohs len_buf + tag_len (cipher ctx))
              (drop (CHUNK_SIZE_LEN + tag_len (cipher ctx)) (chunk_data ctx1 ++ buf2)))
        (sodium_increment (nonce ctx1) (nonce_len (cipher ctx))) (subkey ctx1) = Some p ->
      blen p = ntohs len_buf ->
      aead_chunk_decrypt (set_chunk ctx' (Some (chunk_data ctx' ++ buf2)))
        (chunk_data ctx' ++ buf2) (nonce ctx')
        = Done (CRYPTO_OK, p,
                drop (2 * tag_len (cipher ctx) + CHUNK_SIZE_LEN + ntohs len_buf)
                     (chunk_data ctx1 ++ buf2),
                sodium_increment (sodium_increment (nonce ctx1) (nonce_len (cipher ctx)))
                                 (nonce_len (cipher ctx))) /\
      (blen (chunk_data ctx1 ++ buf2)
         <= 2 * tag_len (cipher ctx) + CHUNK_SIZE_LEN + ntohs len_buf
            + (2 * tag_len (cipher ctx) + CHUNK_SIZE_LEN) ->
       exists ctx'',
         aead_decrypt g2 buf2 ctx' = Done (CRYPTO_OK, p, ctx'', g2) /\
         nonce ctx'' = sodium_increment (sodium_increment (nonce ctx1) (nonce_len (cipher ctx)))
                                        (nonce_len (cipher ctx)) /\
         chunk ctx'' = Some (drop (2 * tag_len (cipher ctx) + CHUNK_SIZE_LEN + ntohs len_buf)
                                  (chunk_data ctx1 ++ buf2))) /\
      (forall (st : crypto_status) (out : bytes) (ctx'' : cipher_ctx_t) (g'' : sbf),
         aead_decrypt g2 buf2 ctx' = Done (st, out, ctx'', g'') ->
         g'' = g2 /\
         st <> CRYPTO_NEED_MORE /\
         (st = CRYPTO_OK ->
          exists (k : nat) (more : bytes),
            out = p ++ more /\
            nonce ctx'' = increments (2 * S k) (nonce_len (cipher ctx)) (nonce ctx1) /\
            chunk_data ctx'' =
              drop (blen more + Z.of_nat k * (2 * tag_len (cipher ctx) + CHUNK_SIZE_LEN))
                   (drop (2 * tag_len (cipher ctx) + CHUNK_SIZE_LEN + ntohs len_buf)
                         (chunk_data ctx1 ++ buf2)))) /\
      aead_decrypt g2 buf2 ctx' <> OutOfFuel.
Proof.
  intros Ht Hsalt Hlen Hdec Hl Hm Hpart.
  destruct (aead_decrypt_salt_through _ _ _ _ Hsalt) as (Hi1 & Hc1).
  change (cipher (set_chunk ctx (Some (chunk_data ctx ++ buf)))) with (cipher ctx) in Hc1.
  rewrite <- Hc1 in *.
  assert (Hcd : aead_chunk_decrypt ctx1 (chunk_data ctx1) (nonce ctx1)
                = Done (CRYPTO_NEED_MORE, [], chunk_data ctx1, nonce ctx1)).
  { destruct (Z.leb_spec (blen (chunk_data ctx1)) (2 * tag_len (cipher ctx1) + CHUNK_SIZE_LEN))
      as [Hshort|Hlong].
    - apply aead_chunk_decrypt_short. exact Hshort.
    - apply (aead_chunk_decrypt_partial ctx1 _ _ len_buf); assumption. }
  assert (Hpos : 0 < blen (chunk_data ctx1)) by (unfold CHUNK_SIZE_LEN in *; lia).
  assert (Hchunk : chunk ctx1 = Some (chunk_data ctx1)).
  { unfold chunk_data in *. destruct (chunk ctx1); [reflexivity|].
    change (blen []) with 0 in Hpos. lia. }
  exists (set_nonce ctx1 (nonce ctx1)).
  split.
  { unfold aead_decrypt. rewrite Hsalt. cbn [bind aead_decrypt_loop].
    destruct (Z.gtb_spec (blen (chunk_data ctx1)) 0) as [_|Hz]; [|lia].
    rewrite Hcd. cbn [bind]. reflexivity. }
  split; [reflexivity|]. split; [exact Hchunk|]. split; [exact Hi1|]. split; [reflexivity|].
  intros g2 buf2 p Hfull Hpay Hp.
  set (ctx' := set_nonce ctx1 (nonce ctx1)).
  change (chunk_data ctx') with (chunk_data ctx1).
  change (nonce ctx') with (nonce ctx1).
  set (ctx0' := set_chunk ctx' (Some (chunk_data ctx1 ++ buf2))).
  set (chunk_len := 2 * tag_len (cipher ctx1) + CHUNK_SIZE_LEN + ntohs len_buf) in *.
  set (n2 := sodium_increment (sodium_increment (nonce ctx1) (nonce_len (cipher ctx1)))
                              (nonce_len (cipher ctx1))).
  set (rest := drop chunk_len (chunk_data ctx1 ++ buf2)).
  assert (Hcd2 : aead_chunk_decrypt ctx0' (chunk_data ctx1 ++ buf2) (nonce ctx1) =
                 Done (CRYPTO_OK, p, rest, n2)).
  { apply (aead_chunk_decrypt_full ctx0' (chunk_data ctx1 ++ buf2) (nonce ctx1) len_buf p).
    - change (cipher ctx0') with (cipher ctx1). unfold chunk_len in Hfull. lia.
    - change (cipher ctx0') with (cipher ctx1).
      rewrite take_app_le by exact Hlen. exact Hdec.
    - exact Hl.
    - exact Hm.
    - exact Hfull.
    - exact Hpay.
    - exact Hp. }
  split; [exact Hcd2|].
  pose proof (aead_chunk_decrypt_shrinks _ _ _ _ _ _ Ht Hcd2) as Hsh.
  set (ctx_next := set_chunk (set_nonce ctx0' n2) (Some rest)).
  assert (Hcall : aead_decrypt g2 buf2 ctx' =
                  bind (aead_decrypt_loop (List.length (chunk_data ctx1 ++ buf2)) ctx_next p)
                       (fun r => let '(err, plaintext, ctx2) := r in
                                 match err with
                                 | CRYPTO_OK => Done (CRYPTO_OK, plaintext, ctx2, g2)
                                 | _ => Done (err, buf2, ctx2, g2)
                                 end)).
  { unfold aead_decrypt, aead_decrypt_salt.
    change (chunk_data ctx') with (chunk_data ctx1). fold ctx0'.
    replace (init ctx0') with true by (symmetry; exact Hi1). cbn [negb bind].
    change (chunk_data ctx0') with (chunk_data ctx1 ++ buf2).
    cbn [aead_decrypt_loop].
    change (chunk_data ctx0') with (chunk_data ctx1 ++ buf2).
    change (nonce ctx0') with (nonce ctx1).
    destruct (Z.gtb_spec (blen (chunk_data ctx1 ++ buf2)) 0) as [_|Hz].
    2:{ unfold chunk_len, CHUNK_SIZE_LEN in *. lia. }
    rewrite Hcd2. cbn [bind app]. reflexivity. }
  split; [|split].
  - intros Htail.
    assert (Hrest : blen rest <= 2 * tag_len (cipher ctx1) + CHUNK_SIZE_LEN).
    { unfold rest. rewrite blen_drop; [lia|].
      unfold chunk_len, CHUNK_SIZE_LEN in *. lia. }
    destruct (List.length (chunk_data ctx1 ++ buf2)) as [|fuel] eqn:Hfuel; [lia|].
    rewrite Hcall. cbn [aead_decrypt_loop].
    change (chunk_data ctx_next) with rest. change (nonce ctx_next) with n2.
    destruct (blen rest >? 0).
    + rewrite aead_chunk_decrypt_short by exact Hrest. cbn [bind].
      destruct (Z.eqb_spec (blen p) 0) as [Hp0|_]; [lia|].
      cbn [bind]. eexists. split; [reflexivity|]. split; reflexivity.
    + cbn [bind]. eexists. split; [reflexivity|]. split; reflexivity.
  - intros st out ctx'' g''. rewrite Hcall.
    destruct (aead_decrypt_loop _ ctx_next p) as [[[err pl] ctx2]| |] eqn:Hloop;
      cbn [bind]; try discriminate.
    intros Hdone.
    assert (Hres : err = st /\ ctx2 = ctx'' /\ g2 = g'' /\ (st = CRYPTO_OK -> pl = out)).
    { destruct err; injection Hdone as <- <- <- <-; repeat split; try discriminate. }
    destruct Hres as (-> & -> & <- & Hout).
    split; [reflexivity|].
    destruct st.
    + split; [discriminate|]. intros _. rewrite <- (Hout eq_refl).
      destruct (aead_decrypt_loop_accounting _ ctx_next p _ _ _ Ht Hloop)
        as (k & more & -> & _ & _ & Hcd' & Hn' & _); [discriminate|].
      exists k, more. split; [reflexivity|].
      split; [rewrite increments_two_more; exact Hn'|exact Hcd'].
    + exfalso.
      destruct (aead_decrypt_loop_accounting _ ctx_next p _ _ _ Ht Hloop)
        as (k & more & -> & _ & _ & _ & _ & Hnm & _); [discriminate|].
      specialize (Hnm eq_refl). rewrite blen_app in Hnm.
      pose proof (blen_nonneg more). lia.
    + split; [discriminate|]. discriminate.
  - apply aead_decrypt_total. exact Ht.
Qed.

End Pieces.

(** ** The salt at the head of a TCP stream *)

Section Salt.

Context {E : Externals} {EOk : ExternalsOk E}.


End Salt.

(** ** The sample sessions *)

Lemma concat_singletons (w : bytes) : List.concat (map (fun b => [b]) w) = w.
Proof.
  induction w as [|b w IH]; [reflexivity|]. cbn. rewrite IH. reflexivity.
Qed.

Lemma toy_key_init (m : Z) : 0 <= m < AEAD_CIPHER_NUM ->
  aead_key_init (E := Toy.externals) m Toy.pass = Done (Some (Toy.cipher_of m)).
Proof.
  intros Hm. destruct (method_cases m Hm) as [-> | [-> | [-> | [-> | [-> | ->]]]]]; reflexivity.
Qed.

Lemma toy_open_length (m : Z) (k n ct p : bytes) :
  Toy.open m k n ct = Some p -> blen p = blen ct - 16.
Proof.
  unfold Toy.open. destruct (Z.ltb_spec (blen ct) 16) as [|Hlen]; [discriminate|].
  destruct (Toy.bytes_eqb _ _); [|discriminate].
  intros [= <-]. unfold blen at 1. rewrite length_map.
  apply blen_take. lia.
Qed.

Lemma toy_cipher_wf (m : Z) : 0 <= m < AEAD_CIPHER_NUM -> cipher_wf (Toy.cipher_of m).
Proof.
  intros Hm.
  destruct (aead_key_init_wf (E := Toy.externals) m Toy.pass (Toy.cipher_of m))
    as (Hwf & _); [apply toy_key_init; exact Hm|exact Hwf].
Qed.

(** C1, counterexample. A sender seals the two bytes "hi" with
    chacha20-ietf-poly1305: 32 bytes of salt and a chunk of 36.  The receiver
    is given all but the last byte, so its reassembly buffer holds the whole
    length ciphertext and 35 < 36 bytes of the chunk.  [aead_decrypt] returns
    [CRYPTO_NEED_MORE] with the nonce still at zero: it has not been
    incremented. *)
Lemma aead_decrypt_partial_chunk_counterexample :
  let wire := Toy.wire_of CHACHA20POLY1305IETF [(["h"; "i"]%byte, [])] in
  blen wire = 32 + 36 /\
  exists ctx' g',
    aead_decrypt (E := Toy.externals) [] (take 67 wire) (Toy.receiver_of CHACHA20POLY1305IETF)
      = Done (CRYPTO_NEED_MORE, take 67 wire, ctx', g') /\
    blen (chunk_data ctx') = 35 /\
    nonce ctx' = zeros 12 /\
    nonce ctx' <> sodium_increment (zeros 12) 12.
Proof.
  split; [reflexivity|]. eexists _, _.
  split; [vm_compute; reflexivity|].
  split; [reflexivity|]. split; [reflexivity|].
  vm_compute. discriminate.
Qed.


(** C3, counterexample. (1) In the server build a stream whose salt the
    filter has seen, here because the same stream was received once before,
    is answered with [CRYPTO_ERROR] by a fresh decrypt context.  (2) A
    plaintext of 65537 bytes passes the [assert] of [aead_chunk_encrypt],
    whose [uint16_t] argument is 1; [aead_encrypt] returns [CRYPTO_OK] and
    65603 bytes of which only the first 67 were written, and the receiver,
    given them in one segment, answers [CRYPTO_ERROR] and delivers nothing. *)
Lemma tcp_fragmentation_counterexample :
  (let wire := Toy.wire_of AES256GCM
                 [(["f"; "o"; "o"]%byte, []); (["b"; "a"; "r"]%byte, [])] in
   let receiver := Toy.receiver_of AES256GCM in
   exists sender' rs receiver' g',
     tcp_send (E := Toy.externals) (Toy.sender_of AES256GCM)
       [(["f"; "o"; "o"]%byte, []); (["b"; "a"; "r"]%byte, [])] = Done (Some (wire, sender')) /\
     tcp_recv (E := Toy.externals) [] receiver [wire] = Done (rs, receiver', g') /\
     delivered rs = ["f"; "o"; "o"; "b"; "a"; "r"]%byte /\
     exists receiver'' g'',
       tcp_recv (E := Toy.externals) g' receiver [wire]
         = Done ([(CRYPTO_ERROR, wire)], receiver'', g'')) /\
  (let wire := Toy.wire_of CHACHA20POLY1305IETF [(Toy.oversize, Toy.blank)] in
   blen Toy.oversize = 65537 /\
   sent_length (tcp_send (E := Toy.externals) (Toy.sender_of CHACHA20POLY1305IETF)
                  [(Toy.oversize, Toy.blank)])
     = Some (32 + 2 * 16 + 65537 + 2) /\
   summary (tcp_recv (E := Toy.externals) [] (Toy.receiver_of CHACHA20POLY1305IETF) [wire])
     = Some ([CRYPTO_ERROR], [])).
Proof.
  split.
  - cbv zeta. eexists _, _, _, _.
    split; [vm_compute; reflexivity|].
    split; [vm_compute; reflexivity|].
    split; [reflexivity|].
    eexists _, _. vm_compute. reflexivity.
  - cbv zeta. split; [vm_compute; reflexivity|].
    split; vm_compute; reflexivity.
Qed.

(** C4, counterexample. (1) The empty plaintext: [aead_encrypt_all] returns
    [CRYPTO_OK] and the 48 bytes of salt and tag, and [aead_decrypt_all]
    answers them with [CRYPTO_ERROR].  (2) In the server build the datagram
    of "ping" decrypts once; decrypting it again with the filter the first
    call left returns [CRYPTO_ERROR]. *)
Lemma aead_all_round_trip_counterexample :
  (let c := Toy.cipher_of XCHACHA20POLY1305IETF in
   exists ct,
     aead_encrypt_all (E := Toy.externals) [] c Toy.salt32 = Done (CRYPTO_OK, ct) /\
     blen ct = 48 /\
     aead_decrypt_all (E := Toy.externals) [] ct c [] = Done (CRYPTO_ERROR, ct, [])) /\
  (let c := Toy.cipher_of XCHACHA20POLY1305IETF in
   exists ct g',
     aead_encrypt_all (E := Toy.externals) ["p"; "i"; "n"; "g"]%byte c Toy.salt32
       = Done (CRYPTO_OK, ct) /\
     aead_decrypt_all (E := Toy.externals) [] ct c []
       = Done (CRYPTO_OK, ["p"; "i"; "n"; "g"]%byte, g') /\
     aead_decrypt_all (E := Toy.externals) g' ct c [] = Done (CRYPTO_ERROR, ct, g')).
Proof.
  split.
  - cbv zeta. eexists.
    split; [vm_compute; reflexivity|].
    split; [reflexivity|]. vm_compute. reflexivity.
  - cbv zeta. eexists _, _.
    split; [vm_compute; reflexivity|].
    split; [vm_compute; reflexivity|]. vm_compute. reflexivity.
Qed.

(** C5, counterexample. The aes-128-gcm datagram of the empty plaintext has
    exactly key_len + tag_len = 32 bytes, and its 16 bytes after the salt
    authenticate under the master key and the zero nonce; [aead_decrypt_all]
    returns [CRYPTO_ERROR] on it all the same. *)
Lemma aead_decrypt_all_length_gate_counterexample :
  let c := Toy.cipher_of AES128GCM in
  let ct := Toy.datagram_of AES128GCM [] in
  blen ct = key_len c + tag_len c /\
  aead_open (Externals := Toy.externals) (method c) (session_key c (key c))
            (zeros (nonce_len c)) (drop (key_len c) ct) = Some [] /\
  aead_decrypt_all (E := Toy.externals) [] ct c [] = Done (CRYPTO_ERROR, ct, []).
Proof.
  cbv zeta. split; [reflexivity|]. split; vm_compute; reflexivity.
Qed.

(** ** The theorems at the sample sessions *)

(** C10 at an unknown name, at a name of the table and at the NULL name. *)
Lemma aead_init_null_method_is_aes128_witness :
  aead_init_method (Some "rc4-md5"%string) = AES256GCM /\
  (forall pass, aead_init (E := Toy.externals) pass (Some "rc4-md5"%string)
                = aead_key_init (E := Toy.externals) AES256GCM pass) /\
  nth_error supported_aead_ciphers
    (Z.to_nat (aead_init_method (Some "chacha20-poly1305"%string)))
    = Some "chacha20-poly1305"%string /\
  method (Toy.cipher_of AES128GCM) = AES128GCM.
Proof.
  destruct (@aead_init_null_method_is_aes128 Toy.externals)
    as (_ & _ & _ & _ & _ & Hnull & Hin & _ & Hout).
  split; [|split; [|split]].
  - apply Hout. vm_compute. intuition discriminate.
  - apply Hout. vm_compute. intuition discriminate.
  - apply Hin. vm_compute. tauto.
  - apply (Hnull Toy.pass). reflexivity.
Defined.

Ltac method_in_range :=
  unfold AEAD_CIPHER_NUM, AES128GCM, AES192GCM, AES256GCM, CHACHA20POLY1305,
    CHACHA20POLY1305IETF, XCHACHA20POLY1305IETF; lia.

Ltac sample_cipher H :=
  rewrite toy_key_init in H by method_in_range; injection H as <-.

(** C6 at the "ping" datagram of xchacha20-ietf-poly1305: 32 + 4 + 16 bytes. *)
Lemma aead_encrypt_all_layout_witness :
  exists ct,
    aead_seal (Externals := Toy.externals) XCHACHA20POLY1305IETF
      (session_key (Toy.cipher_of XCHACHA20POLY1305IETF)
                   (key (Toy.cipher_of XCHACHA20POLY1305IETF)))
      (zeros 24) ["p"; "i"; "n"; "g"]%byte = Some ct /\
    aead_encrypt_all (E := Toy.externals) ["p"; "i"; "n"; "g"]%byte
      (Toy.cipher_of XCHACHA20POLY1305IETF) Toy.salt32 = Done (CRYPTO_OK, Toy.salt32 ++ ct) /\
    blen (Toy.salt32 ++ ct) = 32 + 4 + 16.
Proof.
  destruct (@aead_encrypt_all_layout Toy.externals toy_ok XCHACHA20POLY1305IETF Toy.pass)
    as (c & Hki & H).
  - method_in_range.
  - sample_cipher Hki.
    destruct (H Toy.salt32 ["p"; "i"; "n"; "g"]%byte) as (ct & Hseal & Henc & _ & Hlen & _).
    + reflexivity.
    + exists ct. split; [exact Hseal|]. split; [exact Henc|exact Hlen].
Defined.

(** C5 at 48 and at 49 zero bytes for chacha20-poly1305: the first stops at
    the length test, the second reaches the primitive, which rejects it. *)
Lemma aead_decrypt_all_length_gate_witness :
  aead_decrypt_all (E := Toy.externals) [] (zeros 48) (Toy.cipher_of CHACHA20POLY1305) []
    = Done (CRYPTO_ERROR, zeros 48, []) /\
  aead_decrypt_all (E := Toy.externals) [] (zeros 49) (Toy.cipher_of CHACHA20POLY1305) []
    = Done (CRYPTO_ERROR, zeros 49, []).
Proof.
  destruct (@aead_decrypt_all_length_gate Toy.externals toy_ok) as (Hshort & Hlong).
  split.
  - apply Hshort. vm_compute. discriminate.
  - destruct (Hlong CHACHA20POLY1305 Toy.pass) as (c & Hki & H); [method_in_range|].
    sample_cipher Hki. rewrite H.
    + reflexivity.
    + reflexivity.
    + right. vm_compute. discriminate.
Defined.

(** C4 at the "ping" datagram of xchacha20-ietf-poly1305, server build, empty
    filter. *)
Lemma aead_all_round_trip_witness :
  exists ct,
    aead_encrypt_all (E := Toy.externals) ["p"; "i"; "n"; "g"]%byte
      (Toy.cipher_of XCHACHA20POLY1305IETF) Toy.salt32 = Done (CRYPTO_OK, ct) /\
    aead_decrypt_all (E := Toy.externals) [] ct (Toy.cipher_of XCHACHA20POLY1305IETF) []
      = Done (CRYPTO_OK, ["p"; "i"; "n"; "g"]%byte, [Toy.salt32]).
Proof.
  destruct (@aead_all_round_trip Toy.externals toy_ok XCHACHA20POLY1305IETF Toy.pass)
    as (c & Hki & H); [method_in_range|].
  sample_cipher Hki.
  apply (H Toy.salt32 ["p"; "i"; "n"; "g"]%byte [] []).
  - reflexivity.
  - reflexivity.
  - right. vm_compute. discriminate.
Defined.

(** C7 at the first call of a chacha20-ietf-poly1305 session with the
    plaintext "A": 67 bytes. *)
Lemma aead_encrypt_first_call_layout_witness :
  exists ctx0 c1 c2 ctx1,
    aead_ctx_init (E := Toy.externals) (Toy.cipher_of CHACHA20POLY1305IETF) true Toy.salt32
      = Done ctx0 /\
    aead_encrypt (E := Toy.externals) ["A"%byte] (Some ctx0) []
      = Done (CRYPTO_OK, Toy.salt32 ++ c1 ++ c2, Some ctx1) /\
    blen (Toy.salt32 ++ c1 ++ c2) = 67.
Proof.
  destruct (@aead_encrypt_first_call_layout Toy.externals toy_ok CHACHA20POLY1305IETF Toy.pass)
    as (c & Hki & H); [method_in_range|].
  sample_cipher Hki.
  destruct (H Toy.salt32 ["A"%byte] [])
    as (ctx0 & sk & c1 & c2 & ctx1 & Hctx & _ & _ & Henc & _ & _ & _ & _ & H67 & _).
  - reflexivity.
  - vm_compute. split; [reflexivity|discriminate].
  - exists ctx0, c1, c2, ctx1. split; [exact Hctx|]. split; [exact Henc|].
    apply H67; reflexivity.
Defined.

(** C3 at the aes-256-gcm stream of "foo", "bar", "baz", fed one byte at a
    time. *)
Lemma tcp_fragmentation_robust_witness :
  let calls := [(["f"; "o"; "o"]%byte, []); (["b"; "a"; "r"]%byte, []);
                (["b"; "a"; "z"]%byte, [])] in
  let wire := Toy.wire_of AES256GCM calls in
  exists rs receiver' g',
    tcp_recv (E := Toy.externals) [] (Toy.receiver_of AES256GCM) (map (fun b => [b]) wire)
      = Done (rs, receiver', g') /\
    no_error rs /\
    delivered rs = ["f"; "o"; "o"; "b"; "a"; "r"; "b"; "a"; "z"]%byte.
Proof.
  cbv zeta.
  destruct (@tcp_fragmentation_robust Toy.externals toy_ok AES256GCM Toy.pass)
    as (c & Hki & H); [method_in_range|].
  sample_cipher Hki.
  destruct (H Toy.salt32
              [(["f"; "o"; "o"]%byte, []); (["b"; "a"; "r"]%byte, []);
               (["b"; "a"; "z"]%byte, [])] [])
    as (sender & receiver & Hs & Hr & _ & Hrecv).
  - reflexivity.
  - right. vm_compute. discriminate.
  - injection Hs as <-. injection Hr as <-.
    edestruct Hrecv as (rs & receiver' & g' & H1 & _ & H2 & H3 & _).
    + vm_compute. reflexivity.
    + repeat constructor; vm_compute; reflexivity.
    + apply concat_singletons.
    + exists rs, receiver', g'. split; [exact H1|]. split; [exact H2|exact H3].
Defined.

(** C9 at two empty calls on a fresh aes-128-gcm encrypt context. *)
Lemma aead_encrypt_empty_plaintext_witness :
  tcp_send (E := Toy.externals) (Toy.sender_of AES128GCM) [([], []); ([], ["x"%byte])]
    = Done (Some ([], Toy.sender_of AES128GCM)).
Proof.
  apply (proj2 (@aead_encrypt_empty_plaintext Toy.externals (Toy.sender_of AES128GCM) [])).
  repeat constructor.
Defined.


(** C8 at a chunk of one byte followed by a sealed length field of zero. *)
Lemma aead_decrypt_bad_length_is_error_witness :
  exists ctx',
    aead_decrypt (E := Toy.externals) [] Toy.forged Toy.rx
      = Done (CRYPTO_ERROR, Toy.forged, ctx', []).
Proof.
  edestruct (@aead_decrypt_bad_length_is_error Toy.externals [] Toy.forged Toy.rx)
    as (ctx' & Hdec & _).
  - vm_compute. discriminate.
  - lazy. reflexivity.
  - eapply popped_step.
    + vm_compute. reflexivity.
    + lazy. reflexivity.
    + apply popped_none.
  - vm_compute. reflexivity.
  - lazy. reflexivity.
  - reflexivity.
  - left. reflexivity.
  - exists ctx'. exact Hdec.
Defined.

(** C1 at the chacha20-ietf-poly1305 stream of "hi" and "yo": the salt and
    23 bytes of the first chunk, then its other 13 bytes and 7 bytes of the
    second chunk. *)
Lemma aead_decrypt_partial_chunk_keeps_nonce_witness :
  let wire := Toy.wire_of CHACHA20POLY1305IETF
                [(["h"; "i"]%byte, []); (["y"; "o"]%byte, [])] in
  exists ctx' ctx'',
    aead_decrypt (E := Toy.externals) [] (take 55 wire) (Toy.receiver_of CHACHA20POLY1305IETF)
      = Done (CRYPTO_NEED_MORE, take 55 wire, ctx', [Toy.salt32]) /\
    nonce ctx' = zeros 12 /\
    chunk ctx' = Some (take 23 (drop 32 wire)) /\
    aead_decrypt (E := Toy.externals) [Toy.salt32] (take 20 (drop 55 wire)) ctx'
      = Done (CRYPTO_OK, ["h"; "i"]%byte, ctx'', [Toy.salt32]) /\
    nonce ctx'' = sodium_increment (sodium_increment (zeros 12) 12) 12 /\
    chunk ctx'' = Some (take 7 (drop 68 wire)).
Proof.
  cbv zeta.
  edestruct (@aead_decrypt_partial_chunk_keeps_nonce Toy.externals []
               (take 55 (Toy.wire_of CHACHA20POLY1305IETF
                           [(["h"; "i"]%byte, []); (["y"; "o"]%byte, [])]))
               (Toy.receiver_of CHACHA20POLY1305IETF))
    as (ctx' & Hdec & Hn & Hc & _ & _ & Hnext).
  - vm_compute. discriminate.
  - lazy. reflexivity.
  - vm_compute. discriminate.
  - lazy. reflexivity.
  - reflexivity.
  - vm_compute. split; [reflexivity|discriminate].
  - vm_compute. reflexivity.
  - edestruct (Hnext [Toy.salt32] (take 20 (drop 55 (Toy.wire_of CHACHA20POLY1305IETF
                                          [(["h"; "i"]%byte, []); (["y"; "o"]%byte, [])]))))
      as (_ & Hshort & _).
    + vm_compute. discriminate.
    + lazy. reflexivity.
    + reflexivity.
    + destruct Hshort as (ctx'' & Hdec2 & Hn2 & Hc2); [vm_compute; discriminate|].
      exists ctx', ctx''. split; [exact Hdec|]. split; [exact Hn|]. split; [exact Hc|].
      split; [exact Hdec2|]. split; [exact Hn2|exact Hc2].
Defined.

(** ** The further properties at the sample sessions *)

(** X1 at a chacha20-ietf-poly1305 sender after "hi", an empty call and
    "!": two chunks, four nonces, 32 + 3 + 2 * 34 bytes. *)
Lemma tcp_send_nonce_count_witness :
  exists sender wire sender',
    aead_ctx_init (E := Toy.externals) (Toy.cipher_of CHACHA20POLY1305IETF) true Toy.salt32
      = Done sender /\
    tcp_send (E := Toy.externals) sender
      [(["h"; "i"]%byte, []); ([], []); (["!"]%byte, [])] = Done (Some (wire, sender')) /\
    nonce sender' = increments 4 12 (zeros 12) /\
    blen wire = 32 + 3 + 2 * 34.
Proof.
  destruct (@tcp_send_nonce_count Toy.externals toy_ok CHACHA20POLY1305IETF Toy.pass)
    as (c & Hki & H); [method_in_range|].
  sample_cipher Hki.
  destruct (H Toy.salt32 [(["h"; "i"]%byte, []); ([], []); (["!"]%byte, [])])
    as (sender & wire & sender' & Hs & Hsend & Hn & Hl).
  - reflexivity.
  - repeat constructor; vm_compute; discriminate.
  - exists sender, wire, sender'. split; [exact Hs|]. split; [exact Hsend|].
    split; [exact Hn|exact Hl].
Defined.

(** X2 at the same sender: the nonce reads 4. *)
Lemma tcp_send_nonce_value_witness :
  exists sender wire sender',
    aead_ctx_init (E := Toy.externals) (Toy.cipher_of CHACHA20POLY1305IETF) true Toy.salt32
      = Done sender /\
    tcp_send (E := Toy.externals) sender
      [(["h"; "i"]%byte, []); ([], []); (["!"]%byte, [])] = Done (Some (wire, sender')) /\
    blen (nonce sender') = 12 /\
    le_value (nonce sender') = 4.
Proof.
  destruct (@tcp_send_nonce_value Toy.externals toy_ok CHACHA20POLY1305IETF Toy.pass)
    as (c & Hki & H); [method_in_range|].
  sample_cipher Hki.
  destruct (H Toy.salt32 [(["h"; "i"]%byte, []); ([], []); (["!"]%byte, [])])
    as (sender & wire & sender' & Hs & Hsend & Hl & Hv).
  - reflexivity.
  - repeat constructor; vm_compute; discriminate.
  - exists sender, wire, sender'. split; [exact Hs|]. split; [exact Hsend|].
    split; [exact Hl|exact Hv].
Defined.

(** X3 at the aes-256-gcm stream of "foo" and "bar", received one byte at a
    time, and then "baz" in one segment. *)
Lemma tcp_session_in_step_witness :
  exists sender receiver wire sender' rs receiver' wire2 sender'' rs2 receiver'',
    aead_ctx_init (E := Toy.externals) (Toy.cipher_of AES256GCM) true Toy.salt32 = Done sender /\
    aead_ctx_init (E := Toy.externals) (Toy.cipher_of AES256GCM) false [] = Done receiver /\
    tcp_send (E := Toy.externals) sender [(["f"; "o"; "o"]%byte, []); (["b"; "a"; "r"]%byte, [])]
      = Done (Some (wire, sender')) /\
    tcp_recv (E := Toy.externals) [] receiver
      (map (fun b => [b])
         (Toy.wire_of AES256GCM [(["f"; "o"; "o"]%byte, []); (["b"; "a"; "r"]%byte, [])]))
      = Done (rs, receiver', [Toy.salt32]) /\
    nonce receiver' = nonce sender' /\
    chunk_data receiver' = [] /\
    tcp_send (E := Toy.externals) sender' [(["b"; "a"; "z"]%byte, [])]
      = Done (Some (wire2, sender'')) /\
    tcp_recv (E := Toy.externals) [Toy.salt32] receiver' [wire2]
      = Done (rs2, receiver'', [Toy.salt32]) /\
    delivered rs2 = ["b"; "a"; "z"]%byte.
Proof.
  destruct (@tcp_session_in_step Toy.externals toy_ok AES256GCM Toy.pass)
    as (c & Hki & H); [method_in_range|].
  sample_cipher Hki.
  destruct (H Toy.salt32 [(["f"; "o"; "o"]%byte, []); (["b"; "a"; "r"]%byte, [])] []
              (map (fun b => [b])
                 (Toy.wire_of AES256GCM
                    [(["f"; "o"; "o"]%byte, []); (["b"; "a"; "r"]%byte, [])])))
    as (sender & receiver & wire & sender' & Hs & Hr & Hsend & Hrecv).
  - reflexivity.
  - right. vm_compute. discriminate.
  - repeat constructor; vm_compute; discriminate.
  - vm_compute. discriminate.
  - destruct Hrecv as (rs & receiver' & Hrecv & _ & _ & _ & Hn & Hcd & Hnext).
    + rewrite concat_singletons. injection Hs as <-.
      vm_compute in Hsend. injection Hsend as <- <-. vm_compute. reflexivity.
    + destruct (Hnext [(["b"; "a"; "z"]%byte, [])] [wire] [Toy.salt32])
        as (wire2 & sender'' & Hsend2 & Hrecv2).
      * repeat constructor; vm_compute; discriminate.
      * clear Hrecv2.
        destruct (Hnext [(["b"; "a"; "z"]%byte, [])] [wire2] [Toy.salt32])
          as (wire2' & sender2' & Hsend2' & Hrecv2).
        { repeat constructor; vm_compute; discriminate. }
        rewrite Hsend2 in Hsend2'. injection Hsend2' as <- <-.
        destruct Hrecv2 as (rs2 & receiver'' & Hrecv2 & _ & Hdel2 & _).
        { cbn [List.concat]. apply app_nil_r. }
        exists sender, receiver, wire, sender', rs, receiver', wire2, sender'', rs2, receiver''.
        split; [exact Hs|]. split; [exact Hr|]. split; [exact Hsend|].
        split; [exact Hrecv|]. split; [exact Hn|]. split; [exact Hcd|].
        split; [exact Hsend2|]. split; [exact Hrecv2|exact Hdel2].
Defined.

(** X4 at the chacha20-ietf-poly1305 stream of "hi" with the last 16 bytes
    of its salt set to zero. *)
Lemma tcp_salt_tail_unauthenticated_witness :
  exists rs receiver' g',
    tcp_recv (E := Toy.externals) [] (Toy.receiver_of CHACHA20POLY1305IETF)
      [(take 16 Toy.salt32 ++ zeros 16)
       ++ drop 32 (Toy.wire_of CHACHA20POLY1305IETF [(["h"; "i"]%byte, [])])]
      = Done (rs, receiver', g') /\
    no_error rs /\
    delivered rs = ["h"; "i"]%byte /\
    take 16 Toy.salt32 ++ zeros 16 <> Toy.salt32.
Proof.
  destruct (@tcp_salt_tail_unauthenticated Toy.externals toy_ok CHACHA20POLY1305IETF Toy.pass)
    as (c & Hki & H); [method_in_range|].
  sample_cipher Hki.
  destruct (H Toy.salt32 (take 16 Toy.salt32 ++ zeros 16) [(["h"; "i"]%byte, [])] []
              [(take 16 Toy.salt32 ++ zeros 16)
               ++ drop 32 (Toy.wire_of CHACHA20POLY1305IETF [(["h"; "i"]%byte, [])])])
    as (sender & receiver & wire & sender' & Hs & Hr & Hsend & Hrecv).
  - reflexivity.
  - reflexivity.
  - reflexivity.
  - right. vm_compute. discriminate.
  - repeat constructor; vm_compute; discriminate.
  - injection Hs as <-. injection Hr as <-.
    vm_compute in Hsend. injection Hsend as <- <-.
    destruct Hrecv as (rs & receiver' & g' & Hrecv & Hne & Hdel).
    + vm_compute. reflexivity.
    + vm_compute. reflexivity.
    + exists rs, receiver', g'. split; [exact Hrecv|]. split; [exact Hne|].
      split; [exact Hdel|]. vm_compute. discriminate.
Defined.

(** X5 at the method ids 6 and -1, and at chacha20-poly1305. *)
Lemma aead_key_init_null_iff_illegal_witness :
  aead_key_init (E := Toy.externals) AEAD_CIPHER_NUM Toy.pass = Done None /\
  aead_key_init (E := Toy.externals) NONE Toy.pass = Done None /\
  method (Toy.cipher_of CHACHA20POLY1305) = CHACHA20POLY1305 /\
  nonce_len (Toy.cipher_of CHACHA20POLY1305) = 8 /\
  info (Toy.cipher_of CHACHA20POLY1305) = Some {| key_bitlen := 256; iv_size := 8 |}.
Proof.
  split; [|split].
  - apply (proj1 (@aead_key_init_null_iff_illegal Toy.externals AEAD_CIPHER_NUM Toy.pass)).
    right. vm_compute. discriminate.
  - apply (proj1 (@aead_key_init_null_iff_illegal Toy.externals NONE Toy.pass)).
    left. reflexivity.
  - destruct (proj2 (@aead_key_init_null_iff_illegal Toy.externals CHACHA20POLY1305 Toy.pass)
                (Toy.cipher_of CHACHA20POLY1305))
      as (Hm & _ & _ & Hn & _ & _ & _ & Hinfo).
    + reflexivity.
    + split; [exact Hm|]. split; [exact Hn|]. apply Hinfo. vm_compute. discriminate.
Defined.

(** X6 at an unknown name and at the NULL name. *)
Lemma aead_init_never_null_witness :
  aead_init (E := Toy.externals) Toy.pass (Some "rc4-md5"%string) <> Done None /\
  aead_init (E := Toy.externals) Toy.pass None <> Done None /\
  key_len (Toy.cipher_of AES256GCM) = 32.
Proof.
  split; [|split].
  - apply (@aead_init_never_null Toy.externals Toy.pass (Some "rc4-md5"%string)).
  - apply (@aead_init_never_null Toy.externals Toy.pass None).
  - destruct (@aead_init_never_null Toy.externals Toy.pass (Some "rc4-md5"%string))
      as (_ & _ & H).
    destruct (H (Toy.cipher_of AES256GCM)) as (_ & Hk & _); [reflexivity|exact Hk].
Defined.

(** X7 at "ping" under aes-192-gcm, and at the context without a cipher. *)
Lemma aead_cipher_round_trip_witness :
  (aead_cipher_encrypt (E := Toy.externals) Toy.no_ctx ["p"; "i"; "n"; "g"]%byte [] [] = None) /\
  exists ctx0 udp tcp ct ct',
    aead_ctx_init (E := Toy.externals) (Toy.cipher_of AES192GCM) false [] = Done ctx0 /\
    aead_cipher_ctx_udp_set_key ctx0 = Done udp /\
    aead_cipher_encrypt (E := Toy.externals) udp ["p"; "i"; "n"; "g"]%byte (zeros 12)
      (key (Toy.cipher_of AES192GCM)) = Some ct /\
    aead_cipher_decrypt (E := Toy.externals) udp ct (zeros 12)
      (key (Toy.cipher_of AES192GCM)) = Some ["p"; "i"; "n"; "g"]%byte /\
    aead_cipher_ctx_set_subkey (E := Toy.externals) ctx0 = Done tcp /\
    aead_cipher_encrypt (E := Toy.externals) tcp ["p"; "i"; "n"; "g"]%byte (zeros 12)
      (subkey tcp) = Some ct' /\
    aead_cipher_decrypt (E := Toy.externals) tcp ct' (zeros 12) (subkey tcp)
      = Some ["p"; "i"; "n"; "g"]%byte.
Proof.
  destruct (@aead_cipher_round_trip Toy.externals toy_ok) as (Hnone & Hsome).
  split.
  - apply Hnone. left. reflexivity.
  - destruct (Hsome AES192GCM Toy.pass) as (c & Hki & H); [method_in_range|].
    sample_cipher Hki.
    destruct (H false [] ["p"; "i"; "n"; "g"]%byte (zeros 12))
      as (ctx0 & udp & tcp & ct & ct' & H0 & H1 & H2 & _ & H3 & H4 & _ & H5 & _ & H6 & _).
    exists ctx0, udp, tcp, ct, ct'. repeat (split; [assumption|]). assumption.
Defined.

(** X8 at the chunk of "A" followed by one more byte, and at the chunk of
    the empty payload. *)
Lemma aead_chunk_round_trip_witness :
  (exists body n2,
     aead_chunk_encrypt (E := Toy.externals) Toy.rx ["A"%byte] (zeros 12) 1
       = Done (CRYPTO_OK, body, n2) /\
     blen body = 35 /\
     aead_chunk_decrypt (E := Toy.externals) Toy.rx (body ++ ["z"%byte]) (zeros 12)
       = Done (CRYPTO_OK, ["A"%byte], ["z"%byte], n2)) /\
  (exists body n2,
     aead_chunk_encrypt (E := Toy.externals) Toy.rx [] (zeros 12) 0
       = Done (CRYPTO_OK, body, n2) /\
     aead_chunk_decrypt (E := Toy.externals) Toy.rx (body ++ ["z"%byte]) (zeros 12)
       = Done (CRYPTO_ERROR, [], body ++ ["z"%byte], zeros 12)).
Proof.
  assert (Hwf : cipher_wf (Toy.cipher_of CHACHA20POLY1305IETF))
    by (apply toy_cipher_wf; method_in_range).
  assert (Hest : established (Toy.cipher_of CHACHA20POLY1305IETF)
                   Toy.salt32 Toy.rx) by (repeat split).
  split.
  - destruct (@aead_chunk_round_trip Toy.externals toy_ok (Toy.cipher_of CHACHA20POLY1305IETF)
                Toy.salt32 Toy.rx ["A"%byte] (zeros 12) ["z"%byte] Hwf Hest)
      as (body & n2 & Henc & Hlen & _ & Hdec & _).
    + vm_compute. discriminate.
    + exists body, n2. split; [exact Henc|]. split; [exact Hlen|].
      apply Hdec. reflexivity.
  - destruct (@aead_chunk_round_trip Toy.externals toy_ok (Toy.cipher_of CHACHA20POLY1305IETF)
                Toy.salt32 Toy.rx [] (zeros 12) ["z"%byte] Hwf Hest)
      as (body & n2 & Henc & _ & _ & _ & Hdec).
    + vm_compute. discriminate.
    + exists body, n2. split; [exact Henc|].
      apply Hdec; reflexivity.
Defined.


(** X10 at a datagram that does not authenticate and at a stream chunk that
    does not either. *)
Lemma errors_leave_the_buffer_witness :
  (exists st out g',
     aead_decrypt_all (E := Toy.externals) [] (zeros 49) (Toy.cipher_of CHACHA20POLY1305) []
       = Done (st, out, g') /\
     out = zeros 49 /\ g' = []) /\
  (exists st out ctx' g',
     aead_decrypt (E := Toy.externals) [Toy.salt32] (zeros 40) Toy.rx = Done (st, out, ctx', g') /\
     out = zeros 40 /\ g' = [Toy.salt32]).
Proof.
  destruct (@errors_leave_the_buffer Toy.externals) as (_ & Htcp & _ & Hudp).
  split.
  - eexists _, _, _.
    match goal with |- ?A /\ _ => assert (H : A) by (vm_compute; reflexivity) end.
    split; [exact H|].
    destruct (Hudp _ _ _ _ _ _ _ H) as (_ & Hout & _).
    apply Hout. discriminate.
  - eexists _, _, _, _.
    match goal with |- ?A /\ _ => assert (H : A) by (vm_compute; reflexivity) end.
    split; [exact H|].
    destruct (Htcp _ _ _ _ _ _ _ H) as (Hout & Hg & _).
    split; [apply Hout; discriminate|apply Hg; reflexivity].
Defined.

(** X11 at a stream whose length chunk is 18 zero bytes, and at the stream
    of "A" with the last byte of the payload tag changed. *)
Lemma aead_decrypt_forgery_is_error_witness :
  (exists ctx',
     aead_decrypt (E := Toy.externals) [] (Toy.salt32 ++ zeros 35)
       (Toy.receiver_of CHACHA20POLY1305IETF)
       = Done (CRYPTO_ERROR, Toy.salt32 ++ zeros 35, ctx', [Toy.salt32]) /\
     nonce ctx' = zeros 12) /\
  (exists ctx',
     aead_decrypt (E := Toy.externals) []
       (take 66 (Toy.wire_of CHACHA20POLY1305IETF [(["A"%byte], [])]) ++ ["!"%byte])
       (Toy.receiver_of CHACHA20POLY1305IETF)
       = Done (CRYPTO_ERROR,
               take 66 (Toy.wire_of CHACHA20POLY1305IETF [(["A"%byte], [])]) ++ ["!"%byte],
               ctx', [Toy.salt32]) /\
     nonce ctx' = sodium_increment (zeros 12) 12).
Proof.
  split.
  - edestruct (@aead_decrypt_forgery_is_error Toy.externals [] (Toy.salt32 ++ zeros 35)
                 (Toy.receiver_of CHACHA20POLY1305IETF)) as (H & _).
    + vm_compute. discriminate.
    + lazy. reflexivity.
    + apply popped_none.
    + vm_compute. reflexivity.
    + destruct H as (ctx' & Hdec & Hn & _).
      * vm_compute. reflexivity.
      * exists ctx'. split; [exact Hdec|exact Hn].
  - edestruct (@aead_decrypt_forgery_is_error Toy.externals []
                 (take 66 (Toy.wire_of CHACHA20POLY1305IETF [(["A"%byte], [])]) ++ ["!"%byte])
                 (Toy.receiver_of CHACHA20POLY1305IETF)) as (_ & H).
    + vm_compute. discriminate.
    + lazy. reflexivity.
    + apply popped_none.
    + vm_compute. reflexivity.
    + edestruct H as (ctx' & Hdec & Hn & _).
      * vm_compute. reflexivity.
      * reflexivity.
      * vm_compute. split; [reflexivity|discriminate].
      * vm_compute. discriminate.
      * vm_compute. reflexivity.
      * exists ctx'. split; [exact Hdec|exact Hn].
Defined.

(** X12 at an established receiver given the chunks of "A" and "BC" and the
    first 20 bytes of a third chunk. *)
Lemma aead_decrypt_accounting_witness :
  exists ctx' g' k,
    aead_decrypt (E := Toy.externals) []
      (Toy.chunks_of [(["A"%byte], []); (["B"; "C"]%byte, [])] ++ zeros 20) Toy.rx
      = Done (CRYPTO_OK, ["A"; "B"; "C"]%byte, ctx', g') /\
    nonce ctx' = increments (2 * k) 12 (zeros 12) /\
    Z.of_nat k <= 3 /\
    3 + Z.of_nat k * 34 <= 91 /\
    chunk_data ctx' = zeros 20.
Proof.
  eexists _, _.
  match goal with
  | |- exists k, ?A /\ _ => assert (H1 : A) by (lazy; reflexivity)
  end.
  match type of H1 with
  | aead_decrypt ?g ?buf ?ctx = Done (?st, ?out, ?ctx', ?g') =>
      destruct (@aead_decrypt_accounting Toy.externals g buf ctx st out ctx' g')
        as (k & got & Hgot & Hk & Hused & _ & Hn & _)
  end.
  - vm_compute. discriminate.
  - reflexivity.
  - exact H1.
  - discriminate.
  - subst got. exists k. split; [exact H1|]. split; [exact Hn|].
    split; [exact (proj1 Hk)|]. split; [exact Hused|]. reflexivity.
Defined.

(** X13 at the aes-256-gcm stream and datagram of "foo", with their salt in
    the filter. *)
Lemma replayed_salt_is_rejected_witness :
  (exists ctx',
     aead_decrypt (E := Toy.externals) [Toy.salt32]
       (Toy.wire_of AES256GCM [(["f"; "o"; "o"]%byte, [])]) (Toy.receiver_of AES256GCM)
       = Done (CRYPTO_ERROR, Toy.wire_of AES256GCM [(["f"; "o"; "o"]%byte, [])], ctx',
               [Toy.salt32]) /\
     init ctx' = false) /\
  aead_decrypt_all (E := Toy.externals) [Toy.salt32]
    (Toy.datagram_of AES256GCM ["f"; "o"; "o"]%byte) (Toy.cipher_of AES256GCM) []
    = Done (CRYPTO_ERROR, Toy.datagram_of AES256GCM ["f"; "o"; "o"]%byte, [Toy.salt32]).
Proof.
  destruct (@replayed_salt_is_rejected Toy.externals toy_ok (Toy.cipher_of AES256GCM))
    as (Htcp & Hudp).
  - apply toy_cipher_wf. method_in_range.
  - reflexivity.
  - split.
    + destruct (Htcp [Toy.salt32] (Toy.receiver_of AES256GCM)
                  (Toy.wire_of AES256GCM [(["f"; "o"; "o"]%byte, [])]))
        as (ctx' & Hdec & Hi & _).
      * vm_compute. repeat split. eexists. repeat split.
      * vm_compute. reflexivity.
      * vm_compute. reflexivity.
      * exists ctx'. split; [exact Hdec|exact Hi].
    + apply Hudp.
      * vm_compute. reflexivity.
      * vm_compute. reflexivity.
Defined.

(** X14 at a fresh receiver given a salt followed by 35 zero bytes: the
    call fails and the salt is in the filter. *)
Lemma tcp_salt_recorded_before_authentication_witness :
  exists ctx',
    aead_decrypt (E := Toy.externals) [] (Toy.salt32 ++ zeros 35)
      (Toy.receiver_of CHACHA20POLY1305IETF)
      = Done (CRYPTO_ERROR, Toy.salt32 ++ zeros 35, ctx', [Toy.salt32]) /\
    init ctx' = true.
Proof.
  destruct (@tcp_salt_recorded_before_authentication Toy.externals toy_ok
              (Toy.cipher_of CHACHA20POLY1305IETF)
              match session_subkey (E := Toy.externals) (Toy.cipher_of CHACHA20POLY1305IETF)
                      Toy.salt32 with
              | Some sk => sk
              | None => []
              end
              [] (Toy.receiver_of CHACHA20POLY1305IETF)
              (Toy.salt32 ++ zeros 35)) as (ctx' & Hdec & Hi & _).
  - apply toy_cipher_wf. method_in_range.
  - repeat split.
  - vm_compute. reflexivity.
  - right. vm_compute. discriminate.
  - vm_compute. reflexivity.
  - vm_compute. reflexivity.
  - exists ctx'. split; [exact Hdec|exact Hi].
Defined.

(** X15 at the xchacha20-ietf-poly1305 datagrams of "ping" and of the empty
    plaintext: with its salt in the filter and the salt replaced by zero
    bytes the first is accepted, and the second is refused. *)
Lemma udp_salt_unauthenticated_witness :
  (exists ct,
     aead_encrypt_all (E := Toy.externals) ["p"; "i"; "n"; "g"]%byte
       (Toy.cipher_of XCHACHA20POLY1305IETF) Toy.salt32 = Done (CRYPTO_OK, Toy.salt32 ++ ct) /\
     aead_decrypt_all (E := Toy.externals) [Toy.salt32] (zeros 32 ++ ct)
       (Toy.cipher_of XCHACHA20POLY1305IETF) []
       = Done (CRYPTO_OK, ["p"; "i"; "n"; "g"]%byte, [zeros 32; Toy.salt32])) /\
  (exists ct,
     aead_encrypt_all (E := Toy.externals) []
       (Toy.cipher_of XCHACHA20POLY1305IETF) Toy.salt32 = Done (CRYPTO_OK, Toy.salt32 ++ ct) /\
     aead_decrypt_all (E := Toy.externals) [] (zeros 32 ++ ct)
       (Toy.cipher_of XCHACHA20POLY1305IETF) []
       = Done (CRYPTO_ERROR, zeros 32 ++ ct, [])).
Proof.
  destruct (@udp_salt_unauthenticated Toy.externals toy_ok XCHACHA20POLY1305IETF Toy.pass)
    as (c & Hki & H); [method_in_range|].
  sample_cipher Hki.
  split.
  - destruct (H ["p"; "i"; "n"; "g"]%byte) as (ct & _ & Hct).
    exists ct.
    destruct (Hct Toy.salt32 (zeros 32) [Toy.salt32] []) as (Henc & Hdec & _).
    + reflexivity.
    + reflexivity.
    + split; [exact Henc|]. apply Hdec.
      * reflexivity.
      * right. vm_compute. discriminate.
  - destruct (H []) as (ct & _ & Hct).
    exists ct.
    destruct (Hct Toy.salt32 (zeros 32) [] []) as (Henc & _ & Hdec).
    + reflexivity.
    + reflexivity.
    + split; [exact Henc|]. apply Hdec. reflexivity.
Defined.

(** X16 at a fresh aes-128-gcm receiver given two segments of 40 zero
    bytes. *)
Lemma aead_decrypt_never_aborts_witness :
  exists rs ctx' g',
    tcp_recv (E := Toy.externals) [] (Toy.receiver_of AES128GCM) [zeros 40; zeros 40]
      = Done (rs, ctx', g').
Proof.
  destruct (@aead_decrypt_never_aborts Toy.externals toy_ok toy_open_length
              (Toy.cipher_of AES128GCM) (Toy.receiver_of AES128GCM)) as (_ & H).
  - apply toy_cipher_wf. method_in_range.
  - right. vm_compute. repeat split. eexists. repeat split.
  - destruct (H [zeros 40; zeros 40] []) as (rs & ctx' & g' & Hrecv & _).
    exists rs, ctx', g'. exact Hrecv.
Defined.
